(** * BOLOC: the BOLSIG+ cross-section parser and its XML writer

    A shallow embedding of [src/parser.py]: the string primitives the
    program relies on, the two regular expressions, the block readers,
    [parse], the class [XMLnode] with its serializer, and [main].

    Conventions.
    - A text file is the list of its lines; the file iterator [fp] is the
      list of the lines not yet consumed, threaded through every reader.
    - Exceptions are the constructors of [exn]; a computation that may
      raise returns [exn + A].
    - Python floats stay abstract: the development is parametric in the
      float type and in the conversions [float], [repr] and ['%10.6E' %].
    - A process dictionary is a [gmap string pyval]. *)

From Stdlib Require Import Ascii String QArith.
From stdpp Require Import gmap strings list pretty.
Close Scope Q_scope.
Open Scope string_scope.
Open Scope list_scope.
#[local] Arguments String.append _ _ : simpl nomatch.

(** ** Python strings *)

Module Py.

(** The one-character strings that cannot be typed inside a literal. *)
Definition nl : string := String "010"%char "".
Definition dquote : string := String "034"%char "".

(** [str.isspace] on a byte string: space, \t, \n, \v, \f, \r. *)
Definition isspace (c : ascii) : bool :=
  let n := nat_of_ascii c in
  (n =? 32)%nat || ((9 <=? n)%nat && (n <=? 13)%nat).

(** [s.lstrip()] *)
Fixpoint lstrip (s : string) : string :=
  match s with
  | String c s' => if isspace c then lstrip s' else s
  | EmptyString => EmptyString
  end.

(** [s.rstrip()] *)
Fixpoint rstrip (s : string) : string :=
  match s with
  | String c s' =>
      match rstrip s' with
      | EmptyString => if isspace c then EmptyString else String c EmptyString
      | r => String c r
      end
  | EmptyString => EmptyString
  end.

(** [s.strip()] *)
Definition strip (s : string) : string := lstrip (rstrip s).

(** [s.split()]: the maximal runs of non-whitespace characters. *)
Fixpoint split (s : string) : list string :=
  match s with
  | EmptyString => []
  | String c s' =>
      if isspace c then split s'
      else match s' with
           | EmptyString => [String c EmptyString]
           | String c' _ =>
               if isspace c' then String c EmptyString :: split s'
               else match split s' with
                    | t :: ts => String c t :: ts
                    | [] => [String c EmptyString]
                    end
           end
  end.

(** [s.find(sub)]: the lowest index where [sub] occurs; [None] stands for
    the result -1. *)
Fixpoint find (sub s : string) : option nat :=
  if String.prefix sub s then Some 0
  else match s with
       | String _ s' => S <$> find sub s'
       | EmptyString => None
       end.

(** [s[:n]] and [s[n:]] *)
Fixpoint take (n : nat) (s : string) : string :=
  match n, s with
  | S n', String c s' => String c (take n' s')
  | _, _ => EmptyString
  end.

Fixpoint drop (n : nat) (s : string) : string :=
  match n, s with
  | S n', String _ s' => drop n' s'
  | _, _ => s
  end.

(** [s[0]] and [s[-1]] of a string *)
Definition first (s : string) : option ascii :=
  match s with String c _ => Some c | EmptyString => None end.

Fixpoint last (s : string) : option ascii :=
  match s with
  | EmptyString => None
  | String c EmptyString => Some c
  | String _ s' => last s'
  end.

(** [sep.join(l)] and [''.join(l)] *)
Definition join (sep : string) (l : list string) : string := String.concat sep l.

(** ['-' * n] *)
Fixpoint repeat (c : ascii) (n : nat) : string :=
  match n with O => EmptyString | S n' => String c (repeat c n') end.

End Py.

(** ** Exceptions and the error monad *)

Inductive exn : Type :=
| StopIteration   (* [fp.next()] on an exhausted file *)
| ValueError      (* [float], [np.loadtxt], tuple unpacking *)
| IndexError      (* list index out of range *)
| KeyError        (* missing dictionary key *)
| TypeError.      (* indexing or iterating a float *)

Abbreviation raises A := (sum exn A) (only parsing).

Definition ret {A} (a : A) : raises A := inr a.
Definition raise {A} (e : exn) : raises A := inl e.
Definition bind {A B} (m : raises A) (k : A -> raises B) : raises B :=
  match m with inl e => inl e | inr a => k a end.

Notation "'do' x <- m ; k" := (bind m (fun x => k))
  (at level 10, x pattern, m at level 100, k at level 200).

Definition is_error {A} (m : raises A) : Prop := exists e, m = inl e.

(** ** The two regular expressions *)

(** [RE_SEP = re.compile("-----+")]: four dashes, then one dash or more.
    [RE_SEP.match(s)] anchors the pattern at the start of [s] only; the
    result is used for its truth value. *)
Definition RE_SEP_match (s : string) : bool :=
  match s with
  | String c0 (String c1 (String c2 (String c3 (String c4 _)))) =>
      Ascii.eqb c0 "-" && Ascii.eqb c1 "-" && Ascii.eqb c2 "-"
      && Ascii.eqb c3 "-" && Ascii.eqb c4 "-"
  | _ => false
  end.

(** [RE_ARROW = re.compile('<?->')]: an optional [<], then [->].
    [RE_ARROW.split(s)] cuts [s] at the successive leftmost matches; the
    pieces between them are returned, so [n] matches give [n + 1] pieces. *)
Fixpoint RE_ARROW_split (s : string) : list string :=
  match s with
  | EmptyString => [EmptyString]
  | String c s1 =>
      let keep := match RE_ARROW_split s1 with
                  | p :: ps => String c p :: ps
                  | [] => [String c EmptyString]
                  end in
      match s1 with
      | String c1 s2 =>
          if Ascii.eqb c "-" && Ascii.eqb c1 ">" then EmptyString :: RE_ARROW_split s2
          else match s2 with
               | String c2 s3 =>
                   if Ascii.eqb c "<" && Ascii.eqb c1 "-" && Ascii.eqb c2 ">"
                   then EmptyString :: RE_ARROW_split s3
                   else keep
               | EmptyString => keep
               end
      | EmptyString => keep
      end
  end.

(** The number of successive matches of [RE_ARROW] in [s]
    ([len(RE_ARROW.findall(s))]). *)
Fixpoint RE_ARROW_count (s : string) : nat :=
  match s with
  | EmptyString => 0
  | String c s1 =>
      match s1 with
      | String c1 s2 =>
          if Ascii.eqb c "-" && Ascii.eqb c1 ">" then S (RE_ARROW_count s2)
          else match s2 with
               | String c2 s3 =>
                   if Ascii.eqb c "<" && Ascii.eqb c1 "-" && Ascii.eqb c2 ">"
                   then S (RE_ARROW_count s3)
                   else RE_ARROW_count s1
               | EmptyString => RE_ARROW_count s1
               end
      | EmptyString => RE_ARROW_count s1
      end
  end.

(** The text that follows a match of [RE_ARROW] at the very start of [s]. *)
Definition arrow_at (s : string) : option string :=
  match s with
  | String c (String c1 s2) =>
      if Ascii.eqb c "-" && Ascii.eqb c1 ">" then Some s2
      else match s2 with
           | String c2 s3 =>
               if Ascii.eqb c "<" && Ascii.eqb c1 "-" && Ascii.eqb c2 ">"
               then Some s3 else None
           | EmptyString => None
           end
  | _ => None
  end.

(** ** Python values *)

(** What a process dictionary holds: strings, floats and (nested) lists.
    The float type [F] is a parameter of the whole development. *)
#[warnings="-register-all"]
Inductive pyval (F : Type) : Type :=
| VStr (s : string)
| VFloat (x : F)
| VList (l : list (pyval F)).
Arguments VStr {F} s.
Arguments VFloat {F} x.
Arguments VList {F} l.

(** The file iterator: the lines that remain to be read. *)
Abbreviation stream := (list string) (only parsing).

(** [fp.next()] *)
Definition next (fp : stream) : raises (string * stream) :=
  match fp with
  | line :: fp' => ret (line, fp')
  | [] => raise StopIteration
  end.

(** [l[i]] on a list *)
Definition getitem {A} (l : list A) (i : nat) : raises A :=
  match l !! i with
  | Some a => ret a
  | None => raise IndexError
  end.

(** [d[k]] on a dictionary *)
Definition getkey {V} (d : gmap string V) (k : string) : raises V :=
  match d !! k with
  | Some v => ret v
  | None => raise KeyError
  end.

(** [_read_until_sep]: the stripped lines up to the next separator line,
    which is consumed too; at the end of the file the loop just ends. *)
Fixpoint _read_until_sep (fp : stream) : list string * stream :=
  match fp with
  | [] => ([], [])
  | line :: fp' =>
      if RE_SEP_match (Py.strip line) then ([], fp')
      else let (lines, rest) := _read_until_sep fp' in
           (Py.strip line :: lines, rest)
  end.

(** What the two calls of [_read_until_sep] in [_read_block] find in the
    lines that follow the target and argument lines: the lines of the table,
    and the lines left after the block. *)
Definition block_lines (fp : stream) : list string :=
  fst (_read_until_sep (snd (_read_until_sep fp))).
Definition block_rest (fp : stream) : stream :=
  snd (_read_until_sep (snd (_read_until_sep fp))).

(** A process dictionary, and a block reader. *)
Abbreviation process F := (gmap string (pyval F)) (only parsing).
Abbreviation reader F := (stream -> raises (process F * stream)) (only parsing).

Section Parser.

(** The float type with the library conversions that the parser calls:
    [float(s)] and the converter [np.loadtxt] applies to a token.  [zero]
    is the literal [0.0]. *)
Variable F : Type.
Variable float : string -> option F.
Variable floatconv : string -> option F.
Variable zero : F.

(** [float(s)], raising [ValueError] on a string that is no float. *)
Definition float_of (s : string) : raises F :=
  match float s with Some x => ret x | None => raise ValueError end.

(** *** [np.loadtxt(lines).tolist()]

    With its default arguments [np.loadtxt] drops from each line what
    follows a [#], splits the rest at whitespace, skips the lines left
    without a token, converts every token to a float, and requires each row
    to have as many columns as the first one ([ValueError] otherwise).  The
    resulting array is squeezed ([ndmin=0]): axes of length one are
    removed, so a single row comes back as a flat list and a single number
    as a scalar.  No data at all gives the empty list. *)

Fixpoint before_hash (s : string) : string :=
  match s with
  | EmptyString => EmptyString
  | String c s' => if Ascii.eqb c "#" then EmptyString else String c (before_hash s')
  end.

Definition split_line (line : string) : list string := Py.split (before_hash line).

Fixpoint convert_row (vals : list string) : raises (list F) :=
  match vals with
  | [] => ret []
  | v :: vals' =>
      match floatconv v with
      | Some x => do xs <- convert_row vals'; ret (x :: xs)
      | None => raise ValueError
      end
  end.

(** The rows after the first: [N] is the column count of the first row. *)
Fixpoint read_rows (N : nat) (lines : list string) : raises (list (list F)) :=
  match lines with
  | [] => ret []
  | line :: lines' =>
      let vals := split_line line in
      if (length vals =? 0)%nat then read_rows N lines'
      else if negb (length vals =? N)%nat then raise ValueError
      else do row <- convert_row vals;
           do rows <- read_rows N lines';
           ret (row :: rows)
  end.

Fixpoint first_row_width (lines : list string) : nat :=
  match lines with
  | [] => 0
  | line :: lines' =>
      let vals := split_line line in
      if (length vals =? 0)%nat then first_row_width lines' else length vals
  end.

Definition squeeze_tolist (rows : list (list F)) : pyval F :=
  match rows with
  | [] => VList []
  | [[x]] => VFloat x
  | [row] => VList (VFloat <$> row)
  | _ =>
      if forallb (fun row => (length row =? 1)%nat) rows
      then VList (VFloat <$> concat rows)
      else VList ((fun row => VList (VFloat <$> row)) <$> rows)
  end.

Definition loadtxt_tolist (lines : list string) : raises (pyval F) :=
  do rows <- read_rows (first_row_width lines) lines;
  ret (squeeze_tolist rows).

(** A row that [np.loadtxt] refuses: a token that is no float, or a number
    of columns other than [N]. *)
Definition bad_row (N : nat) (line : string) : Prop :=
  (exists tok, tok ∈ split_line line /\ floatconv tok = None)
  \/ (split_line line <> [] /\ length (split_line line) <> N).

(** *** The block readers *)

(** [_read_block(fp, has_arg)]: the target line, the argument line when
    there is one, the comment lines (joined, then dropped) and the table. *)
Definition _read_block (fp : stream) (has_arg : bool)
  : raises (string * option string * pyval F * stream) :=
  do (line, fp) <- next fp;
  let target := Py.strip line in
  do (arg, fp) <- (if has_arg
                   then do (line, fp) <- next fp; ret (Some (Py.strip line), fp)
                   else ret (None, fp));
  let (lines, fp) := _read_until_sep fp in
  let comment := Py.join Py.nl lines in
  let (lines, fp) := _read_until_sep fp in
  do data <- loadtxt_tolist lines;
  ret (target, arg, data, fp).

(** [arg.split()] where [arg] may be [None]; every caller passes
    [has_arg=True] before it splits, so the [None] branch is unreachable. *)
Definition arg_split (arg : option string) : list string :=
  match arg with Some a => Py.split a | None => [] end.

(** [_read_momentum]: a MOMENTUM, ELASTIC or EFFECTIVE block. *)
Definition _read_momentum (fp : stream) : raises (process F * stream) :=
  do (target, arg, data, fp) <- _read_block fp true;
  do tok <- getitem (arg_split arg) 0;
  do mass_ratio <- float_of tok;
  let d : process F := {[ "target" := VStr target;
                        "mass_ratio" := VFloat mass_ratio;
                        "data" := data ]} in
  ret (d, fp).

(** [_read_excitation]: an EXCITATION or IONIZATION block. *)
Definition _read_excitation (fp : stream) : raises (process F * stream) :=
  do (target, arg, data, fp) <- _read_block fp true;
  do (lhs, rhs) <- match Py.strip <$> RE_ARROW_split target with
                   | [lhs; rhs] => ret (lhs, rhs)
                   | _ => raise ValueError
                   end;
  let d : process F := {[ "target" := VStr lhs;
                        "product" := VStr rhs;
                        "data" := data ]} in
  do (threshold, d) <-
    (if bool_decide ("<->" ∈ Py.split target)
     then do tok0 <- getitem (arg_split arg) 0;
          do threshold <- float_of tok0;
          do tok1 <- getitem (arg_split arg) 1;
          do weight_ratio <- float_of tok1;
          ret (threshold, <["weight_ratio" := VFloat weight_ratio]> d)
     else do tok0 <- getitem (arg_split arg) 0;
          do threshold <- float_of tok0;
          ret (threshold, d));
  ret (<["threshold" := VFloat threshold]> d, fp).

(** [_read_attachment]: an ATTACHMENT block. *)
Definition _read_attachment (fp : stream) : raises (process F * stream) :=
  do (target, arg, data, fp) <- _read_block fp false;
  let d : process F := {[ "data" := data; "threshold" := VFloat zero ]} in
  let lr := Py.strip <$> RE_ARROW_split target in
  match lr with
  | [l; r] => ret (<["product" := VStr r]> (<["target" := VStr l]> d), fp)
  | _ => ret (<["target" := VStr target]> d, fp)
  end.

Definition KEYWORDS : gmap string (reader F) :=
  {[ "MOMENTUM" := _read_momentum;
     "ELASTIC" := _read_momentum;
     "EFFECTIVE" := _read_momentum;
     "EXCITATION" := _read_excitation;
     "IONIZATION" := _read_excitation;
     "ATTACHMENT" := _read_attachment ]}.

(** The keys of [KEYWORDS]. *)
Definition keywords : list string :=
  ["MOMENTUM"; "ELASTIC"; "EFFECTIVE"; "EXCITATION"; "IONIZATION"; "ATTACHMENT"].

(** The keys that [KEYWORDS] sends to [_read_excitation]. *)
Definition excitation_keys : list string := ["EXCITATION"; "IONIZATION"].

(** *** [parse]

    One turn of [for line in fp] takes a line and, on a keyword, lets the
    reader take more lines from the same iterator.  [KeyError], raised by
    [KEYWORDS[key]] alone, is the only exception caught.  The loop counter
    [n] bounds the number of turns; [parse] starts it at the number of
    lines, which no run exceeds ([parse_loop_fuel] below). *)
Fixpoint parse_loop (n : nat) (fp : stream) (processes : list (process F))
  : raises (list (process F)) :=
  match n, fp with
  | S n', line :: fp' =>
      let key := Py.strip line in
      match KEYWORDS !! key with
      | Some fread =>
          do (d, fp'') <- fread fp';
          let d := <["kind" := VStr key]> d in
          parse_loop n' fp'' (processes ++ [d])
      | None => parse_loop n' fp' processes
      end
  | _, _ => ret processes
  end.

Definition parse (fp : stream) : raises (list (process F)) :=
  parse_loop (length fp) fp [].

End Parser.

Arguments float_of {F} float s.
Arguments convert_row {F} floatconv vals.
Arguments read_rows {F} floatconv N lines.
Arguments squeeze_tolist {F} rows.
Arguments loadtxt_tolist {F} floatconv lines.
Arguments bad_row {F} floatconv N line.
Arguments _read_block {F} floatconv fp has_arg.
Arguments arg_split arg : clear implicits.
Arguments _read_momentum {F} float floatconv fp.
Arguments _read_excitation {F} float floatconv fp.
Arguments _read_attachment {F} floatconv zero fp.
Arguments KEYWORDS {F} float floatconv zero.
Arguments parse_loop {F} float floatconv zero n fp processes.
Arguments parse {F} float floatconv zero fp.

(** ** The XML tree *)

(** The indentation table, as the source spells it: entry [n] holds [n]
    spaces up to 8; the entry of 9 spaces is absent, so entries 9 to 15
    hold [n + 1] spaces. *)
Definition indent : list string :=
  [ "";
    " ";
    "  ";
    "   ";
    "    ";
    "     ";
    "      ";
    "       ";
    "        ";
    "          ";
    "           ";
    "            ";
    "             ";
    "              ";
    "               ";
    "                " ].

(** An [XMLnode] owns its children, so the object graph under a root is a
    tree.  [_childmap] maps a tag to the position, in [_children], of the
    last child added under it. *)
#[warnings="-register-all"]
Inductive XMLnode : Type :=
  mkXMLnode (_name _value : string) (_attribs : gmap string string)
            (_children : list XMLnode) (_childmap : gmap string nat).

Definition _name (n : XMLnode) : string := let 'mkXMLnode x _ _ _ _ := n in x.
Definition _value (n : XMLnode) : string := let 'mkXMLnode _ x _ _ _ := n in x.
Definition _attribs (n : XMLnode) : gmap string string := let 'mkXMLnode _ _ x _ _ := n in x.
Definition _children (n : XMLnode) : list XMLnode := let 'mkXMLnode _ _ _ x _ := n in x.
Definition _childmap (n : XMLnode) : gmap string nat := let 'mkXMLnode _ _ _ _ x := n in x.

(** A reference to a node of the tree under construction is the path that
    leads to it from the root: the positions to follow in [_children]. *)
Definition ref : Type := list nat.

Fixpoint node_at (self : ref) (root : XMLnode) : option XMLnode :=
  match self with
  | [] => Some root
  | i :: self' => n ← _children root !! i; node_at self' n
  end.

Fixpoint update_at (self : ref) (f : XMLnode -> XMLnode) (root : XMLnode) : XMLnode :=
  match self with
  | [] => f root
  | i :: self' =>
      let 'mkXMLnode name value attribs children childmap := root in
      mkXMLnode name value attribs (alter (update_at self' f) i children) childmap
  end.

Section Xml.

Variable F : Type.
Variable repr : pyval F -> string.

(** [XMLnode.__init__]: a value that is no string is replaced by its
    [repr]; leading whitespace is stripped. *)
Definition XMLnode_init (name : string) (value : pyval F) : XMLnode :=
  let v := match value with
           | VStr s => Py.lstrip s
           | _ => Py.lstrip (repr value)
           end in
  mkXMLnode name v ∅ [] ∅.

(** [self.addChild(name, value)]: the new node is appended to the children
    of [self] and recorded in its [_childmap]; the reference to it is
    returned. *)
Definition addChild (root : XMLnode) (self : ref) (name : string) (value : pyval F)
  : XMLnode * ref :=
  let c := XMLnode_init name value in
  let i := match node_at self root with
           | Some n => length (_children n)
           | None => 0
           end in
  (update_at self
     (fun n => mkXMLnode (_name n) (_value n) (_attribs n)
                         (_children n ++ [c]) (<[name := i]> (_childmap n)))
     root,
   self ++ [i]).

(** [self.addComment(comment)] *)
Definition addComment (root : XMLnode) (self : ref) (comment : string) : XMLnode :=
  fst (addChild root self "_comment_" (VStr comment)).

(** [self[key] = value] *)
Definition setitem (root : XMLnode) (self : ref) (key value : string) : XMLnode :=
  update_at self
    (fun n => mkXMLnode (_name n) (_value n) (<[key := value]> (_attribs n))
                        (_children n) (_childmap n))
    root.

(** [self[key]] and [self.child(name)] *)
Definition getitem_attr (n : XMLnode) (key : string) : raises string :=
  getkey (_attribs n) key.

Definition child (n : XMLnode) (name : string) : raises XMLnode :=
  do i <- getkey (_childmap n) name;
  getitem (_children n) i.

End Xml.

Arguments XMLnode_init {F} repr name value.
Arguments addChild {F} repr root self name value.
Arguments addComment {F} repr root self comment.

(** *** Serialization

    [s] is the list of text fragments that [write] joins at the end. *)

(** [write_comment] *)
Definition write_comment (n : XMLnode) (s : list string) (level : nat)
  : raises (list string) :=
  do indnt <- getitem indent level;
  let s := s ++ [Py.nl +:+ indnt +:+ "<!--"] in
  let value := _value n in
  let value :=
    match value with
    | EmptyString => value
    | _ =>
        let value := if bool_decide (Py.first value ≠ Some " "%char)
                     then " " +:+ value else value in
        if bool_decide (Py.last value ≠ Some " "%char)
        then value +:+ " " else value
    end in
  ret (s ++ [value +:+ "-->"]).

(** The spaces [write_comment] puts around the value of a comment. *)
Definition lpad (v : string) : string :=
  if bool_decide (v <> "" /\ Py.first v <> Some " "%char) then " " else "".
Definition rpad (v : string) : string :=
  if bool_decide (v <> "" /\ Py.last v <> Some " "%char) then " " else "".

(** [write_attribs]: one fragment per attribute.  Python iterates the
    dictionary in an order of its own, which a finite map does not record:
    the fragments come here in the order of the keys of the map, and no
    statement below depends on the order of the attributes. *)
Definition write_attribs (n : XMLnode) (s : list string) : list string :=
  s ++ ((fun '(a, v) => " " +:+ a +:+ "=" +:+ Py.dquote +:+ v +:+ Py.dquote)
        <$> map_to_list (_attribs n)).

(** The [while True] loop of [write_value]; each turn removes at least the
    newline it found, so [S (length vv)] turns are enough. *)
Fixpoint write_value_loop (turns : nat) (vv indnt : string) (s : list string)
  : list string :=
  match turns with
  | O => s
  | S turns' =>
      match Py.find Py.nl vv with
      | Some ieol =>
          write_value_loop turns' (Py.lstrip (Py.drop (ieol + 1) vv)) indnt
            (s ++ [Py.nl +:+ "  "; indnt; Py.take ieol vv])
      | None => s ++ [Py.nl +:+ "  "; indnt; vv]
      end
  end.

(** [write_value] *)
Definition write_value (n : XMLnode) (s : list string) (level : nat)
  : raises (list string) :=
  do indnt <- getitem indent level;
  let vv := Py.lstrip (_value n) in
  match Py.find Py.nl vv with
  | Some _ => ret (write_value_loop (S (String.length vv)) vv indnt s)
  | None => ret (s ++ [_value n])
  end.

Definition nonempty (s : string) : bool :=
  match s with EmptyString => false | _ => true end.

(** [_write].  The test [if not self.name] reads the bound method [name],
    which is always true, so its [return] is never taken. *)
Fixpoint _write (n : XMLnode) (s : list string) (level : nat) {struct n}
  : raises (list string) :=
  if String.eqb (_name n) "_comment_" then write_comment n s level
  else
    do indnt <- getitem indent level;
    let s := s ++ [indnt; "<"; _name n] in
    let s := write_attribs n s in
    match n with
    | mkXMLnode _ _ _ children _ =>
        if negb (nonempty (_value n)) && negb (bool_decide (children ≠ []))
        then ret (s ++ ["/>"])
        else
          let s := s ++ [">"] in
          do s <- (if nonempty (_value n) then write_value n s level else ret s);
          do s <- (fix each (cs : list XMLnode) (s : list string) : raises (list string) :=
                     match cs with
                     | [] => ret s
                     | c :: cs' =>
                         do s <- _write c (s ++ [Py.nl]) (level + 2);
                         each cs' s
                     end) children s;
          let s := if bool_decide (children ≠ []) then s ++ [Py.nl; indnt] else s in
          ret (s ++ ["</"; _name n; ">"])
    end.

(** The loop [for c in self._children] of [_write], on its own. *)
Fixpoint _write_each (level : nat) (cs : list XMLnode) (s : list string)
  : raises (list string) :=
  match cs with
  | [] => ret s
  | c :: cs' => do s <- _write c (s ++ [Py.nl]) level; _write_each level cs' s
  end.

(** [write(filename)]: the text written to the file. *)
Definition write (n : XMLnode) : raises string :=
  let s := ["<?xml version=" +:+ Py.dquote +:+ "1.0" +:+ Py.dquote +:+ "?>" +:+ Py.nl] in
  do s <- _write n s 0;
  let s := s ++ [Py.nl] in
  ret (Py.join "" s).

(** ** [main] *)

Section Main.

Variable F : Type.
Variable float : string -> option F.
Variable floatconv : string -> option F.
Variable zero : F.
Variable repr : pyval F -> string.
Variable fmtE : F -> string.

(** A value used as a string; a dictionary built by [parse] never holds
    anything else where [main] needs one. *)
Definition as_str (v : pyval F) : raises string :=
  match v with VStr s => ret s | _ => raise TypeError end.

(** ['%10.6E ' % v] *)
Definition format_E (v : pyval F) : raises string :=
  match v with VFloat x => ret (fmtE x +:+ " ") | _ => raise TypeError end.

(** [j[k]] where [j] is a row of the table *)
Definition row_item (j : pyval F) (k : nat) : raises (pyval F) :=
  match j with
  | VList l => getitem l k
  | VStr s => match Py.drop k s with
              | String c _ => ret (VStr (String c EmptyString))
              | EmptyString => raise IndexError
              end
  | VFloat _ => raise TypeError
  end.

(** The loop [for j in p['data']] that builds the text of the table. *)
Fixpoint data_rows (js : list (pyval F)) (data : string) : raises string :=
  match js with
  | [] => ret data
  | j :: js' =>
      do j0 <- row_item j 0;
      do t0 <- format_E j0;
      let data := data +:+ t0 in
      do j1 <- row_item j 1;
      do t1 <- format_E j1;
      let data := data +:+ t1 in
      let data := data +:+ Py.nl in
      data_rows js' data
  end.

(** What [for j in v] iterates over. *)
Definition iterate (v : pyval F) : raises (list (pyval F)) :=
  match v with
  | VList l => ret l
  | VStr s => ret ((fun c => VStr (String c EmptyString)) <$> list_ascii_of_string s)
  | VFloat _ => raise TypeError
  end.

(** [s.find(sub) is not -1] *)
Definition found (sub s : string) : bool :=
  match Py.find sub s with Some _ => true | None => false end.

(** The body of the loop of [main] for the process [p] of index [i]. *)
Definition main_process (x : XMLnode) (i : nat) (p : process F) : raises XMLnode :=
  let (x, r) := addChild repr x [] "process" (VStr "") in
  let x := setitem x r "id" (pretty i) in
  do kind <- getkey p "kind";
  do kind <- as_str kind;
  let x := setitem x r "type" kind in
  do target <- getkey p "target";
  let x := fst (addChild repr x r "reactants" target) in
  do x <-
    (if found "EXCITATION" kind then
       do product <- getkey p "product";
       let x := fst (addChild repr x r "products" product) in
       do threshold <- getkey p "threshold";
       let x := fst (addChild repr x r "threshold" threshold) in
       match p !! "weight_ratio" with
       | Some weight_ratio =>
           let x := setitem x r "reversible" "yes" in
           ret (fst (addChild repr x r "weight_ratio" weight_ratio))
       | None => ret x
       end
     else if found "IONIZATION" kind then
       do product <- getkey p "product";
       let x := fst (addChild repr x r "products" product) in
       do threshold <- getkey p "threshold";
       ret (fst (addChild repr x r "threshold" threshold))
     else if found "ATTACHMENT" kind then
       do product <- getkey p "product";
       let x := fst (addChild repr x r "products" product) in
       do threshold <- getkey p "threshold";
       ret (fst (addChild repr x r "threshold" threshold))
     else
       do target <- getkey p "target";
       let x := fst (addChild repr x r "products" target) in
       do mass_ratio <- getkey p "mass_ratio";
       ret (fst (addChild repr x r "mass_ratio" mass_ratio)));
  do table <- getkey p "data";
  do js <- iterate table;
  do data <- data_rows js "";
  ret (fst (addChild repr x r "data" (VStr data))).

(** [for i, p in enumerate(processes)] *)
Fixpoint main_loop (x : XMLnode) (i : nat) (processes : list (process F))
  : raises XMLnode :=
  match processes with
  | [] => ret x
  | p :: processes' =>
      do x <- main_process x i p;
      main_loop x (S i) processes'
  end.

(** The tree [main] builds from the records. *)
Definition convert (processes : list (process F)) : raises XMLnode :=
  main_loop (XMLnode_init repr "ctml" (VStr "")) 0 processes.

(** [main], from the lines of the input file to the text of [lxcat.xml]. *)
Definition main (fp : stream) : raises string :=
  do processes <- parse float floatconv zero fp;
  do x <- convert processes;
  write x.

End Main.

Arguments as_str {F} v.
Arguments format_E {F} fmtE v.
Arguments row_item {F} j k.
Arguments data_rows {F} fmtE js data.
Arguments iterate {F} v.
Arguments main_process {F} repr fmtE x i p.
Arguments main_loop {F} repr fmtE x i processes.
Arguments convert {F} repr fmtE processes.
Arguments main {F} float floatconv zero repr fmtE fp.

(** ** Decimal literals

    A float instance to run the program on: the literals made of an
    optional sign, digits and at most one dot, read as exact rationals. *)
Module Dec.

Definition digit (c : ascii) : option Z :=
  let n := nat_of_ascii c in
  if (48 <=? n)%nat && (n <=? 57)%nat then Some (Z.of_nat (n - 48)) else None.

Fixpoint digits (s : string) (dot : bool) (num : Z) (den : positive) (k : nat)
  : option Q :=
  match s with
  | EmptyString => if (0 <? k)%nat then Some (Qred (num # den)) else None
  | String c s' =>
      if Ascii.eqb c "." then
        if dot then None else digits s' true num den k
      else match digit c with
           | Some d => digits s' dot (10 * num + d)%Z
                         (if dot then (10 * den)%positive else den) (S k)
           | None => None
           end
  end.

Definition float (s : string) : option Q :=
  match s with
  | String "-" s' => Qopp <$> digits s' false 0%Z 1%positive 0
  | _ => digits s false 0%Z 1%positive 0
  end.

Definition zero : Q := 0%Q.

(** Stand-ins for [repr] and ['%10.6E' %]: numerator and denominator. *)
Definition show (x : Q) : string := pretty (Qnum x) +:+ "/" +:+ pretty (Zpos (Qden x)).

Fixpoint repr (v : pyval Q) : string :=
  match v with
  | VStr s => "'" +:+ s +:+ "'"
  | VFloat x => show x
  | VList l => "[" +:+ String.concat ", " (map repr l) +:+ "]"
  end.

Definition parse := parse float float zero.
Definition main := main float float zero repr show.
Definition _read_excitation := _read_excitation float float.
Definition _read_attachment := _read_attachment float zero.
Definition convert := convert repr show.
Definition _read_momentum := _read_momentum float float.

End Dec.

(** ** Notions used in the statements *)

(** The keys that [KEYWORDS] sends to [_read_momentum]. *)
Definition momentum_keys : list string := ["MOMENTUM"; "ELASTIC"; "EFFECTIVE"].

(** The exceptions that leave [parse]. *)
Definition parse_errors : list exn := [StopIteration; ValueError; IndexError].

(** The result of a reader with the lines it left replaced by [fp]. *)
Definition with_rest {A} (r : raises (A * stream)) (fp : stream) : raises (A * stream) :=
  match r with
  | inl e => inl e
  | inr (a, _) => inr (a, fp)
  end.

(** The keys a record of kind [k] holds, and those it does not. *)
Definition record_ok {F} (zero : F) (k : string) (p : process F) : Prop :=
  p !! "kind" = Some (VStr k)
  /\ (exists t, p !! "target" = Some (VStr t))
  /\ is_Some (p !! "data")
  /\ (k ∈ momentum_keys ->
      (exists m, p !! "mass_ratio" = Some (VFloat m))
      /\ p !! "product" = None /\ p !! "threshold" = None
      /\ p !! "weight_ratio" = None)
  /\ (k ∈ excitation_keys ->
      (exists t, p !! "product" = Some (VStr t))
      /\ (exists x, p !! "threshold" = Some (VFloat x))
      /\ p !! "mass_ratio" = None)
  /\ (k = "ATTACHMENT" ->
      p !! "threshold" = Some (VFloat zero)
      /\ p !! "mass_ratio" = None /\ p !! "weight_ratio" = None).

(** The line [line] of a table holds the numbers [row], and nothing else. *)
Definition holds_row {F} (floatconv : string -> option F) (line : string)
    (row : list F) : Prop :=
  row <> [] /\ Forall2 (fun tok x => floatconv tok = Some x) (split_line line) row.

(** [self.nChildren()] *)
Definition nChildren (n : XMLnode) : nat := length (_children n).

(** The number of nested levels that [_write] descends below a node: a
    comment is written without its children. *)
Fixpoint depth (n : XMLnode) : nat :=
  match n with
  | mkXMLnode name _ _ children _ =>
      if String.eqb name "_comment_" then 0
      else (fix below (cs : list XMLnode) : nat :=
              match cs with
              | [] => 0
              | c :: cs' => Nat.max (S (depth c)) (below cs')
              end) children
  end.

(** Induction on a tree, with the property known of all the children. *)
Fixpoint XMLnode_forall_ind (P : XMLnode -> Prop)
    (H : forall name value attribs children childmap,
           Forall P children -> P (mkXMLnode name value attribs children childmap))
    (n : XMLnode) : P n :=
  match n with
  | mkXMLnode name value attribs children childmap =>
      H name value attribs children childmap
        ((fix all (cs : list XMLnode) : Forall P cs :=
            match cs with
            | [] => @List.Forall_nil _ P
            | c :: cs' => @List.Forall_cons _ P c cs' (XMLnode_forall_ind P H c) (all cs')
            end) children)
  end.

(** The first fragment of [write]. *)
Definition xml_declaration : string :=
  "<?xml version=" +:+ Py.dquote +:+ "1.0" +:+ Py.dquote +:+ "?>" +:+ Py.nl.

(** The fragments [write_value] emits for the lines [ls] of a value. *)
Definition value_fragments (indnt : string) (ls : list string) : list string :=
  concat ((fun l => [Py.nl +:+ "  "; indnt; l]) <$> ls).

(** [s.split('\n')] *)
Fixpoint split_nl (s : string) : list string :=
  match s with
  | EmptyString => [EmptyString]
  | String c s' =>
      if Ascii.eqb c "010" then EmptyString :: split_nl s'
      else match split_nl s' with
           | p :: ps => String c p :: ps
           | [] => [String c EmptyString]
           end
  end.

(** The lines written after the first, from the pieces that follow the first
    newline: a piece of whitespace only is dropped unless it is the last,
    the others lose their leading whitespace. *)
Fixpoint later_lines (ps : list string) : list string :=
  match ps with
  | [] => []
  | p :: ps' =>
      match ps' with
      | [] => [Py.lstrip p]
      | _ => match Py.lstrip p with
             | EmptyString => later_lines ps'
             | q => q :: later_lines ps'
             end
      end
  end.

(** The lines [write_value] writes for the value [vv]. *)
Definition written_lines (vv : string) : list string :=
  match split_nl vv with
  | p :: ps => p :: later_lines ps
  | [] => []
  end.

(** Lines made of free lines and of whole blocks: a keyword line, the
    target line, the argument line when the keyword has one, the comment, a
    separator, the table and a separator. *)
Inductive whole_blocks : stream -> Prop :=
  | whole_blocks_nil : whole_blocks []
  | whole_blocks_free line fp :
      Py.strip line ∉ keywords -> whole_blocks fp -> whole_blocks (line :: fp)
  | whole_blocks_block hdr tline arg comment sep1 data sep2 fp :
      Py.strip hdr ∈ keywords ->
      length arg = (if bool_decide (Py.strip hdr = "ATTACHMENT") then 0 else 1) ->
      Forall (fun l => RE_SEP_match (Py.strip l) = false) comment ->
      RE_SEP_match (Py.strip sep1) = true ->
      Forall (fun l => RE_SEP_match (Py.strip l) = false) data ->
      RE_SEP_match (Py.strip sep2) = true ->
      whole_blocks fp ->
      whole_blocks (hdr :: tline :: arg ++ comment ++ sep1 :: data ++ sep2 :: fp).

(** The node [x] after [x.addChild(name)] returned the node that is now [c]:
    [c] is the last child of [x], recorded under [name]. *)
Definition attach (x : XMLnode) (name : string) (c : XMLnode) : XMLnode :=
  mkXMLnode (_name x) (_value x) (_attribs x) (_children x ++ [c])
            (<[name := length (_children x)]> (_childmap x)).

(** The tags of the children of a [process] element, by kind: [reversible]
    tells whether the record has a weight ratio. *)
Definition process_children (kind : string) (reversible : bool) : list string :=
  if found "EXCITATION" kind then
    if reversible then ["reactants"; "products"; "threshold"; "weight_ratio"; "data"]
    else ["reactants"; "products"; "threshold"; "data"]
  else if found "IONIZATION" kind || found "ATTACHMENT" kind then
    ["reactants"; "products"; "threshold"; "data"]
  else ["reactants"; "products"; "mass_ratio"; "data"].

(** What [main] makes of the record [p] of index [i]: the element [c]. *)
Definition process_of {F} (repr : pyval F -> string) (i : nat) (p : process F)
    (c : XMLnode) : Prop :=
  exists kind target,
    p !! "kind" = Some (VStr kind)
    /\ p !! "target" = Some target
    /\ _name c = "process" /\ _value c = ""
    /\ _attribs c !! "id" = Some (pretty i)
    /\ _attribs c !! "type" = Some kind
    /\ (_attribs c !! "reversible" = Some "yes"
        <-> found "EXCITATION" kind = true /\ is_Some (p !! "weight_ratio"))
    /\ _name <$> _children c
       = process_children kind (bool_decide (is_Some (p !! "weight_ratio")))
    /\ head (_children c) = Some (XMLnode_init repr "reactants" target)
    /\ (found "EXCITATION" kind = false -> found "IONIZATION" kind = false ->
        found "ATTACHMENT" kind = false ->
        _children c !! 1 = Some (XMLnode_init repr "products" target))
    /\ Forall (fun k => _children k = []) (_children c).

(** A row of a table that [main] can format: two floats at least. *)
Definition is_row {F} (j : pyval F) : Prop :=
  exists x y rest, j = VList (VFloat x :: VFloat y :: rest).

(** A record that [main] can render. *)
Definition renderable {F} (p : process F) : Prop :=
  exists kind js,
    p !! "kind" = Some (VStr kind)
    /\ is_Some (p !! "target")
    /\ p !! "data" = Some (VList js) /\ Forall is_row js
    /\ (if found "EXCITATION" kind || found "IONIZATION" kind
           || found "ATTACHMENT" kind
        then is_Some (p !! "product") /\ is_Some (p !! "threshold")
        else is_Some (p !! "mass_ratio")).

(** ** Sample inputs *)

(** A file with some free text, a reversible excitation and an attachment. *)
Definition two_blocks : stream :=
  [ "LXCat sample";
    "EXCITATION"; "N2 <-> N2(rot)"; " 0.02  3 "; "a comment"; "-----";
    "0.0 1.0"; "1.0 0.5"; "-----";
    "";
    "ATTACHMENT"; "O2 -> O + O-"; "-----"; "0.0 0.0"; "3 4"; "-----" ].

(** The tree [a] with a child [b] that has a child [c], built as a caller
    of the class would build it. *)
Definition a_b_c : XMLnode :=
  let x := XMLnode_init Dec.repr "a" (VStr "") in
  let (x, r) := addChild Dec.repr x [] "b" (VStr "") in
  fst (addChild Dec.repr x r "c" (VStr "")).

(** The record [parse] makes of the excitation block of [two_blocks]. *)
Definition rotational_record : process Q :=
  {[ "kind" := VStr "EXCITATION"; "target" := VStr "N2"; "product" := VStr "N2(rot)";
     "threshold" := VFloat (1 # 50)%Q; "weight_ratio" := VFloat 3%Q;
     "data" := VList [VList [VFloat 0%Q; VFloat 1%Q];
                      VList [VFloat 1%Q; VFloat (1 # 2)%Q]] ]}.

(** An elastic block. *)
Definition elastic_block : stream :=
  [ "ELASTIC"; "Ar"; " 0.5 / mass ratio"; "a comment"; "-----";
    "0.0 1.0"; "1.0 0.5"; "-----" ].

(** An attachment block. *)
Definition attachment_block : stream :=
  [ "ATTACHMENT"; "O2 -> O + O-"; "-----"; "0.0 0.0"; "3 4"; "-----" ].

(** The records [parse] makes of the two blocks. *)
Definition elastic_record : process Q :=
  {[ "kind" := VStr "ELASTIC"; "target" := VStr "Ar";
     "mass_ratio" := VFloat (1 # 2)%Q;
     "data" := VList [VList [VFloat 0%Q; VFloat 1%Q];
                      VList [VFloat 1%Q; VFloat (1 # 2)%Q]] ]}.

Definition attachment_record_of_block : process Q :=
  {[ "kind" := VStr "ATTACHMENT"; "target" := VStr "O2"; "product" := VStr "O + O-";
     "threshold" := VFloat 0%Q;
     "data" := VList [VList [VFloat 0%Q; VFloat 0%Q];
                      VList [VFloat 3%Q; VFloat 4%Q]] ]}.

(** A chain of [k] elements around a leaf. *)
Fixpoint nest (k : nat) : XMLnode :=
  match k with
  | O => mkXMLnode "leaf" "" ∅ [] ∅
  | S k' => mkXMLnode "level" "" ∅ [nest k'] {[ _name (nest k') := 0 ]}
  end.

(** An element whose value has two lines and a blank one between them. *)
Definition two_lines : XMLnode :=
  mkXMLnode "data" ("1 2 " +:+ Py.nl +:+ "  " +:+ Py.nl +:+ "  3 4 " +:+ Py.nl) ∅ [] ∅.

(** The tree [main] builds from [elastic_record]. *)
Definition elastic_document : XMLnode :=
  mkXMLnode "ctml" "" ∅
    [ mkXMLnode "process" "" {[ "id" := "0"; "type" := "ELASTIC" ]}
        [ mkXMLnode "reactants" "Ar" ∅ [] ∅;
          mkXMLnode "products" "Ar" ∅ [] ∅;
          mkXMLnode "mass_ratio" "1/2" ∅ [] ∅;
          mkXMLnode "data" ("0/1 1/1 " +:+ Py.nl +:+ "1/1 1/2 " +:+ Py.nl) ∅ [] ∅ ]
        {[ "reactants" := 0; "products" := 1; "mass_ratio" := 2; "data" := 3 ]} ]
    {[ "process" := 0 ]}.

(** The record of a block whose table has one row. *)
Definition flat_record : process Q :=
  {[ "kind" := VStr "MOMENTUM"; "target" := VStr "Ar";
     "mass_ratio" := VFloat (1 # 2)%Q;
     "data" := VList [VFloat 0%Q; VFloat 1%Q] ]}.

(** Decides a closed decidable proposition by evaluation. *)
Ltac by_compute := apply (bool_decide_unpack _); vm_compute; exact I.

(** * Properties *)

(** ** The regular expressions *)

Lemma RE_ARROW_split_cons c s1 :
  RE_ARROW_split (String c s1) =
  match arrow_at (String c s1) with
  | Some rest => "" :: RE_ARROW_split rest
  | None => match RE_ARROW_split s1 with
            | p :: ps => String c p :: ps
            | [] => [String c ""]
            end
  end.
Proof.
  destruct s1 as [|c1 [|c2 s3]]; cbn [RE_ARROW_split arrow_at];
    repeat (match goal with |- context [if ?b then _ else _] => destruct b end);
    reflexivity.
Qed.

Lemma RE_ARROW_count_cons c s1 :
  RE_ARROW_count (String c s1) =
  match arrow_at (String c s1) with
  | Some rest => S (RE_ARROW_count rest)
  | None => RE_ARROW_count s1
  end.
Proof.
  destruct s1 as [|c1 [|c2 s3]]; cbn [RE_ARROW_count arrow_at];
    repeat (match goal with |- context [if ?b then _ else _] => destruct b end);
    reflexivity.
Qed.

Lemma arrow_at_Some s rest :
  arrow_at s = Some rest <-> s = "->" +:+ rest \/ s = "<->" +:+ rest.
Proof.
  split.
  - destruct s as [|c [|c1 s2]]; cbn; try discriminate.
    destruct (Ascii.eqb c "-" && Ascii.eqb c1 ">") eqn:E.
    + apply andb_prop in E as [->%Ascii.eqb_eq ->%Ascii.eqb_eq].
      intros [= ->]. by left.
    + destruct s2 as [|c2 s3]; try discriminate.
      destruct (Ascii.eqb c "<" && Ascii.eqb c1 "-" && Ascii.eqb c2 ">") eqn:E'; try discriminate.
      apply andb_prop in E' as [[->%Ascii.eqb_eq ->%Ascii.eqb_eq]%andb_prop ->%Ascii.eqb_eq].
      intros [= ->]. by right.
  - intros [-> | ->]; reflexivity.
Qed.

Lemma string_length_ind (P : string -> Prop) :
  (forall s, (forall t, String.length t < String.length s -> P t) -> P s) ->
  forall s, P s.
Proof.
  intros H s. remember (String.length s) as n eqn:E.
  revert s E. induction (lt_wf n) as [n _ IH]. intros s ->.
  apply H. intros t Ht. by apply (IH _ Ht).
Qed.

Lemma arrow_at_length s rest :
  arrow_at s = Some rest -> String.length rest < String.length s.
Proof. intros [-> | ->]%arrow_at_Some; simpl; lia. Qed.

Lemma RE_ARROW_split_length s :
  length (RE_ARROW_split s) = S (RE_ARROW_count s).
Proof.
  induction s as [s IH] using string_length_ind.
  destruct s as [|c s1]; [done|].
  rewrite RE_ARROW_split_cons, RE_ARROW_count_cons.
  destruct (arrow_at (String c s1)) as [rest|] eqn:E.
  - cbn. f_equal. apply IH. by apply arrow_at_length.
  - specialize (IH s1 ltac:(cbn; lia)).
    destruct (RE_ARROW_split s1); cbn in *; lia.
Qed.

Lemma RE_ARROW_split_no_arrow s :
  RE_ARROW_count s = 0 -> RE_ARROW_split s = [s].
Proof.
  induction s as [|c s1 IH]; [done|].
  rewrite RE_ARROW_split_cons, RE_ARROW_count_cons.
  destruct (arrow_at (String c s1)); [done|].
  intros H. by rewrite (IH H).
Qed.

Lemma arrow_at_app_None c p t :
  arrow_at (String c (p +:+ t)) = None -> arrow_at (String c p) = None.
Proof.
  intros H. destruct (arrow_at (String c p)) as [rest|] eqn:E; [|done].
  apply arrow_at_Some in E.
  assert (arrow_at (String c (p +:+ t)) = Some (rest +:+ t)) as H'; [|congruence].
  apply arrow_at_Some.
  destruct E as [E|E]; simpl in E; injection E as -> ->; [left|right]; reflexivity.
Qed.

Lemma RE_ARROW_split_two s l r :
  RE_ARROW_split s = [l; r] ->
  (s = l +:+ "->" +:+ r \/ s = l +:+ "<->" +:+ r)
  /\ RE_ARROW_count l = 0 /\ RE_ARROW_count r = 0.
Proof.
  revert l. induction s as [|c s1 IH]; intros l; [done|].
  rewrite RE_ARROW_split_cons.
  destruct (arrow_at (String c s1)) as [rest|] eqn:E.
  - intros [= <- H].
    assert (RE_ARROW_count rest = 0) as Hc.
    { pose proof (RE_ARROW_split_length rest) as HL. rewrite H in HL. cbn in HL. lia. }
    rewrite (RE_ARROW_split_no_arrow _ Hc) in H. injection H as <-.
    apply arrow_at_Some in E. simpl. auto.
  - destruct (RE_ARROW_split s1) as [|p ps] eqn:Es; [done|].
    intros [= <- ->].
    destruct (IH p eq_refl) as (Hs & Hp & Hr).
    split; [|split; [|done]].
    + simpl. destruct Hs as [-> | ->]; auto.
    + rewrite RE_ARROW_count_cons.
      destruct Hs as [-> | ->]; by rewrite (arrow_at_app_None _ _ _ E).
Qed.

Lemma RE_ARROW_count_0_cons c s :
  RE_ARROW_count (String c s) = 0 ->
  arrow_at (String c s) = None /\ RE_ARROW_count s = 0.
Proof.
  rewrite RE_ARROW_count_cons. by destruct (arrow_at (String c s)).
Qed.

Ltac eqb_cases :=
  repeat match goal with
    | |- context [Ascii.eqb ?a ?b] => destruct (Ascii.eqb_spec a b); subst
    | H : context [Ascii.eqb ?a ?b] |- _ => destruct (Ascii.eqb_spec a b); subst
    end; simpl in *; try congruence.

Lemma arrow_at_two_way c l r :
  arrow_at (String c l) = None ->
  arrow_at (String c (l +:+ "<->" +:+ r)) = None.
Proof.
  destruct l as [|c1 [|c2 l3]]; simpl; intros H; eqb_cases.
Qed.

Lemma arrow_at_one_way c l r :
  arrow_at (String c l) = None ->
  Py.last (String c l) <> Some "<"%char ->
  arrow_at (String c (l +:+ "->" +:+ r)) = None.
Proof.
  destruct l as [|c1 [|c2 l3]]; simpl; intros H HL; eqb_cases.
Qed.

Lemma RE_ARROW_split_two_way l r :
  RE_ARROW_count l = 0 -> RE_ARROW_count r = 0 ->
  RE_ARROW_split (l +:+ "<->" +:+ r) = [l; r].
Proof.
  intros Hl Hr. induction l as [|c l IH].
  - simpl. by rewrite (RE_ARROW_split_no_arrow _ Hr).
  - apply RE_ARROW_count_0_cons in Hl as [Ha Hl].
    change (String c l +:+ "<->" +:+ r) with (String c (l +:+ "<->" +:+ r)).
    rewrite RE_ARROW_split_cons, (arrow_at_two_way _ _ _ Ha), (IH Hl). done.
Qed.

Lemma RE_ARROW_split_one_way l r :
  RE_ARROW_count l = 0 -> RE_ARROW_count r = 0 ->
  Py.last l <> Some "<"%char ->
  RE_ARROW_split (l +:+ "->" +:+ r) = [l; r].
Proof.
  intros Hl Hr HL. induction l as [|c l IH].
  - simpl. by rewrite (RE_ARROW_split_no_arrow _ Hr).
  - apply RE_ARROW_count_0_cons in Hl as [Ha Hl].
    change (String c l +:+ "->" +:+ r) with (String c (l +:+ "->" +:+ r)).
    rewrite RE_ARROW_split_cons, (arrow_at_one_way _ _ _ Ha HL).
    destruct l as [|c1 l1].
    + simpl. by rewrite (RE_ARROW_split_no_arrow _ Hr).
    + rewrite IH; [done|done|]. exact HL.
Qed.

Lemma last_snoc l c : Py.last l = Some c -> exists l', l = l' +:+ String c "".
Proof.
  induction l as [|a l IH]; [done|].
  destruct l as [|b l].
  - intros [= ->]. by exists "".
  - intros H. destruct (IH H) as [l' ->]. by exists (String a l').
Qed.

Lemma RE_ARROW_count_prefix a b : RE_ARROW_count (a +:+ b) = 0 -> RE_ARROW_count a = 0.
Proof.
  induction a as [|c a IH]; [done|].
  change (String c a +:+ b) with (String c (a +:+ b)).
  intros [Ha Hc]%RE_ARROW_count_0_cons.
  rewrite RE_ARROW_count_cons, (arrow_at_app_None _ _ _ Ha). by apply IH.
Qed.

Lemma snoc_append l c t : (l +:+ String c "") +:+ t = l +:+ String c t.
Proof. induction l as [|a l IH]; simpl; [done|]. by rewrite IH. Qed.

Lemma append_snoc_ne l c : l +:+ String c "" <> l.
Proof. induction l as [|a l IH]; simpl; [done|]. by intros [= H]. Qed.

(** The cut of [RE_ARROW.split], when there is one, is at the leftmost
    arrow: a [->] is not preceded by [<]. *)
Lemma RE_ARROW_split_cut s l r :
  RE_ARROW_split s = [l; r] ->
  (s = l +:+ "<->" +:+ r \/ s = l +:+ "->" +:+ r /\ Py.last l <> Some "<"%char)
  /\ RE_ARROW_count l = 0 /\ RE_ARROW_count r = 0.
Proof.
  intros Hs. destruct (RE_ARROW_split_two _ _ _ Hs) as ([E|E] & Hl & Hr);
    (split; [|done]); [|by left].
  right. split; [done|]. intros HL.
  destruct (last_snoc _ _ HL) as [l' ->].
  rewrite E, snoc_append in Hs.
  change (String "<" ("->" +:+ r)) with ("<->" +:+ r) in Hs.
  rewrite (RE_ARROW_split_two_way l' r (RE_ARROW_count_prefix _ _ Hl) Hr) in Hs.
  injection Hs as Hs. symmetry in Hs. by apply append_snoc_ne in Hs.
Qed.

Lemma RE_ARROW_split_of_cut s l r :
  RE_ARROW_count l = 0 -> RE_ARROW_count r = 0 ->
  s = l +:+ "<->" +:+ r \/ s = l +:+ "->" +:+ r /\ Py.last l <> Some "<"%char ->
  RE_ARROW_split s = [l; r].
Proof.
  intros Hl Hr [->|[-> HL]];
    [by apply RE_ARROW_split_two_way|by apply RE_ARROW_split_one_way].
Qed.

Lemma RE_SEP_match_spec s :
  RE_SEP_match s = true <-> exists rest, s = "-----" +:+ rest.
Proof.
  split.
  - destruct s as [|c0 [|c1 [|c2 [|c3 [|c4 rest]]]]]; simpl; try discriminate.
    intros H. eqb_cases. by exists rest.
  - intros [rest ->]. reflexivity.
Qed.

(** ** The stream readers and [parse] *)

Lemma _read_until_sep_suffix fp : snd (_read_until_sep fp) `suffix_of` fp.
Proof.
  induction fp as [|line fp IH]; simpl; [done|].
  destruct (RE_SEP_match (Py.strip line)); simpl.
  - by apply suffix_cons_r.
  - destruct (_read_until_sep fp); simpl in *. by apply suffix_cons_r.
Qed.

Lemma block_rest_suffix fp : block_rest fp `suffix_of` fp.
Proof.
  unfold block_rest. etrans; apply _read_until_sep_suffix.
Qed.

Lemma _read_until_sep_app pre line fp :
  Forall (fun l => RE_SEP_match (Py.strip l) = false) pre ->
  RE_SEP_match (Py.strip line) = true ->
  _read_until_sep (pre ++ line :: fp) = (Py.strip <$> pre, fp).
Proof.
  intros Hpre Hline. induction Hpre as [|l pre Hl _ IH]; simpl.
  - by rewrite Hline.
  - by rewrite Hl, IH.
Qed.

Lemma _read_until_sep_app_fst data rest :
  Forall (fun l => RE_SEP_match (Py.strip l) = false) data ->
  fst (_read_until_sep (data ++ rest))
  = (Py.strip <$> data) ++ fst (_read_until_sep rest).
Proof.
  induction 1 as [|l data Hl _ IH]; simpl; [done|].
  rewrite Hl. destruct (_read_until_sep (data ++ rest)). simpl in *. by rewrite IH.
Qed.

Lemma bind_inr {A B} (m : raises A) (k : A -> raises B) b :
  bind m k = inr b -> exists a, m = inr a /\ k a = inr b.
Proof. destruct m as [e|a]; simpl; [done|eauto]. Qed.

Lemma bind_inl {A B} (m : raises A) (k : A -> raises B) e :
  m = inl e -> bind m k = inl e.
Proof. by intros ->. Qed.

Section ParserFacts.
Context {F : Type} (float floatconv : string -> option F) (zero : F).

Lemma _read_block_true tline aline fp :
  _read_block floatconv (tline :: aline :: fp) true =
  (do data <- loadtxt_tolist floatconv (block_lines fp);
   ret (Py.strip tline, Some (Py.strip aline), data, block_rest fp)).
Proof.
  unfold _read_block, block_lines, block_rest. simpl.
  destruct (_read_until_sep fp) as [c fp1]; simpl.
  destruct (_read_until_sep fp1) as [ls fp2]; simpl. done.
Qed.

Lemma _read_block_false tline fp :
  _read_block floatconv (tline :: fp) false =
  (do data <- loadtxt_tolist floatconv (block_lines fp);
   ret (Py.strip tline, None, data, block_rest fp)).
Proof.
  unfold _read_block, block_lines, block_rest. simpl.
  destruct (_read_until_sep fp) as [c fp1]; simpl.
  destruct (_read_until_sep fp1) as [ls fp2]; simpl. done.
Qed.

Lemma _read_block_suffix fp has_arg target arg data fp' :
  _read_block floatconv fp has_arg = inr (target, arg, data, fp') ->
  fp' `suffix_of` fp.
Proof.
  destruct fp as [|tline fp]; [done|]. destruct has_arg.
  - destruct fp as [|aline fp]; [done|]. rewrite _read_block_true.
    destruct (loadtxt_tolist _ _); simpl; [done|]. intros [= _ _ _ <-].
    do 2 apply suffix_cons_r. apply block_rest_suffix.
  - rewrite _read_block_false.
    destruct (loadtxt_tolist _ _); simpl; [done|]. intros [= _ _ _ <-].
    apply suffix_cons_r. apply block_rest_suffix.
Qed.

Lemma KEYWORDS_momentum : KEYWORDS float floatconv zero !! "MOMENTUM" = Some (_read_momentum float floatconv).
Proof. reflexivity. Qed.
Lemma KEYWORDS_attachment : KEYWORDS float floatconv zero !! "ATTACHMENT" = Some (_read_attachment floatconv zero).
Proof. reflexivity. Qed.

Lemma KEYWORDS_None key :
  key ∉ keywords -> KEYWORDS float floatconv zero !! key = None.
Proof.
  intros Hn. unfold KEYWORDS.
  rewrite !lookup_insert_ne by (intros <-; apply Hn; unfold keywords; set_solver).
  apply lookup_singleton_ne. intros <-; apply Hn; unfold keywords; set_solver.
Qed.

Lemma KEYWORDS_Some key :
  key ∈ keywords ->
  KEYWORDS float floatconv zero !! key =
  Some (if bool_decide (key ∈ ["MOMENTUM"; "ELASTIC"; "EFFECTIVE"])
        then _read_momentum float floatconv
        else if bool_decide (key = "ATTACHMENT")
             then _read_attachment floatconv zero
             else _read_excitation float floatconv).
Proof.
  unfold keywords. rewrite !elem_of_cons, elem_of_nil.
  intros [->|[->|[->|[->|[->|[->|[]]]]]]]; reflexivity.
Qed.

Lemma KEYWORDS_is_Some key :
  is_Some (KEYWORDS float floatconv zero !! key) <-> key ∈ keywords.
Proof.
  split.
  - intros [fread H]. destruct (decide (key ∈ keywords)) as [|Hn]; [done|].
    pose proof (KEYWORDS_None _ Hn) as E. congruence.
  - intros H. eexists. exact (KEYWORDS_Some _ H).
Qed.

Lemma _read_momentum_suffix fp d fp' :
  _read_momentum float floatconv fp = inr (d, fp') -> fp' `suffix_of` fp.
Proof.
  unfold _read_momentum. intros ([[[target arg] data] fp1] & Hb & H)%bind_inr.
  apply bind_inr in H as (tok & _ & H). apply bind_inr in H as (m & _ & H).
  injection H as _ <-. eapply _read_block_suffix, Hb.
Qed.

Lemma _read_excitation_suffix fp d fp' :
  _read_excitation float floatconv fp = inr (d, fp') -> fp' `suffix_of` fp.
Proof.
  unfold _read_excitation. intros ([[[target arg] data] fp1] & Hb & H)%bind_inr.
  apply bind_inr in H as ([lhs rhs] & _ & H). apply bind_inr in H as ([th d'] & _ & H).
  injection H as _ <-. eapply _read_block_suffix, Hb.
Qed.

Lemma _read_attachment_suffix fp d fp' :
  _read_attachment floatconv zero fp = inr (d, fp') -> fp' `suffix_of` fp.
Proof.
  unfold _read_attachment. intros ([[[target arg] data] fp1] & Hb & H)%bind_inr.
  assert (fp' = fp1) as ->.
  { destruct (Py.strip <$> RE_ARROW_split target) as [|? [|? [|? ?]]]; by injection H. }
  eapply _read_block_suffix, Hb.
Qed.

Lemma reader_suffix key (fread : reader F) fp d fp' :
  KEYWORDS float floatconv zero !! key = Some fread ->
  fread fp = inr (d, fp') -> fp' `suffix_of` fp.
Proof.
  intros Hk. assert (key ∈ keywords) as Hin by (apply KEYWORDS_is_Some; eauto).
  pose proof (KEYWORDS_Some _ Hin) as E. rewrite Hk in E. injection E as ->.
  repeat case_bool_decide; eauto using _read_momentum_suffix, _read_excitation_suffix, _read_attachment_suffix.
Qed.

Lemma parse_loop_fuel n m fp acc :
  length fp <= n -> length fp <= m ->
  parse_loop float floatconv zero n fp acc = parse_loop float floatconv zero m fp acc.
Proof.
  revert m fp acc. induction n as [|n IH]; intros m fp acc Hn Hm.
  - destruct fp; [|simpl in Hn; lia]. by destruct m.
  - destruct fp as [|line fp]; [by destruct m|].
    destruct m as [|m]; [simpl in Hm; lia|]. simpl in *.
    destruct (KEYWORDS float floatconv zero !! Py.strip line) as [fread|] eqn:Hk.
    + destruct (fread fp) as [e|[d fp'']] eqn:Hr; simpl; [done|].
      pose proof (suffix_length _ _ (reader_suffix _ _ _ _ _ Hk Hr)) as HL.
      apply IH; lia.
    + apply IH; lia.
Qed.

Lemma parse_loop_acc n fp acc :
  parse_loop float floatconv zero n fp acc =
  (do ps <- parse_loop float floatconv zero n fp []; ret (acc ++ ps)).
Proof.
  revert fp acc. induction n as [|n IH]; intros fp acc.
  - simpl. by rewrite app_nil_r.
  - destruct fp as [|line fp]; simpl; [by rewrite app_nil_r|].
    destruct (KEYWORDS float floatconv zero !! Py.strip line) as [fread|]; [|apply IH].
    destruct (fread fp) as [e|[d fp'']]; simpl; [done|].
    rewrite IH, (IH _ [_]).
    destruct (parse_loop float floatconv zero n fp'' []); simpl; [done|].
    by rewrite <- app_assoc.
Qed.

(** The equations of [parse]: what one line does. *)
Lemma parse_nil : parse float floatconv zero [] = ret [].
Proof. reflexivity. Qed.

Lemma parse_skip line fp :
  KEYWORDS float floatconv zero !! Py.strip line = None ->
  parse float floatconv zero (line :: fp) = parse float floatconv zero fp.
Proof.
  intros Hk. unfold parse. cbn [length parse_loop]. by rewrite Hk.
Qed.

Lemma parse_fail line (fread : reader F) fp e :
  KEYWORDS float floatconv zero !! Py.strip line = Some fread ->
  fread fp = inl e ->
  parse float floatconv zero (line :: fp) = inl e.
Proof.
  intros Hk Hr. unfold parse. cbn [length parse_loop]. by rewrite Hk, Hr.
Qed.

Lemma parse_block line (fread : reader F) fp d fp' :
  KEYWORDS float floatconv zero !! Py.strip line = Some fread ->
  fread fp = inr (d, fp') ->
  parse float floatconv zero (line :: fp) =
  (do ps <- parse float floatconv zero fp';
   ret (<["kind" := VStr (Py.strip line)]> d :: ps)).
Proof.
  intros Hk Hr. unfold parse. cbn [length parse_loop]. rewrite Hk, Hr. cbn [bind app].
  pose proof (suffix_length _ _ (reader_suffix _ _ _ _ _ Hk Hr)) as HL.
  rewrite (parse_loop_fuel _ (length fp')) by lia.
  by rewrite parse_loop_acc.
Qed.

Lemma parse_skip_all pre fp :
  Forall (fun l => Py.strip l ∉ keywords) pre ->
  parse float floatconv zero (pre ++ fp) = parse float floatconv zero fp.
Proof.
  induction 1 as [|l pre Hl _ IH]; [done|]. simpl.
  rewrite parse_skip; [done|]. by apply KEYWORDS_None.
Qed.

Lemma suffix_sublist {A} (l1 l2 : list A) : l1 `suffix_of` l2 -> l1 `sublist_of` l2.
Proof. intros [k ->]. induction k; simpl; [done|]. by constructor. Qed.

Lemma parse_kinds fp ps :
  parse float floatconv zero fp = inr ps ->
  exists ks : list string,
    Forall2 (fun (p : process F) k => p !! "kind" = Some (VStr k)) ps ks
    /\ Forall (fun k => k ∈ keywords) ks
    /\ ks `sublist_of` (Py.strip <$> fp).
Proof.
  remember (length fp) as n eqn:En. assert (length fp <= n) as Hn by lia. clear En.
  revert fp ps Hn. induction n as [|n IH]; intros fp ps Hn.
  - destruct fp; [|simpl in Hn; lia]. intros [= <-]. exists []. by repeat constructor.
  - destruct fp as [|line fp].
    { intros [= <-]. exists []. by repeat constructor. }
    simpl in Hn.
    destruct (KEYWORDS float floatconv zero !! Py.strip line) as [fread|] eqn:Hk.
    + destruct (fread fp) as [e|[d fp']] eqn:Hr.
      { rewrite (parse_fail _ _ _ _ Hk Hr). done. }
      rewrite (parse_block _ _ _ _ _ Hk Hr).
      intros (ps' & Hp & [= <-])%bind_inr.
      pose proof (reader_suffix _ _ _ _ _ Hk Hr) as Hs.
      destruct (IH fp' ps') as (ks & H1 & H2 & H3); [|done|].
      { apply suffix_length in Hs. lia. }
      exists (Py.strip line :: ks). split; [|split].
      * constructor; [|done]. apply lookup_insert_eq.
      * constructor; [|done]. apply KEYWORDS_is_Some. eauto.
      * rewrite fmap_cons. apply sublist_skip. etrans; [done|].
        apply fmap_sublist, suffix_sublist, Hs.
    + rewrite (parse_skip _ _ Hk). intros Hp.
      destruct (IH fp ps) as (ks & H1 & H2 & H3); [lia|done|].
      exists ks. split; [done|split; [done|]].
      rewrite fmap_cons. by apply sublist_cons.
Qed.

End ParserFacts.

(** ** The block readers *)

Section ReaderFacts.
Context {F : Type} (float floatconv : string -> option F) (zero : F).

Lemma float_of_inr tok x : float_of float tok = inr x -> float tok = Some x.
Proof. unfold float_of. destruct (float tok); [by intros [= ->]|done]. Qed.

Lemma getitem_inr {A} (l : list A) i a : getitem l i = inr a -> l !! i = Some a.
Proof. unfold getitem. destruct (l !! i); [by intros [= ->]|done]. Qed.

Lemma strip_split_two target lhs rhs :
  Py.strip <$> RE_ARROW_split target = [lhs; rhs] ->
  exists l r, RE_ARROW_split target = [l; r] /\ lhs = Py.strip l /\ rhs = Py.strip r.
Proof.
  destruct (RE_ARROW_split target) as [|l [|r [|? ?]]]; try done.
  intros [= <- <-]. eauto.
Qed.

(** What a successful [_read_excitation] has read. *)
Lemma _read_excitation_inv fp d fp' :
  _read_excitation float floatconv fp = inr (d, fp') ->
  exists tline aline rest data l r tok0 threshold,
    fp = tline :: aline :: rest
    /\ loadtxt_tolist floatconv (block_lines rest) = inr data
    /\ fp' = block_rest rest
    /\ RE_ARROW_split (Py.strip tline) = [l; r]
    /\ Py.split (Py.strip aline) !! 0 = Some tok0
    /\ float tok0 = Some threshold
    /\ ((exists tok1 weight_ratio,
           Py.split (Py.strip aline) !! 1 = Some tok1
           /\ float tok1 = Some weight_ratio
           /\ d = <["threshold" := VFloat threshold]>
                    (<["weight_ratio" := VFloat weight_ratio]>
                       {[ "target" := VStr (Py.strip l);
                          "product" := VStr (Py.strip r);
                          "data" := data ]}))
         /\ "<->" ∈ Py.split (Py.strip tline)
        \/ d = <["threshold" := VFloat threshold]>
                 {[ "target" := VStr (Py.strip l);
                    "product" := VStr (Py.strip r);
                    "data" := data ]}
           /\ "<->" ∉ Py.split (Py.strip tline)).
Proof.
  unfold _read_excitation. intros ([[[target arg] data] fp1] & Hb & H)%bind_inr.
  destruct fp as [|tline [|aline rest]]; try done.
  rewrite _read_block_true in Hb.
  apply bind_inr in Hb as (data' & Hd & [= <- <- <- <-]).
  apply bind_inr in H as ([lhs rhs] & Hs & H).
  assert (Py.strip <$> RE_ARROW_split (Py.strip tline) = [lhs; rhs]) as Hs'.
  { destruct (Py.strip <$> RE_ARROW_split (Py.strip tline)) as [|? [|? [|? ?]]]; try done.
    by injection Hs as -> ->. }
  apply strip_split_two in Hs' as (l & r & Hlr & -> & ->).
  apply bind_inr in H as ([th d'] & H & [= <- <-]).
  exists tline, aline, rest, data', l, r.
  simpl arg_split in H.
  case_bool_decide as Htok.
  - apply bind_inr in H as (tok0 & H0%getitem_inr & H).
    apply bind_inr in H as (th0 & Hf0%float_of_inr & H).
    apply bind_inr in H as (tok1 & H1%getitem_inr & H).
    apply bind_inr in H as (w & Hf1%float_of_inr & [= <- <-]).
    exists tok0, th0. repeat (split; [done|]). left. eauto 10.
  - apply bind_inr in H as (tok0 & H0%getitem_inr & H).
    apply bind_inr in H as (th0 & Hf0%float_of_inr & [= <- <-]).
    exists tok0, th0. repeat (split; [done|]). right. eauto.
Qed.

Lemma KEYWORDS_excitation key :
  key ∈ excitation_keys ->
  KEYWORDS float floatconv zero !! key = Some (_read_excitation float floatconv).
Proof.
  unfold excitation_keys. rewrite !elem_of_cons, elem_of_nil.
  intros [->|[->|[]]]; reflexivity.
Qed.

Lemma parse_excitation_first hdr fp p ps :
  Py.strip hdr ∈ excitation_keys ->
  parse float floatconv zero (hdr :: fp) = inr (p :: ps) ->
  exists d fp',
    _read_excitation float floatconv fp = inr (d, fp')
    /\ p = <["kind" := VStr (Py.strip hdr)]> d
    /\ parse float floatconv zero fp' = inr ps.
Proof.
  intros Hk%KEYWORDS_excitation.
  destruct (_read_excitation float floatconv fp) as [e|[d fp']] eqn:Hr.
  - by rewrite (parse_fail _ _ _ _ _ _ _ Hk Hr).
  - rewrite (parse_block _ _ _ _ _ _ _ _ Hk Hr).
    intros (ps' & Hp & [= <- <-])%bind_inr. eauto.
Qed.

(** C2. The record of an EXCITATION or IONIZATION block has the key
    ["weight_ratio"] if and only if [<->] is one of the whitespace-separated
    tokens of the target line; ["threshold"] is the first float of the
    argument line in both cases, and ["weight_ratio"], when present, is the
    second. *)
Theorem excitation_weight_ratio hdr fp (p : process F) ps :
  Py.strip hdr ∈ excitation_keys ->
  parse float floatconv zero (hdr :: fp) = inr (p :: ps) ->
  exists tline aline rest tok0 threshold,
    fp = tline :: aline :: rest
    /\ Py.split (Py.strip aline) !! 0 = Some tok0
    /\ float tok0 = Some threshold
    /\ p !! "threshold" = Some (VFloat threshold)
    /\ (is_Some (p !! "weight_ratio") <-> "<->" ∈ Py.split (Py.strip tline))
    /\ ("<->" ∈ Py.split (Py.strip tline) ->
        exists tok1 weight_ratio,
          Py.split (Py.strip aline) !! 1 = Some tok1
          /\ float tok1 = Some weight_ratio
          /\ p !! "weight_ratio" = Some (VFloat weight_ratio)).
Proof.
  intros Hk Hp.
  destruct (parse_excitation_first _ _ _ _ Hk Hp) as (d & fp' & Hr & -> & _).
  apply _read_excitation_inv in Hr
    as (tline & aline & rest & data & l & r & tok0 & th & -> & _ & _ & _ & H0 & Hf0 & Hd).
  exists tline, aline, rest, tok0, th. do 3 (split; [done|]).
  destruct Hd as [((tok1 & w & H1 & Hf1 & ->) & Htok) | (-> & Htok)].
  - split; [by simplify_map_eq|]. split.
    + split; [done|]. intros _. simplify_map_eq. eauto.
    + intros _. exists tok1, w. by simplify_map_eq.
  - split; [by simplify_map_eq|]. split; [|done].
    split; [|done]. simplify_map_eq. by intros [? ?].
Qed.

(** C3, amended.  In an EXCITATION or IONIZATION block the target line is cut
    by [RE_ARROW.split] at its one arrow, which is [->] or [<->] (the pattern
    [<?->]) and is taken whole: a [->] that is cut is not preceded by [<].
    Neither side holds another arrow; the record's ["target"] is the
    stripped text on the left and ["product"] the stripped text on the
    right.  Conversely, whenever the stripped target line is two arrow-free
    sides around [<->], or around [->] with a left side that does not end
    in [<], target and product are these two sides, stripped. *)
Theorem excitation_split_on_arrow :
  (forall hdr fp (p : process F) ps,
     Py.strip hdr ∈ excitation_keys ->
     parse float floatconv zero (hdr :: fp) = inr (p :: ps) ->
     exists tline rest l r,
       fp = tline :: rest
       /\ RE_ARROW_split (Py.strip tline) = [l; r]
       /\ (Py.strip tline = l +:+ "<->" +:+ r
           \/ Py.strip tline = l +:+ "->" +:+ r /\ Py.last l <> Some "<"%char)
       /\ RE_ARROW_count l = 0 /\ RE_ARROW_count r = 0
       /\ p !! "target" = Some (VStr (Py.strip l))
       /\ p !! "product" = Some (VStr (Py.strip r)))
  /\ (forall hdr tline rest (p : process F) ps l r,
        Py.strip hdr ∈ excitation_keys ->
        parse float floatconv zero (hdr :: tline :: rest) = inr (p :: ps) ->
        RE_ARROW_count l = 0 -> RE_ARROW_count r = 0 ->
        Py.strip tline = l +:+ "<->" +:+ r
        \/ Py.strip tline = l +:+ "->" +:+ r /\ Py.last l <> Some "<"%char ->
        p !! "target" = Some (VStr (Py.strip l))
        /\ p !! "product" = Some (VStr (Py.strip r)))
  /\ (forall l r,
        RE_ARROW_count l = 0 -> RE_ARROW_count r = 0 ->
        RE_ARROW_split (l +:+ "<->" +:+ r) = [l; r]
        /\ (Py.last l <> Some "<"%char -> RE_ARROW_split (l +:+ "->" +:+ r) = [l; r])).
Proof.
  assert (forall hdr fp (p : process F) ps,
     Py.strip hdr ∈ excitation_keys ->
     parse float floatconv zero (hdr :: fp) = inr (p :: ps) ->
     exists tline rest l r,
       fp = tline :: rest
       /\ RE_ARROW_split (Py.strip tline) = [l; r]
       /\ p !! "target" = Some (VStr (Py.strip l))
       /\ p !! "product" = Some (VStr (Py.strip r))) as Hrec.
  { intros hdr fp p ps Hk Hp.
    destruct (parse_excitation_first _ _ _ _ Hk Hp) as (d & fp' & Hr & -> & _).
    apply _read_excitation_inv in Hr
      as (tline & aline & rest & data & l & r & tok0 & th & -> & _ & _ & Hs & _ & _ & Hd).
    exists tline, (aline :: rest), l, r. do 2 (split; [done|]).
    destruct Hd as [((tok1 & w & _ & _ & ->) & _) | (-> & _)]; by simplify_map_eq. }
  split; [|split].
  - intros hdr fp p ps Hk Hp.
    destruct (Hrec _ _ _ _ Hk Hp) as (tline & rest & l & r & -> & Hs & Ht & Hpr).
    destruct (RE_ARROW_split_cut _ _ _ Hs) as (Hcut & Hl & Hr).
    exists tline, rest, l, r. eauto 10.
  - intros hdr tline rest p ps l r Hk Hp Hl Hr Hcut.
    destruct (Hrec _ _ _ _ Hk Hp) as (tline' & rest' & l' & r' & [= <- <-] & Hs & Ht & Hpr).
    rewrite (RE_ARROW_split_of_cut _ _ _ Hl Hr Hcut) in Hs. by injection Hs as <- <-.
  - intros l r Hl Hr. split.
    + by apply RE_ARROW_split_two_way.
    + intros HL. by apply RE_ARROW_split_one_way.
Qed.

Lemma unpack_two_fails target :
  RE_ARROW_count target <> 1 ->
  match Py.strip <$> RE_ARROW_split target with
  | [lhs; rhs] => ret (lhs, rhs)
  | _ => raise ValueError
  end = inl ValueError.
Proof.
  intros Hc. pose proof (RE_ARROW_split_length target) as HL.
  rewrite <- (length_fmap Py.strip) in HL.
  destruct (Py.strip <$> RE_ARROW_split target) as [|? [|? [|? ?]]]; try done.
  simpl in HL. lia.
Qed.

(** C10. An EXCITATION or IONIZATION block whose target line does not hold
    exactly one match of the arrow pattern makes the whole [parse] fail; once
    the lines of the block have been read, the failure is the [ValueError]
    of the two-element unpacking. *)
Theorem excitation_needs_one_arrow pre hdr tline rest :
  Forall (fun l => Py.strip l ∉ keywords) pre ->
  Py.strip hdr ∈ excitation_keys ->
  RE_ARROW_count (Py.strip tline) <> 1 ->
  is_error (parse float floatconv zero (pre ++ hdr :: tline :: rest))
  /\ (forall aline rest' data,
        rest = aline :: rest' ->
        loadtxt_tolist floatconv (block_lines rest') = inr data ->
        parse float floatconv zero (pre ++ hdr :: tline :: rest) = inl ValueError).
Proof.
  intros Hpre Hk%KEYWORDS_excitation Hc. rewrite (parse_skip_all _ _ _ _ _ Hpre).
  assert (forall e, _read_excitation float floatconv (tline :: rest) = inl e ->
                    parse float floatconv zero (hdr :: tline :: rest) = inl e) as Hfail.
  { intros e He. by apply (parse_fail _ _ _ _ _ _ _ Hk He). }
  split.
  - destruct rest as [|aline rest']; [eexists; by apply Hfail|].
    destruct (loadtxt_tolist floatconv (block_lines rest')) as [e|data] eqn:Hd.
    + exists e. apply Hfail. unfold _read_excitation. rewrite _read_block_true, Hd. done.
    + exists ValueError. apply Hfail. unfold _read_excitation.
      rewrite _read_block_true, Hd. cbn [bind ret]. by rewrite unpack_two_fails.
  - intros aline rest' data -> Hd. apply Hfail. unfold _read_excitation.
    rewrite _read_block_true, Hd. cbn [bind ret]. by rewrite unpack_two_fails.
Qed.

(** What [_read_attachment] does with the lines of a block. *)
Lemma _read_attachment_eq tline fp :
  _read_attachment floatconv zero (tline :: fp) =
  (do data <- loadtxt_tolist floatconv (block_lines fp);
   ret (match RE_ARROW_split (Py.strip tline) with
        | [l; r] => {[ "target" := VStr (Py.strip l);
                       "product" := VStr (Py.strip r);
                       "threshold" := VFloat zero;
                       "data" := data ]}
        | _ => {[ "target" := VStr (Py.strip tline);
                  "threshold" := VFloat zero;
                  "data" := data ]}
        end, block_rest fp)).
Proof.
  unfold _read_attachment. rewrite _read_block_false.
  destruct (loadtxt_tolist floatconv (block_lines fp)) as [e|data]; [done|].
  cbn [bind ret].
  destruct (RE_ARROW_split (Py.strip tline)) as [|l [|r [|? ?]]]; cbn [fmap list_fmap];
    f_equal; f_equal; apply map_eq; intros k;
    rewrite ?lookup_insert; repeat case_decide; subst; try done.
Qed.

(** *** Malformed tables *)

Lemma convert_row_error vals e : convert_row floatconv vals = inl e -> e = ValueError.
Proof.
  induction vals as [|v vals IH]; simpl; [done|].
  destruct (floatconv v); [|by intros [= <-]].
  destruct (convert_row floatconv vals); simpl; [|done].
  intros [= <-]. by apply IH.
Qed.

Lemma convert_row_bad vals tok :
  tok ∈ vals -> floatconv tok = None -> convert_row floatconv vals = inl ValueError.
Proof.
  induction 1 as [tok vals|tok v vals _ IH]; simpl; intros Hf.
  - by rewrite Hf.
  - destruct (floatconv v); [|done]. by rewrite IH.
Qed.

Lemma read_rows_error N lines e :
  read_rows floatconv N lines = inl e -> e = ValueError.
Proof.
  induction lines as [|line lines IH]; simpl; [done|].
  destruct (length (split_line line) =? 0)%nat; [done|].
  destruct (negb (length (split_line line) =? N)%nat); [by intros [= <-]|].
  destruct (convert_row floatconv (split_line line)) eqn:Hc; simpl.
  - intros [= <-]. by apply convert_row_error in Hc.
  - destruct (read_rows floatconv N lines); simpl; [|done]. intros [= <-]. by apply IH.
Qed.

Lemma read_rows_bad N lines bad :
  bad ∈ lines -> bad_row floatconv N bad -> read_rows floatconv N lines = inl ValueError.
Proof.
  intros Hin Hbad. induction Hin as [bad lines|bad line lines _ IH]; simpl.
  - assert ((length (split_line bad) =? 0)%nat = false) as ->.
    { apply Nat.eqb_neq. destruct Hbad as [(tok & Htok & _)|[Hne _]];
        destruct (split_line bad); try done. by apply elem_of_nil in Htok. }
    destruct Hbad as [(tok & Htok & Hf)|[_ HN]].
    + destruct (negb _); [done|]. by rewrite (convert_row_bad _ _ Htok Hf).
    + apply Nat.eqb_neq in HN. rewrite HN. reflexivity.
  - specialize (IH Hbad).
    destruct (length (split_line line) =? 0)%nat; [exact IH|].
    destruct (negb _); [done|].
    destruct (convert_row floatconv (split_line line)) eqn:Hc; simpl.
    + by apply convert_row_error in Hc as ->.
    + by rewrite IH.
Qed.

Lemma first_row_width_app lines more bad :
  bad ∈ lines -> split_line bad <> [] ->
  first_row_width (lines ++ more) = first_row_width lines.
Proof.
  induction 1 as [bad lines|bad line lines _ IH]; simpl; intros Hne.
  - destruct (split_line bad); done.
  - destruct (length (split_line line) =? 0)%nat; [by apply IH|done].
Qed.

Lemma loadtxt_tolist_bad lines more bad :
  bad ∈ lines -> bad_row floatconv (first_row_width lines) bad ->
  loadtxt_tolist floatconv (lines ++ more) = inl ValueError.
Proof.
  intros Hin Hbad. unfold loadtxt_tolist.
  assert (split_line bad <> []) as Hne.
  { destruct Hbad as [(tok & Htok & _)|[? _]]; [|done].
    intros E. rewrite E in Htok. by apply elem_of_nil in Htok. }
  rewrite (first_row_width_app _ _ _ Hin Hne).
  rewrite (read_rows_bad _ _ bad); [done| |done].
  apply elem_of_app. by left.
Qed.

Lemma loadtxt_tolist_error lines e :
  loadtxt_tolist floatconv lines = inl e -> e = ValueError.
Proof.
  unfold loadtxt_tolist.
  destruct (read_rows floatconv _ lines) eqn:Hr; simpl; [|done].
  intros [= <-]. by apply read_rows_error in Hr.
Qed.

(** The lines of a block after the target and argument lines: comment
    lines, a separator, then the lines of the table. *)
Lemma block_lines_layout comment sep data rest :
  Forall (fun l => RE_SEP_match (Py.strip l) = false) comment ->
  RE_SEP_match (Py.strip sep) = true ->
  Forall (fun l => RE_SEP_match (Py.strip l) = false) data ->
  block_lines (comment ++ sep :: data ++ rest)
  = (Py.strip <$> data) ++ fst (_read_until_sep rest).
Proof.
  intros Hc Hs Hd. unfold block_lines.
  rewrite (_read_until_sep_app _ _ _ Hc Hs). cbn [snd].
  by apply _read_until_sep_app_fst.
Qed.

(** C1. [parse] returns the records in the order of their header lines.  A
    line whose stripped text is none of the six keywords is skipped and
    changes nothing; a line whose stripped text is a keyword gives, when its
    reader succeeds, exactly one record, tagged with that keyword under
    ["kind"] and placed before the records of the lines that follow the
    block; the kinds of the records returned read, in order, as a
    subsequence of the stripped lines of the file; a file without keyword
    line gives the empty list and no error. *)
Theorem parse_records_follow_headers (fp : stream) :
  (forall line, Py.strip line ∉ keywords ->
     parse float floatconv zero (line :: fp) = parse float floatconv zero fp)
  /\ (forall line, Py.strip line ∈ keywords ->
        exists fread : reader F,
          KEYWORDS float floatconv zero !! Py.strip line = Some fread
          /\ forall d fp', fread fp = inr (d, fp') ->
               parse float floatconv zero (line :: fp) =
               (do ps <- parse float floatconv zero fp';
                ret (<["kind" := VStr (Py.strip line)]> d :: ps)))
  /\ (forall ps, parse float floatconv zero fp = inr ps ->
        exists ks : list string,
          Forall2 (fun (p : process F) k => p !! "kind" = Some (VStr k)) ps ks
          /\ Forall (fun k => k ∈ keywords) ks
          /\ ks `sublist_of` (Py.strip <$> fp))
  /\ (Forall (fun l => Py.strip l ∉ keywords) fp ->
      parse float floatconv zero fp = inr []).
Proof.
  split; [|split; [|split]].
  - intros line Hn. apply parse_skip. by apply KEYWORDS_None.
  - intros line Hk. eexists. split; [exact (KEYWORDS_Some _ _ _ _ Hk)|].
    intros d fp' Hr. exact (parse_block _ _ _ _ _ _ _ _ (KEYWORDS_Some _ _ _ _ Hk) Hr).
  - apply parse_kinds.
  - intros Hfp. rewrite <- (app_nil_r fp). by rewrite parse_skip_all.
Qed.

End ReaderFacts.

(** ** Separator lines *)

(** C7, amended.  A line ends a comment or a table exactly when its stripped
    text begins with five dashes: five dashes do, eight dashes followed by
    whitespace do, four dashes do not.  The lines before the first such
    line are the block, and a file without one is read to its end. *)
Theorem separator_is_five_dash_prefix :
  (forall line,
     RE_SEP_match (Py.strip line) = true <-> exists rest, Py.strip line = "-----" +:+ rest)
  /\ RE_SEP_match (Py.strip ("-----" +:+ Py.nl)) = true
  /\ RE_SEP_match (Py.strip ("--------   " +:+ Py.nl)) = true
  /\ RE_SEP_match (Py.strip ("----" +:+ Py.nl)) = false
  /\ (forall pre line fp,
        Forall (fun l => RE_SEP_match (Py.strip l) = false) pre ->
        RE_SEP_match (Py.strip line) = true ->
        _read_until_sep (pre ++ line :: fp) = (Py.strip <$> pre, fp))
  /\ (forall fp,
        Forall (fun l => RE_SEP_match (Py.strip l) = false) fp ->
        _read_until_sep fp = (Py.strip <$> fp, [])).
Proof.
  split; [intros line; apply RE_SEP_match_spec|].
  do 3 (split; [reflexivity|]). split; [apply _read_until_sep_app|].
  induction 1 as [|l fp Hl _ IH]; simpl; [done|]. by rewrite Hl, IH.
Qed.

(** ** The serializer *)

Lemma _write_eq n s level :
  _write n s level =
  if String.eqb (_name n) "_comment_" then write_comment n s level
  else
    do indnt <- getitem indent level;
    let s := write_attribs n (s ++ [indnt; "<"; _name n]) in
    if negb (nonempty (_value n)) && negb (bool_decide (_children n ≠ []))
    then ret (s ++ ["/>"])
    else
      do s <- (if nonempty (_value n) then write_value n (s ++ [">"]) level
               else ret (s ++ [">"]));
      do s <- _write_each (level + 2) (_children n) s;
      ret ((if bool_decide (_children n ≠ []) then s ++ [Py.nl; indnt] else s)
           ++ ["</"; _name n; ">"]).
Proof.
  destruct n as [name value attribs children childmap].
  cbn [_write _name _value _children].
  destruct (String.eqb name "_comment_"); [done|].
  destruct (getitem indent level) as [e|indnt]; [done|]. cbn [bind].
  destruct (negb (nonempty value) && negb (bool_decide (children ≠ []))); [done|].
  assert (forall s1,
    (fix each (cs : list XMLnode) (s1 : list string) {struct cs} : exn + list string :=
       match cs with
       | [] => ret s1
       | c :: cs' => do s2 <- _write c (s1 ++ [Py.nl]) (level + 2); each cs' s2
       end) children s1 = _write_each (level + 2) children s1) as Heach.
  { induction children as [|c cs IH]; intros s1; [done|].
    cbn [_write_each]. destruct (_write c (s1 ++ [Py.nl]) (level + 2)); [done|].
    cbn [bind]. apply IH. }
  destruct (nonempty value).
  - destruct (write_value _ _ _) as [e|s1]; [done|]. cbn [bind]. by rewrite Heach.
  - cbn [bind ret]. by rewrite Heach.
Qed.

Lemma indent_spaces level :
  level <= 8 -> indent !! level = Some (Py.repeat " " level).
Proof.
  intros H. do 9 (destruct level as [|level]; [reflexivity|]). lia.
Qed.

Lemma indent_spaces_high level :
  9 <= level <= 15 -> indent !! level = Some (Py.repeat " " (level + 1)).
Proof.
  intros H. do 9 (destruct level as [|level]; [lia|]).
  do 7 (destruct level as [|level]; [reflexivity|]). lia.
Qed.

Lemma indent_None level : 16 <= level -> indent !! level = None.
Proof.
  intros H. do 16 (destruct level as [|level]; [lia|]). reflexivity.
Qed.

Lemma repeat_length c n : String.length (Py.repeat c n) = n.
Proof. induction n; simpl; congruence. Qed.

(** ** Comments *)

Lemma last_cons c s : s <> "" -> Py.last (String c s) = Py.last s.
Proof. by destruct s. Qed.

Lemma append_assoc (a b c : string) : (a +:+ b) +:+ c = a +:+ (b +:+ c).
Proof. induction a as [|x a IH]; simpl; [done|]. by rewrite IH. Qed.

Lemma first_lstrip s : Py.first (Py.lstrip s) <> Some " "%char.
Proof.
  induction s as [|c s IH]; simpl; [done|].
  destruct (Py.isspace c) eqn:E; [done|]. simpl. by intros [= ->].
Qed.

Lemma write_comment_eq n s level indnt :
  indent !! level = Some indnt ->
  write_comment n s level =
  inr (s ++ [Py.nl +:+ indnt +:+ "<!--";
             lpad (_value n) +:+ _value n +:+ rpad (_value n) +:+ "-->"]).
Proof.
  intros Hi. unfold write_comment, getitem. rewrite Hi. cbn [bind ret].
  rewrite <- app_assoc. do 4 f_equal. unfold lpad, rpad.
  destruct (_value n) as [|c v] eqn:Ev.
  { rewrite !bool_decide_false by (by intros [? _]). done. }
  destruct (decide (Py.first (String c v) = Some " "%char)) as [Hf|Hf].
  - rewrite (bool_decide_false (Py.first _ ≠ _)) by (by intros ?).
    rewrite (bool_decide_false (_ /\ Py.first _ ≠ _)) by (by intros [_ ?]).
    destruct (decide (Py.last (String c v) = Some " "%char)) as [Hl|Hl].
    + rewrite (bool_decide_false (Py.last _ ≠ _)) by (by intros ?).
      rewrite (bool_decide_false (_ /\ Py.last _ ≠ _)) by (by intros [_ ?]). done.
    + rewrite (bool_decide_true (Py.last _ ≠ _)) by done.
      rewrite (bool_decide_true (_ /\ Py.last _ ≠ _)) by done.
      simpl. by rewrite append_assoc.
  - rewrite (bool_decide_true (Py.first _ ≠ _)) by done.
    rewrite (bool_decide_true (_ /\ Py.first _ ≠ _)) by done.
    change (" " +:+ String c v) with (String " " (String c v)).
    rewrite (last_cons " " (String c v)) by done.
    destruct (decide (Py.last (String c v) = Some " "%char)) as [Hl|Hl].
    + rewrite (bool_decide_false (Py.last _ ≠ _)) by (by intros ?).
      rewrite (bool_decide_false (_ /\ Py.last _ ≠ _)) by (by intros [_ ?]). done.
    + rewrite (bool_decide_true (Py.last _ ≠ _)) by done.
      rewrite (bool_decide_true (_ /\ Py.last _ ≠ _)) by done.
      simpl. by rewrite append_assoc.
Qed.

(** C9, amended.  A comment node is written as a newline, the indentation,
    [<!--], the stored value and [-->]; one space is added before the value
    when it does not start with a space and one after it when it does not
    end with one, an empty value gets none, and the spaces the value
    already ends with are kept.  A value stored by the constructor never
    starts with a space.  The comment [hello] is written [<!-- hello -->]. *)
Theorem comment_keeps_its_spaces {F} (repr : pyval F -> string) n s level indnt :
  _name n = "_comment_" ->
  indent !! level = Some indnt ->
  _write n s level =
    inr (s ++ [Py.nl +:+ indnt +:+ "<!--";
               lpad (_value n) +:+ _value n +:+ rpad (_value n) +:+ "-->"])
  /\ (_value n = "" -> lpad (_value n) = "" /\ rpad (_value n) = "")
  /\ (_value n <> "" -> Py.first (_value n) <> Some " "%char ->
      Py.last (_value n) <> Some " "%char ->
      lpad (_value n) = " " /\ rpad (_value n) = " ")
  /\ (Py.last (_value n) = Some " "%char -> rpad (_value n) = "")
  /\ (forall name value,
        Py.first (_value (XMLnode_init repr name value)) <> Some " "%char)
  /\ _write (XMLnode_init repr "_comment_" (VStr "hello")) [] 0
     = inr [Py.nl +:+ "<!--"; " hello -->"].
Proof.
  intros Hn Hi. split; [|split; [|split; [|split; [|split]]]].
  - rewrite _write_eq, Hn. cbn [String.eqb]. simpl. by apply write_comment_eq.
  - intros ->. done.
  - intros Hv Hf Hl. unfold lpad, rpad. by rewrite !bool_decide_true.
  - intros Hl. unfold rpad. rewrite bool_decide_false; [done|]. by intros [_ ?].
  - intros name value. destruct value; apply first_lstrip.
  - reflexivity.
Qed.

(** ** Indentation *)

Lemma getitem_indent level :
  level <= 8 -> getitem indent level = inr (Py.repeat " " level).
Proof. intros H. unfold getitem. by rewrite (indent_spaces _ H). Qed.

Lemma write_attribs_empty n s : _attribs n = ∅ -> write_attribs n s = s.
Proof.
  intros E. unfold write_attribs. rewrite E, map_to_list_empty. apply app_nil_r.
Qed.

(** C8, amended.  [write] serializes the root at level 0 and an element
    serializes its children at [level + 2]; entry [level] of the
    indentation table holds [level] spaces for levels up to 8, so a child
    is indented by two spaces more than its parent. *)
Theorem children_two_spaces_deeper :
  (forall n,
     write n =
     (do s <- _write n ["<?xml version=" +:+ Py.dquote +:+ "1.0" +:+ Py.dquote
                        +:+ "?>" +:+ Py.nl] 0;
      ret (Py.join "" (s ++ [Py.nl]))))
  /\ (forall n s level,
        String.eqb (_name n) "_comment_" = false ->
        _children n <> [] ->
        _write n s level =
        (do indnt <- getitem indent level;
         do s <- (if nonempty (_value n)
                  then write_value n (write_attribs n (s ++ [indnt; "<"; _name n]) ++ [">"]) level
                  else ret (write_attribs n (s ++ [indnt; "<"; _name n]) ++ [">"]));
         do s <- _write_each (level + 2) (_children n) s;
         ret (s ++ [Py.nl; indnt] ++ ["</"; _name n; ">"])))
  /\ (forall level, level <= 8 -> indent !! level = Some (Py.repeat " " level))
  /\ (forall name cname childmap s level,
        String.eqb name "_comment_" = false ->
        String.eqb cname "_comment_" = false ->
        level <= 6 ->
        _write (mkXMLnode name "" ∅ [mkXMLnode cname "" ∅ [] ∅] childmap) s level
        = inr (s ++ [Py.repeat " " level; "<"; name; ">"; Py.nl;
                     Py.repeat " " (level + 2); "<"; cname; "/>"; Py.nl;
                     Py.repeat " " level; "</"; name; ">"])).
Proof.
  split; [reflexivity|]. split; [|split; [apply indent_spaces|]].
  - intros n s level Hn Hc. rewrite _write_eq, Hn.
    rewrite (bool_decide_true (_children n ≠ [])) by done.
    rewrite andb_false_r.
    destruct (getitem indent level); [done|]. cbn [bind].
    destruct (if nonempty (_value n) then _ else _); [done|]. cbn [bind].
    destruct (_write_each _ _ _); [done|]. cbn [bind ret].
    by rewrite <- app_assoc.
  - intros name cname childmap s level Hn Hc Hl.
    rewrite _write_eq. cbn [_name _value _children _attribs]. rewrite Hn.
    rewrite getitem_indent by lia. cbn [bind nonempty negb andb].
    rewrite (bool_decide_true (_ ≠ [])) by done. cbn [negb].
    rewrite write_attribs_empty by done.
    cbn [_write_each bind ret]. rewrite _write_eq. cbn [_name _value _children _attribs].
    rewrite Hc, getitem_indent by lia. cbn [bind nonempty negb andb].
    rewrite (bool_decide_false ([] ≠ [])) by (by intros ?). cbn [negb ret bind].
    rewrite write_attribs_empty by done.
    f_equal. rewrite <- !app_assoc. reflexivity.
Qed.

(** ** [main] on an ATTACHMENT record without product *)

Lemma main_process_attachment_KeyError {F} (repr : pyval F -> string) (fmtE : F -> string)
    x i (p : process F) target :
  p !! "kind" = Some (VStr "ATTACHMENT") ->
  p !! "target" = Some target ->
  p !! "product" = None ->
  main_process repr fmtE x i p = inl KeyError.
Proof.
  intros Hk Ht Hp. unfold main_process.
  destruct (addChild repr x [] "process" (VStr "")) as [x1 r].
  unfold getkey. rewrite Hk, Ht, Hp. reflexivity.
Qed.

(** ** Runs on concrete files *)

Lemma parse_records_follow_headers_witness :
  exists ps,
    Dec.parse two_blocks = inr ps
    /\ exists ks : list string,
         Forall2 (fun (p : process Q) k => p !! "kind" = Some (VStr k)) ps ks
         /\ Forall (fun k => k ∈ keywords) ks
         /\ ks `sublist_of` (Py.strip <$> two_blocks).
Proof.
  eexists. split; [vm_compute; reflexivity|].
  apply (proj1 (proj2 (proj2
           (parse_records_follow_headers Dec.float Dec.float Dec.zero two_blocks)))).
  vm_compute. reflexivity.
Defined.

Lemma excitation_weight_ratio_witness :
  exists (p : process Q) ps,
    Dec.parse (tail two_blocks) = inr (p :: ps)
    /\ exists tline aline rest tok0 threshold,
         tail (tail two_blocks) = tline :: aline :: rest
         /\ Py.split (Py.strip aline) !! 0 = Some tok0
         /\ Dec.float tok0 = Some threshold
         /\ p !! "threshold" = Some (VFloat threshold)
         /\ (is_Some (p !! "weight_ratio") <-> "<->" ∈ Py.split (Py.strip tline))
         /\ ("<->" ∈ Py.split (Py.strip tline) ->
             exists tok1 weight_ratio,
               Py.split (Py.strip aline) !! 1 = Some tok1
               /\ Dec.float tok1 = Some weight_ratio
               /\ p !! "weight_ratio" = Some (VFloat weight_ratio)).
Proof.
  eexists _, _. split; [vm_compute; reflexivity|].
  eapply (excitation_weight_ratio Dec.float Dec.float Dec.zero "EXCITATION");
    [by_compute | vm_compute; reflexivity].
Defined.

Lemma excitation_split_on_arrow_witness :
  Dec.parse (tail two_blocks) = inr [rotational_record; attachment_record_of_block]
  /\ (rotational_record !! "target" = Some (VStr (Py.strip "N2 "))
      /\ rotational_record !! "product" = Some (VStr (Py.strip " N2(rot)")))
  /\ RE_ARROW_split ("N2 " +:+ "->" +:+ " N2+") = ["N2 "; " N2+"].
Proof.
  split; [vm_compute; reflexivity|]. split.
  - apply (proj1 (proj2 (excitation_split_on_arrow Dec.float Dec.float Dec.zero))
             "EXCITATION" "N2 <-> N2(rot)" (drop 3 two_blocks)
             rotational_record [attachment_record_of_block] "N2 " " N2(rot)");
      [by_compute | vm_compute; reflexivity | reflexivity | reflexivity
      | left; reflexivity].
  - apply (proj2 (proj2 (excitation_split_on_arrow Dec.float Dec.float Dec.zero)));
      [reflexivity | reflexivity | by_compute].
Defined.

Lemma bare_left_arrow_is_not_split :
  RE_ARROW_split "A <- B" = ["A <- B"]
  /\ Dec.parse ["EXCITATION"; "A <- B"; "1.0"; "-----"; "0 1"; "1 2"; "-----"]
     = inl ValueError.
Proof. split; vm_compute; reflexivity. Qed.

Lemma excitation_needs_one_arrow_witness :
  is_error (Dec.parse ["header"; "IONIZATION"; "N2 N2+"; "15.6"; "-----";
                       "0 1"; "1 2"; "-----"])
  /\ Dec.parse ["header"; "IONIZATION"; "N2 -> N2+ -> N"; "15.6"; "-----";
                "0 1"; "1 2"; "-----"] = inl ValueError.
Proof.
  split.
  - apply (proj1 (excitation_needs_one_arrow Dec.float Dec.float Dec.zero
                    ["header"] "IONIZATION" "N2 N2+"
                    ["15.6"; "-----"; "0 1"; "1 2"; "-----"]
                    ltac:(by_compute) ltac:(by_compute) ltac:(by_compute))).
  - apply (proj2 (excitation_needs_one_arrow Dec.float Dec.float Dec.zero
                    ["header"] "IONIZATION" "N2 -> N2+ -> N"
                    ["15.6"; "-----"; "0 1"; "1 2"; "-----"]
                    ltac:(by_compute) ltac:(by_compute) ltac:(by_compute))
             "15.6" ["-----"; "0 1"; "1 2"; "-----"]
             (VList [VList [VFloat 0%Q; VFloat 1%Q]; VList [VFloat 1%Q; VFloat 2%Q]])
             eq_refl).
    vm_compute. reflexivity.
Defined.

(** C4, at the input of its example.  The record of the ATTACHMENT block with
    target line [O2] and the single row [0.0 0.0] has no ["product"] key and
    threshold [0.0], but its table is the flat list [[0.0, 0.0]] and not the
    one-row list of pairs: [np.loadtxt] squeezes a table of one row. *)
Theorem attachment_single_row_table_is_flat :
  Dec.parse ["ATTACHMENT"; "O2"; "-----"; "0.0 0.0"; "-----"]
  = inr [ {[ "kind" := VStr "ATTACHMENT";
             "target" := VStr "O2";
             "threshold" := VFloat 0%Q;
             "data" := VList [VFloat 0%Q; VFloat 0%Q] ]} ].
Proof. vm_compute. reflexivity. Qed.

(** C5, at an ATTACHMENT block without arrow.  [parse] returns a record
    without ["product"], and [main] then raises [KeyError] at [p['product']]:
    no document is written. *)
Theorem main_attachment_without_arrow_raises :
  Dec.parse ["ATTACHMENT"; "O2"; "-----"; "0.0 0.0"; "1.0 2.0"; "-----"]
  = inr [ {[ "kind" := VStr "ATTACHMENT";
             "target" := VStr "O2";
             "threshold" := VFloat 0%Q;
             "data" := VList [VList [VFloat 0%Q; VFloat 0%Q];
                              VList [VFloat 1%Q; VFloat 2%Q]] ]} ]
  /\ Dec.main ["ATTACHMENT"; "O2"; "-----"; "0.0 0.0"; "1.0 2.0"; "-----"]
     = inl KeyError.
Proof. split; vm_compute; reflexivity. Qed.

Lemma three_column_table_is_accepted :
  Dec.parse ["MOMENTUM"; "Ar"; "1.0"; "-----"; "1 2 3"; ""; "4 5 6"; "-----"]
  = inr [ {[ "kind" := VStr "MOMENTUM";
             "target" := VStr "Ar";
             "mass_ratio" := VFloat 1%Q;
             "data" := VList [VList [VFloat 1%Q; VFloat 2%Q; VFloat 3%Q];
                              VList [VFloat 4%Q; VFloat 5%Q; VFloat 6%Q]] ]} ].
Proof. vm_compute. reflexivity. Qed.

Lemma separator_is_five_dash_prefix_witness :
  _read_until_sep ["c1"; " c2 "; "  ------  "; "1 2"] = (["c1"; "c2"], ["1 2"]).
Proof.
  apply (proj1 (proj2 (proj2 (proj2 (proj2 separator_is_five_dash_prefix))))
           ["c1"; " c2 "] "  ------  " ["1 2"]); by_compute.
Defined.

Lemma dashes_then_text_is_a_separator :
  RE_SEP_match (Py.strip "-----x") = true
  /\ _read_until_sep ["c1"; "----- end of comment"; "1 2"] = (["c1"], ["1 2"]).
Proof. split; reflexivity. Qed.

Lemma children_two_spaces_deeper_witness :
  _write (mkXMLnode "a" "" ∅ [mkXMLnode "b" "" ∅ [] ∅] ∅) [] 0
  = inr ["";   "<"; "a"; ">"; Py.nl;
         "  "; "<"; "b"; "/>"; Py.nl;
         "";   "</"; "a"; ">"].
Proof.
  apply (proj2 (proj2 (proj2 children_two_spaces_deeper)) "a" "b" ∅ [] 0);
    [reflexivity | reflexivity | lia].
Defined.

Lemma child_is_two_spaces_deeper_not_four :
  _write a_b_c [] 0
  = inr ["";     "<"; "a"; ">"; Py.nl;
         "  ";   "<"; "b"; ">"; Py.nl;
         "    "; "<"; "c"; "/>"; Py.nl;
         "  ";   "</"; "b"; ">"; Py.nl;
         "";     "</"; "a"; ">"]
  /\ write a_b_c
     = inr ("<?xml version=" +:+ Py.dquote +:+ "1.0" +:+ Py.dquote +:+ "?>" +:+ Py.nl
            +:+ "<a>" +:+ Py.nl
            +:+ "  <b>" +:+ Py.nl
            +:+ "    <c/>" +:+ Py.nl
            +:+ "  </b>" +:+ Py.nl
            +:+ "</a>" +:+ Py.nl).
Proof. split; vm_compute; reflexivity. Qed.

Lemma comment_keeps_its_spaces_witness :
  _write (XMLnode_init Dec.repr "_comment_" (VStr "hello")) [] 0
  = inr [Py.nl +:+ "<!--"; " hello -->"].
Proof.
  apply (proj1 (comment_keeps_its_spaces Dec.repr
                  (XMLnode_init Dec.repr "_comment_" (VStr "hello")) [] 0 ""
                  eq_refl eq_refl)).
Defined.

Lemma comment_trailing_spaces_are_kept :
  _write (XMLnode_init Dec.repr "_comment_" (VStr "hello  ")) [] 0
  = inr [Py.nl +:+ "<!--"; " hello  -->"]
  /\ _write (XMLnode_init Dec.repr "_comment_" (VStr "")) [] 0
     = inr [Py.nl +:+ "<!--"; "-->"].
Proof. split; reflexivity. Qed.

(** * More of the code *)

(** ** Blocks, records and errors of [parse] *)

Lemma block_layout comment sep1 data sep2 rest :
  Forall (fun l => RE_SEP_match (Py.strip l) = false) comment ->
  RE_SEP_match (Py.strip sep1) = true ->
  Forall (fun l => RE_SEP_match (Py.strip l) = false) data ->
  RE_SEP_match (Py.strip sep2) = true ->
  block_lines (comment ++ sep1 :: data ++ sep2 :: rest) = Py.strip <$> data
  /\ block_rest (comment ++ sep1 :: data ++ sep2 :: rest) = rest.
Proof.
  intros Hc H1 Hd H2. unfold block_lines, block_rest.
  rewrite (_read_until_sep_app _ _ _ Hc H1). cbn [snd].
  by rewrite (_read_until_sep_app _ _ _ Hd H2).
Qed.

Lemma _read_until_sep_no_sep fp :
  Forall (fun l => RE_SEP_match (Py.strip l) = false) fp ->
  _read_until_sep fp = (Py.strip <$> fp, []).
Proof. induction 1 as [|l fp Hl _ IH]; simpl; [done|]. by rewrite Hl, IH. Qed.

Section MoreParserFacts.
Context {F : Type} (float floatconv : string -> option F) (zero : F).

Lemma KEYWORDS_momentum_keys key :
  key ∈ momentum_keys ->
  KEYWORDS float floatconv zero !! key = Some (_read_momentum float floatconv).
Proof.
  unfold momentum_keys. rewrite !elem_of_cons, elem_of_nil.
  intros [->|[->|[->|[]]]]; reflexivity.
Qed.

(** One turn of the loop of [parse], whatever the line is. *)
Lemma parse_cons line fp :
  parse float floatconv zero (line :: fp) =
  match KEYWORDS float floatconv zero !! Py.strip line with
  | Some fread =>
      do (d, fp') <- fread fp;
      do ps <- parse float floatconv zero fp';
      ret (<["kind" := VStr (Py.strip line)]> d :: ps)
  | None => parse float floatconv zero fp
  end.
Proof.
  destruct (KEYWORDS float floatconv zero !! Py.strip line) as [fread|] eqn:Hk.
  - destruct (fread fp) as [e|[d fp']] eqn:Hr.
    + by rewrite (parse_fail _ _ _ _ _ _ _ Hk Hr).
    + by rewrite (parse_block _ _ _ _ _ _ _ _ Hk Hr).
  - by apply parse_skip.
Qed.

Lemma KEYWORDS_cases key (fread : reader F) :
  KEYWORDS float floatconv zero !! key = Some fread ->
  (key ∈ momentum_keys /\ fread = _read_momentum float floatconv)
  \/ (key ∈ excitation_keys /\ fread = _read_excitation float floatconv)
  \/ (key = "ATTACHMENT" /\ fread = _read_attachment floatconv zero).
Proof.
  intros Hk.
  assert (key ∈ keywords) as Hin
    by (apply (proj1 (KEYWORDS_is_Some float floatconv zero key)); eauto).
  unfold keywords in Hin. rewrite !elem_of_cons, elem_of_nil in Hin.
  destruct Hin as [->|[->|[->|[->|[->|[->|[]]]]]]];
    injection Hk as <-;
    [left|left|left|right; left|right; left|right; right];
    (split; [|reflexivity]);
    first [reflexivity | unfold momentum_keys, excitation_keys;
                         rewrite !elem_of_cons; tauto].
Qed.

Lemma momentum_key_has_arg key :
  key ∈ momentum_keys -> bool_decide (key = "ATTACHMENT") = false.
Proof.
  unfold momentum_keys. rewrite !elem_of_cons, elem_of_nil.
  intros [->|[->|[->|[]]]]; reflexivity.
Qed.

Lemma excitation_key_has_arg key :
  key ∈ excitation_keys -> bool_decide (key = "ATTACHMENT") = false.
Proof.
  unfold excitation_keys. rewrite !elem_of_cons, elem_of_nil.
  intros [->|[->|[]]]; reflexivity.
Qed.

(** What follows the target and argument lines reaches a reader through
    [block_lines] and [block_rest] only. *)
Lemma reader_with_rest key (fread : reader F) tline arg X Y :
  KEYWORDS float floatconv zero !! key = Some fread ->
  length arg = (if bool_decide (key = "ATTACHMENT") then 0 else 1) ->
  block_lines X = block_lines Y ->
  fread (tline :: arg ++ X) = with_rest (fread (tline :: arg ++ Y)) (block_rest X).
Proof.
  intros Hk Harg HXY.
  destruct (KEYWORDS_cases _ _ Hk) as [[Hm ->]|[[He ->]|[-> ->]]].
  - rewrite (momentum_key_has_arg _ Hm) in Harg.
    destruct arg as [|aline [|? ?]]; try done. cbn [app].
    unfold _read_momentum. rewrite !_read_block_true, HXY.
    destruct (loadtxt_tolist floatconv (block_lines Y)); cbn [bind ret]; [done|].
    destruct (getitem _ 0); cbn [bind]; [done|].
    destruct (float_of float _); done.
  - rewrite (excitation_key_has_arg _ He) in Harg.
    destruct arg as [|aline [|? ?]]; try done. cbn [app].
    unfold _read_excitation. rewrite !_read_block_true, HXY.
    destruct (loadtxt_tolist floatconv (block_lines Y)); cbn [bind ret]; [done|].
    destruct (Py.strip <$> RE_ARROW_split (Py.strip tline)) as [|? [|? [|? ?]]];
      cbn [bind ret raise]; try done.
    destruct (bool_decide ("<->" ∈ Py.split (Py.strip tline))).
    + destruct (getitem _ 0); cbn [bind]; [done|].
      destruct (float_of float _); cbn [bind]; [done|].
      destruct (getitem _ 1); cbn [bind]; [done|].
      destruct (float_of float _); done.
    + destruct (getitem _ 0); cbn [bind]; [done|].
      destruct (float_of float _); done.
  - destruct arg; [|done]. cbn [app].
    unfold _read_attachment. rewrite !_read_block_false, HXY.
    destruct (loadtxt_tolist floatconv (block_lines Y)); cbn [bind ret]; [done|].
    by destruct (Py.strip <$> RE_ARROW_split (Py.strip tline)) as [|? [|? [|? ?]]].
Qed.

Lemma parse_elim (P : stream -> raises (list (process F)) -> Prop) :
  P [] (inr []) ->
  (forall line fp,
     KEYWORDS float floatconv zero !! Py.strip line = None ->
     P fp (parse float floatconv zero fp) ->
     P (line :: fp) (parse float floatconv zero fp)) ->
  (forall line (fread : reader F) fp e,
     KEYWORDS float floatconv zero !! Py.strip line = Some fread ->
     fread fp = inl e ->
     P (line :: fp) (inl e)) ->
  (forall line (fread : reader F) fp d fp',
     KEYWORDS float floatconv zero !! Py.strip line = Some fread ->
     fread fp = inr (d, fp') ->
     P fp' (parse float floatconv zero fp') ->
     P (line :: fp)
       (do ps <- parse float floatconv zero fp';
        ret (<["kind" := VStr (Py.strip line)]> d :: ps))) ->
  forall fp, P fp (parse float floatconv zero fp).
Proof.
  intros Hnil Hskip Hfail Hblock fp.
  remember (length fp) as n eqn:En. assert (length fp <= n) as Hn by lia. clear En.
  revert fp Hn. induction n as [|n IH]; intros fp Hn.
  { destruct fp; [exact Hnil|simpl in Hn; lia]. }
  destruct fp as [|line fp]; [exact Hnil|]. simpl in Hn.
  destruct (KEYWORDS float floatconv zero !! Py.strip line) as [fread|] eqn:Hk.
  - destruct (fread fp) as [e|[d fp']] eqn:Hr.
    + rewrite (parse_fail _ _ _ _ _ _ _ Hk Hr). by eapply Hfail.
    + rewrite (parse_block _ _ _ _ _ _ _ _ Hk Hr). eapply Hblock; [done|done|].
      apply IH. pose proof (suffix_length _ _ (reader_suffix _ _ _ _ _ _ _ _ Hk Hr)). lia.
  - rewrite (parse_skip _ _ _ _ _ Hk). apply Hskip; [done|]. apply IH. lia.
Qed.

(** *** The errors of the readers *)

Lemma _read_block_error fp has_arg e :
  _read_block floatconv fp has_arg = inl e -> e = StopIteration \/ e = ValueError.
Proof.
  destruct fp as [|tline fp]; [intros [= <-]; by left|]. destruct has_arg.
  - destruct fp as [|aline fp]; [intros [= <-]; by left|].
    rewrite _read_block_true.
    destruct (loadtxt_tolist floatconv _) eqn:Hl; [|done].
    intros [= <-]. right. by apply loadtxt_tolist_error in Hl.
  - rewrite _read_block_false.
    destruct (loadtxt_tolist floatconv _) eqn:Hl; [|done].
    intros [= <-]. right. by apply loadtxt_tolist_error in Hl.
Qed.

Lemma getitem_error {A} (l : list A) i e : getitem l i = inl e -> e = IndexError.
Proof. unfold getitem. destruct (l !! i); [done|]. by intros [= <-]. Qed.

Lemma float_of_error tok e : float_of float tok = inl e -> e = ValueError.
Proof. unfold float_of. destruct (float tok); [done|]. by intros [= <-]. Qed.

Lemma bind_inl_inv {A B} (m : raises A) (k : A -> raises B) e :
  bind m k = inl e -> m = inl e \/ exists a, m = inr a /\ k a = inl e.
Proof. destruct m as [e'|a]; simpl; [intros [= <-]; by left|eauto]. Qed.

Lemma first_float_error toks e :
  (do tok <- getitem toks 0; float_of float tok) = inl e ->
  e = IndexError \/ e = ValueError.
Proof.
  intros [H|(tok & _ & H)]%bind_inl_inv.
  - left. by apply getitem_error in H.
  - right. by apply float_of_error in H.
Qed.

Lemma reader_error key (fread : reader F) fp e :
  KEYWORDS float floatconv zero !! key = Some fread ->
  fread fp = inl e -> e ∈ parse_errors.
Proof.
  intros Hk Hr.
  assert (e = StopIteration \/ e = ValueError \/ e = IndexError) as He;
    [|unfold parse_errors; rewrite !elem_of_cons; tauto].
  destruct (KEYWORDS_cases _ _ Hk) as [[_ ->]|[[_ ->]|[_ ->]]].
  - unfold _read_momentum in Hr.
    apply bind_inl_inv in Hr as [Hb|([[[target arg] data] fp1] & _ & Hr)].
    { apply _read_block_error in Hb. tauto. }
    apply bind_inl_inv in Hr as [Hg|(tok & _ & Hr)].
    { apply getitem_error in Hg. tauto. }
    apply bind_inl_inv in Hr as [Hf|(m & _ & Hr)]; [|done].
    apply float_of_error in Hf. tauto.
  - unfold _read_excitation in Hr.
    apply bind_inl_inv in Hr as [Hb|([[[target arg] data] fp1] & _ & Hr)].
    { apply _read_block_error in Hb. tauto. }
    apply bind_inl_inv in Hr as [Hu|([lhs rhs] & _ & Hr)].
    { destruct (Py.strip <$> RE_ARROW_split target) as [|? [|? [|? ?]]];
        first [done | injection Hu as <-; tauto]. }
    apply bind_inl_inv in Hr as [Hr|([th d] & _ & Hr)]; [|done].
    destruct (bool_decide ("<->" ∈ Py.split target)).
    + apply bind_inl_inv in Hr as [Hg|(tok0 & _ & Hr)].
      { apply getitem_error in Hg. tauto. }
      apply bind_inl_inv in Hr as [Hf|(th & _ & Hr)].
      { apply float_of_error in Hf. tauto. }
      apply bind_inl_inv in Hr as [Hg|(tok1 & _ & Hr)].
      { apply getitem_error in Hg. tauto. }
      apply bind_inl_inv in Hr as [Hf|(w & _ & Hr)]; [|done].
      apply float_of_error in Hf. tauto.
    + apply bind_inl_inv in Hr as [Hg|(tok0 & _ & Hr)].
      { apply getitem_error in Hg. tauto. }
      apply bind_inl_inv in Hr as [Hf|(th & _ & Hr)]; [|done].
      apply float_of_error in Hf. tauto.
  - unfold _read_attachment in Hr.
    apply bind_inl_inv in Hr as [Hb|([[[target arg] data] fp1] & _ & Hr)].
    { apply _read_block_error in Hb. tauto. }
    by destruct (Py.strip <$> RE_ARROW_split target) as [|? [|? [|? ?]]].
Qed.

(** *** What the readers return *)

Lemma _read_momentum_eq tline aline fp :
  _read_momentum float floatconv (tline :: aline :: fp) =
  (do data <- loadtxt_tolist floatconv (block_lines fp);
   do tok <- getitem (Py.split (Py.strip aline)) 0;
   do mass_ratio <- float_of float tok;
   ret ({[ "target" := VStr (Py.strip tline);
           "mass_ratio" := VFloat mass_ratio;
           "data" := data ]}, block_rest fp)).
Proof.
  unfold _read_momentum. rewrite _read_block_true.
  by destruct (loadtxt_tolist floatconv (block_lines fp)).
Qed.

(** X1.  The record of a MOMENTUM, ELASTIC or EFFECTIVE block holds exactly
    four keys: the kind, the stripped target line, ["mass_ratio"], which is
    the first whitespace-separated token of the argument line read as a
    float, and the table; [parse] goes on with the lines after the block. *)
Theorem momentum_record hdr fp (p : process F) ps :
  Py.strip hdr ∈ momentum_keys ->
  parse float floatconv zero (hdr :: fp) = inr (p :: ps) ->
  exists tline aline rest tok mass_ratio data,
    fp = tline :: aline :: rest
    /\ Py.split (Py.strip aline) !! 0 = Some tok
    /\ float tok = Some mass_ratio
    /\ loadtxt_tolist floatconv (block_lines rest) = inr data
    /\ p = {[ "kind" := VStr (Py.strip hdr);
              "target" := VStr (Py.strip tline);
              "mass_ratio" := VFloat mass_ratio;
              "data" := data ]}
    /\ parse float floatconv zero (block_rest rest) = inr ps.
Proof.
  intros Hk%KEYWORDS_momentum_keys. rewrite parse_cons, Hk.
  intros ([d fp'] & Hr & (ps' & Hp & [= <- <-])%bind_inr)%bind_inr.
  destruct fp as [|tline [|aline rest]]; try done.
  rewrite _read_momentum_eq in Hr.
  apply bind_inr in Hr as (data & Hd & Hr).
  apply bind_inr in Hr as (tok & Hg%getitem_inr & Hr).
  apply bind_inr in Hr as (m & Hf%(float_of_inr float) & [= <- <-]).
  exists tline, aline, rest, tok, m, data. eauto 10.
Qed.

(** X2.  An ATTACHMENT block has no argument line.  Its record has the
    threshold [0.0]; it has a ["product"] exactly when the target line holds
    one arrow, and then target and product are the stripped sides; without
    exactly one arrow the target is the whole stripped line. *)
Theorem attachment_record hdr fp (p : process F) ps :
  Py.strip hdr = "ATTACHMENT" ->
  parse float floatconv zero (hdr :: fp) = inr (p :: ps) ->
  exists tline rest data,
    fp = tline :: rest
    /\ loadtxt_tolist floatconv (block_lines rest) = inr data
    /\ parse float floatconv zero (block_rest rest) = inr ps
    /\ p !! "kind" = Some (VStr "ATTACHMENT")
    /\ p !! "threshold" = Some (VFloat zero)
    /\ p !! "data" = Some data
    /\ (is_Some (p !! "product") <-> RE_ARROW_count (Py.strip tline) = 1)
    /\ (forall l r, RE_ARROW_split (Py.strip tline) = [l; r] ->
          p !! "target" = Some (VStr (Py.strip l))
          /\ p !! "product" = Some (VStr (Py.strip r)))
    /\ (RE_ARROW_count (Py.strip tline) <> 1 ->
        p !! "target" = Some (VStr (Py.strip tline))).
Proof.
  intros Hh. rewrite parse_cons, Hh.
  change (KEYWORDS float floatconv zero !! "ATTACHMENT")
    with (Some (_read_attachment floatconv zero)).
  intros ([d fp'] & Hr & (ps' & Hp & [= <- <-])%bind_inr)%bind_inr.
  destruct fp as [|tline rest]; [done|].
  rewrite _read_attachment_eq in Hr.
  apply bind_inr in Hr as (data & Hd & [= <- <-]).
  exists tline, rest, data. do 3 (split; [done|]).
  pose proof (RE_ARROW_split_length (Py.strip tline)) as HL.
  destruct (RE_ARROW_split (Py.strip tline)) as [|l [|r [|? ?]]] eqn:Hs;
    cbn [length] in HL;
    repeat split; intros; simplify_map_eq; try done; try lia; eauto;
    try match goal with H : is_Some None |- _ => by destruct H end.
Qed.

(** *** The end of the file and the argument line *)

(** X3.  A keyword line that is the last line of the file makes [parse]
    raise [StopIteration], and so does a keyword line other than ATTACHMENT
    followed by one last line: [fp.next()] finds no line. *)
Theorem header_at_end_of_file pre hdr :
  Forall (fun l => Py.strip l ∉ keywords) pre ->
  Py.strip hdr ∈ keywords ->
  parse float floatconv zero (pre ++ [hdr]) = inl StopIteration
  /\ (Py.strip hdr <> "ATTACHMENT" ->
      forall tline,
        parse float floatconv zero (pre ++ [hdr; tline]) = inl StopIteration).
Proof.
  intros Hpre Hk.
  pose proof (KEYWORDS_Some float floatconv zero _ Hk) as HK.
  split.
  - rewrite (parse_skip_all _ _ _ _ _ Hpre).
    apply (parse_fail _ _ _ _ _ _ _ HK). by repeat case_bool_decide.
  - intros Ha tline. rewrite (parse_skip_all _ _ _ _ _ Hpre).
    apply (parse_fail _ _ _ _ _ _ _ HK).
    rewrite (bool_decide_false (_ = "ATTACHMENT")) by done.
    by case_bool_decide.
Qed.

(** X4.  Once the table of a block with an argument line has been read, an
    argument line without token gives [IndexError], a first token that is
    no float gives [ValueError], and a reversible excitation ([<->] among
    the tokens of the target line) whose argument line holds one float
    only gives [IndexError]. *)
Theorem argument_line_errors pre hdr tline aline rest data :
  Forall (fun l => Py.strip l ∉ keywords) pre ->
  Py.strip hdr ∈ keywords ->
  Py.strip hdr <> "ATTACHMENT" ->
  (Py.strip hdr ∈ excitation_keys -> RE_ARROW_count (Py.strip tline) = 1) ->
  loadtxt_tolist floatconv (block_lines rest) = inr data ->
  (Py.split (Py.strip aline) = [] ->
     parse float floatconv zero (pre ++ hdr :: tline :: aline :: rest) = inl IndexError)
  /\ (forall tok toks,
        Py.split (Py.strip aline) = tok :: toks -> float tok = None ->
        parse float floatconv zero (pre ++ hdr :: tline :: aline :: rest)
        = inl ValueError)
  /\ (forall tok threshold,
        Py.strip hdr ∈ excitation_keys ->
        "<->" ∈ Py.split (Py.strip tline) ->
        Py.split (Py.strip aline) = [tok] -> float tok = Some threshold ->
        parse float floatconv zero (pre ++ hdr :: tline :: aline :: rest)
        = inl IndexError).
Proof.
  intros Hpre Hk Ha Harrow Hd.
  pose proof (parse_skip_all float floatconv zero _ (hdr :: tline :: aline :: rest) Hpre)
    as Hskip.
  assert (exists fread : reader F,
             KEYWORDS float floatconv zero !! Py.strip hdr = Some fread) as [fread HK].
  { by apply KEYWORDS_is_Some. }
  assert (forall e, fread (tline :: aline :: rest) = inl e ->
                    parse float floatconv zero (pre ++ hdr :: tline :: aline :: rest)
                    = inl e)
    as Hfail by (intros e; rewrite Hskip; apply (parse_fail _ _ _ _ _ _ _ HK)).
  clear Hskip.
  destruct (KEYWORDS_cases _ _ HK) as [[Hm ->]|[[He ->]|[? _]]]; [| |done].
  - split; [|split].
    + intros Hs. apply Hfail. by rewrite _read_momentum_eq, Hd, Hs.
    + intros tok toks Hs Hf. apply Hfail. rewrite _read_momentum_eq, Hd, Hs.
      cbn [bind ret getitem lookup list_lookup]. unfold float_of. by rewrite Hf.
    + intros tok th He. exfalso. revert Hm He. unfold momentum_keys, excitation_keys.
      rewrite !elem_of_cons, !elem_of_nil. intros [->|[->|[->|[]]]] [?|[?|[]]]; done.
  - specialize (Harrow He).
    pose proof (RE_ARROW_split_length (Py.strip tline)) as HL. rewrite Harrow in HL.
    destruct (RE_ARROW_split (Py.strip tline)) as [|l [|r [|? ?]]] eqn:Hs; try done.
    assert (forall e,
      (if bool_decide ("<->" ∈ Py.split (Py.strip tline))
       then do tok0 <- getitem (Py.split (Py.strip aline)) 0;
            do threshold <- float_of float tok0;
            do tok1 <- getitem (Py.split (Py.strip aline)) 1;
            do weight_ratio <- float_of float tok1;
            ret (threshold, weight_ratio)
       else do tok0 <- getitem (Py.split (Py.strip aline)) 0;
            do threshold <- float_of float tok0;
            ret (threshold, threshold)) = inl e ->
      _read_excitation float floatconv (tline :: aline :: rest) = inl e) as Harg.
    { intros e. unfold _read_excitation. rewrite _read_block_true, Hd.
      cbn [bind ret]. rewrite Hs. cbn [bind ret fmap list_fmap arg_split].
      destruct (bool_decide ("<->" ∈ Py.split (Py.strip tline))).
      - destruct (getitem _ 0); cbn [bind ret]; [by intros [= ->]|].
        destruct (float_of float _); cbn [bind ret]; [by intros [= ->]|].
        destruct (getitem _ 1); cbn [bind ret]; [by intros [= ->]|].
        destruct (float_of float _); cbn [bind ret]; [by intros [= ->]|done].
      - destruct (getitem _ 0); cbn [bind ret]; [by intros [= ->]|].
        destruct (float_of float _); cbn [bind ret]; [by intros [= ->]|done]. }
    split; [|split].
    + intros Hsp. apply Hfail, Harg. rewrite Hsp. by case_bool_decide.
    + intros tok toks Hsp Hf. apply Hfail, Harg. rewrite Hsp.
      cbn [getitem lookup list_lookup bind ret]. unfold float_of. rewrite Hf.
      by case_bool_decide.
    + intros tok th _ Htok Hsp Hf. apply Hfail, Harg. rewrite Hsp.
      rewrite bool_decide_true by done.
      cbn [getitem lookup list_lookup bind ret]. unfold float_of. by rewrite Hf.
Qed.

(** *** Blocks and what surrounds them *)

Lemma with_rest_id {A} (r : raises (A * stream)) fp :
  (forall a fp', r = inr (a, fp') -> fp' = fp) -> with_rest r fp = r.
Proof. destruct r as [e|[a fp']]; simpl; [done|]. intros H. by rewrite (H a fp'). Qed.

(** Two blocks with the same table and the same lines after them. *)
Lemma reader_same_block key (fread : reader F) tline arg X Y :
  KEYWORDS float floatconv zero !! key = Some fread ->
  length arg = (if bool_decide (key = "ATTACHMENT") then 0 else 1) ->
  block_lines X = block_lines Y ->
  block_rest X = block_rest Y ->
  fread (tline :: arg ++ X) = fread (tline :: arg ++ Y).
Proof.
  intros Hk Harg HL HR.
  rewrite (reader_with_rest _ _ tline arg X Y Hk Harg HL).
  rewrite (reader_with_rest _ _ tline arg Y Y Hk Harg eq_refl), HR.
  by destruct (fread (tline :: arg ++ Y)) as [e|[d fp']].
Qed.

(** [parse] after a keyword line depends on the reader's result only. *)
Lemma parse_same_block pre hdr X Y :
  Forall (fun l => Py.strip l ∉ keywords) pre ->
  (forall fread : reader F,
     KEYWORDS float floatconv zero !! Py.strip hdr = Some fread -> fread X = fread Y) ->
  Py.strip hdr ∈ keywords ->
  parse float floatconv zero (pre ++ hdr :: X)
  = parse float floatconv zero (pre ++ hdr :: Y).
Proof.
  intros Hpre H Hk. rewrite !(parse_skip_all _ _ _ _ _ Hpre), !parse_cons.
  destruct (KEYWORDS float floatconv zero !! Py.strip hdr) as [fread|] eqn:HK;
    [by rewrite (H fread)|].
  apply (KEYWORDS_is_Some float floatconv zero) in Hk as [? ?]. congruence.
Qed.

(** X5.  The comment lines of a block, between the argument line (or the
    target line of an ATTACHMENT block) and the first separator, do not
    change what [parse] returns. *)
Theorem comment_lines_are_ignored pre hdr tline arg comment1 comment2 sep tail :
  Forall (fun l => Py.strip l ∉ keywords) pre ->
  Py.strip hdr ∈ keywords ->
  length arg = (if bool_decide (Py.strip hdr = "ATTACHMENT") then 0 else 1) ->
  Forall (fun l => RE_SEP_match (Py.strip l) = false) comment1 ->
  Forall (fun l => RE_SEP_match (Py.strip l) = false) comment2 ->
  RE_SEP_match (Py.strip sep) = true ->
  parse float floatconv zero (pre ++ hdr :: tline :: arg ++ comment1 ++ sep :: tail)
  = parse float floatconv zero (pre ++ hdr :: tline :: arg ++ comment2 ++ sep :: tail).
Proof.
  intros Hpre Hk Harg H1 H2 Hs. apply parse_same_block; [done| |done].
  intros fread HK. apply (reader_same_block _ _ _ _ _ _ HK Harg);
    unfold block_lines, block_rest;
    by rewrite (_read_until_sep_app _ _ _ H1 Hs), (_read_until_sep_app _ _ _ H2 Hs).
Qed.

(** X6.  A block with no separator line after its header lines takes all the
    remaining lines as its comment: [parse] returns what it returns on the
    file cut after the header lines. *)
Theorem block_without_separator_takes_all pre hdr tline arg X :
  Forall (fun l => Py.strip l ∉ keywords) pre ->
  Py.strip hdr ∈ keywords ->
  length arg = (if bool_decide (Py.strip hdr = "ATTACHMENT") then 0 else 1) ->
  Forall (fun l => RE_SEP_match (Py.strip l) = false) X ->
  parse float floatconv zero (pre ++ hdr :: tline :: arg ++ X)
  = parse float floatconv zero (pre ++ hdr :: tline :: arg).
Proof.
  intros Hpre Hk Harg HX. rewrite <- (app_nil_r arg) at 2.
  apply parse_same_block; [done| |done].
  intros fread HK. apply (reader_same_block _ _ _ _ _ _ HK Harg);
    unfold block_lines, block_rest; by rewrite (_read_until_sep_no_sep _ HX).
Qed.

(** X7.  The separator that closes the table of the last block may be
    missing: the end of the file closes the table. *)
Theorem missing_last_separator pre hdr tline arg comment sep1 data sep2 :
  Forall (fun l => Py.strip l ∉ keywords) pre ->
  Py.strip hdr ∈ keywords ->
  length arg = (if bool_decide (Py.strip hdr = "ATTACHMENT") then 0 else 1) ->
  Forall (fun l => RE_SEP_match (Py.strip l) = false) comment ->
  RE_SEP_match (Py.strip sep1) = true ->
  Forall (fun l => RE_SEP_match (Py.strip l) = false) data ->
  RE_SEP_match (Py.strip sep2) = true ->
  parse float floatconv zero (pre ++ hdr :: tline :: arg ++ comment ++ sep1 :: data)
  = parse float floatconv zero
      (pre ++ hdr :: tline :: arg ++ comment ++ sep1 :: data ++ [sep2]).
Proof.
  intros Hpre Hk Harg Hc H1 Hd H2. apply parse_same_block; [done| |done].
  intros fread HK. apply (reader_same_block _ _ _ _ _ _ HK Harg);
    unfold block_lines, block_rest;
    rewrite !(_read_until_sep_app _ _ _ Hc H1); cbn [snd];
    by rewrite (_read_until_sep_no_sep _ Hd), (_read_until_sep_app _ _ _ Hd H2).
Qed.

(** X8.  A whole block, with both separators, is parsed on its own: [parse]
    returns the records of the block followed by the records of the lines
    after the closing separator, and fails when either part fails. *)
Theorem block_then_rest pre hdr tline arg comment sep1 data sep2 rest :
  Forall (fun l => Py.strip l ∉ keywords) pre ->
  Py.strip hdr ∈ keywords ->
  length arg = (if bool_decide (Py.strip hdr = "ATTACHMENT") then 0 else 1) ->
  Forall (fun l => RE_SEP_match (Py.strip l) = false) comment ->
  RE_SEP_match (Py.strip sep1) = true ->
  Forall (fun l => RE_SEP_match (Py.strip l) = false) data ->
  RE_SEP_match (Py.strip sep2) = true ->
  parse float floatconv zero
    (pre ++ hdr :: tline :: arg ++ comment ++ sep1 :: data ++ sep2 :: rest)
  = (do ps1 <- parse float floatconv zero
                 (hdr :: tline :: arg ++ comment ++ sep1 :: data ++ [sep2]);
     do ps <- parse float floatconv zero rest;
     ret (ps1 ++ ps)).
Proof.
  intros Hpre Hk Harg Hc H1 Hd H2.
  rewrite (parse_skip_all _ _ _ _ _ Hpre), !parse_cons.
  destruct (KEYWORDS float floatconv zero !! Py.strip hdr) as [fread|] eqn:HK.
  2:{ apply (KEYWORDS_is_Some float floatconv zero) in Hk as [? ?]. congruence. }
  destruct (block_layout comment sep1 data sep2 rest Hc H1 Hd H2) as [HL HR].
  destruct (block_layout comment sep1 data sep2 [] Hc H1 Hd H2) as [HL0 HR0].
  rewrite (reader_with_rest _ _ tline arg
             (comment ++ sep1 :: data ++ sep2 :: rest)
             (comment ++ sep1 :: data ++ [sep2]) HK Harg) by congruence.
  pose proof (reader_with_rest _ _ tline arg
                (comment ++ sep1 :: data ++ [sep2])
                (comment ++ sep1 :: data ++ [sep2]) HK Harg eq_refl) as E0.
  rewrite HR. rewrite HR0 in E0.
  destruct (fread _) as [e|[d fp']]; cbn [with_rest bind ret] in *; [done|].
  injection E0 as ->. rewrite parse_nil. cbn [bind ret].
  by destruct (parse float floatconv zero rest).
Qed.

(** *** A malformed table in any block *)

(** [parse] on a whole block followed by more lines. *)
Lemma parse_whole_block hdr tline arg comment sep1 data sep2 :
  Py.strip hdr ∈ keywords ->
  length arg = (if bool_decide (Py.strip hdr = "ATTACHMENT") then 0 else 1) ->
  Forall (fun l => RE_SEP_match (Py.strip l) = false) comment ->
  RE_SEP_match (Py.strip sep1) = true ->
  Forall (fun l => RE_SEP_match (Py.strip l) = false) data ->
  RE_SEP_match (Py.strip sep2) = true ->
  exists fread : reader F,
    KEYWORDS float floatconv zero !! Py.strip hdr = Some fread
    /\ forall rest,
         parse float floatconv zero
           (hdr :: tline :: arg ++ comment ++ sep1 :: data ++ sep2 :: rest)
         = (do (d, _) <- fread (tline :: arg ++ comment ++ sep1 :: data ++ [sep2]);
            do ps <- parse float floatconv zero rest;
            ret (<["kind" := VStr (Py.strip hdr)]> d :: ps)).
Proof.
  intros Hk Harg Hc H1 Hd H2.
  destruct (proj2 (KEYWORDS_is_Some float floatconv zero _) Hk) as [fread HK].
  exists fread. split; [done|]. intros rest'.
  rewrite parse_cons, HK.
  destruct (block_layout comment sep1 data sep2 rest' Hc H1 Hd H2) as [HL HR].
  destruct (block_layout comment sep1 data sep2 [] Hc H1 Hd H2) as [HL0 HR0].
  rewrite (reader_with_rest _ _ tline arg
             (comment ++ sep1 :: data ++ sep2 :: rest')
             (comment ++ sep1 :: data ++ [sep2]) HK Harg) by congruence.
  rewrite HR. by destruct (fread _) as [e|[d fp']].
Qed.

Lemma parse_after_whole_blocks before fp :
  whole_blocks before ->
  parse float floatconv zero (before ++ fp)
  = (do ps0 <- parse float floatconv zero before;
     do ps <- parse float floatconv zero fp;
     ret (ps0 ++ ps)).
Proof.
  induction 1 as [|line before Hl _ IH
                  |hdr tline arg comment sep1 data sep2 before Hk Harg Hc H1 Hd H2 _ IH].
  - rewrite parse_nil. cbn [app bind ret]. by destruct (parse _ _ _ fp).
  - cbn [app]. rewrite !parse_skip by (by apply KEYWORDS_None). exact IH.
  - destruct (parse_whole_block hdr tline arg comment sep1 data sep2 Hk Harg Hc H1 Hd H2)
      as (fread & HK & Hparse).
    replace ((hdr :: tline :: arg ++ comment ++ sep1 :: data ++ sep2 :: before) ++ fp)
      with (hdr :: tline :: arg ++ comment ++ sep1 :: data ++ sep2 :: before ++ fp)
      by (cbn [app]; by rewrite <- !app_assoc, <- !app_comm_cons, <- !app_assoc).
    rewrite !Hparse, IH.
    destruct (fread _) as [e|[d fp']]; cbn [bind ret]; [done|].
    destruct (parse _ _ _ before) as [e|ps0]; cbn [bind ret]; [done|].
    by destruct (parse _ _ _ fp).
Qed.

(** C6, amended.  In a block that follows free lines and whole blocks, a
    line of the table which, once its [#] comment is cut off, holds a token
    that is no float (such as [1.0 abc]), or a number of tokens, not zero,
    that differs from that of the first row of the table, makes the whole
    [parse] fail: no record is returned.  The failure is [ValueError] when
    the lines before the block parse. *)
Theorem malformed_table_aborts before hdr tline arg comment sep data rest bad :
  whole_blocks before ->
  Py.strip hdr ∈ keywords ->
  length arg = (if bool_decide (Py.strip hdr = "ATTACHMENT") then 0 else 1) ->
  Forall (fun l => RE_SEP_match (Py.strip l) = false) comment ->
  RE_SEP_match (Py.strip sep) = true ->
  Forall (fun l => RE_SEP_match (Py.strip l) = false) data ->
  bad ∈ data ->
  bad_row floatconv (first_row_width (Py.strip <$> data)) (Py.strip bad) ->
  is_error (parse float floatconv zero
              (before ++ hdr :: tline :: arg ++ comment ++ sep :: data ++ rest))
  /\ (forall ps0,
        parse float floatconv zero before = inr ps0 ->
        parse float floatconv zero
          (before ++ hdr :: tline :: arg ++ comment ++ sep :: data ++ rest)
        = inl ValueError).
Proof.
  intros Hbefore Hk Harg Hc Hs Hd Hin Hbad.
  assert (parse float floatconv zero
            (hdr :: tline :: arg ++ comment ++ sep :: data ++ rest) = inl ValueError) as Hblock.
  { assert (loadtxt_tolist floatconv (block_lines (comment ++ sep :: data ++ rest))
            = inl ValueError) as Hl.
    { rewrite (block_lines_layout _ _ _ _ Hc Hs Hd).
      apply (loadtxt_tolist_bad _ _ _ (Py.strip bad)); [|done].
      by apply list_elem_of_fmap_2. }
    pose proof (KEYWORDS_Some float floatconv zero _ Hk) as HK.
    apply (parse_fail _ _ _ _ _ _ _ HK).
    case_bool_decide as Hm.
    - rewrite bool_decide_false in Harg
        by (rewrite !elem_of_cons, elem_of_nil in Hm;
            destruct Hm as [->|[->|[->|[]]]]; discriminate).
      destruct arg as [|aline [|? ?]]; try done. cbn [app].
      unfold _read_momentum. by rewrite _read_block_true, Hl.
    - case_bool_decide as Ha.
      + destruct arg; [|done]. cbn [app].
        unfold _read_attachment. by rewrite _read_block_false, Hl.
      + destruct arg as [|aline [|? ?]]; try done. cbn [app].
        unfold _read_excitation. by rewrite _read_block_true, Hl. }
  rewrite (parse_after_whole_blocks _ _ Hbefore), Hblock.
  split.
  - destruct (parse _ _ _ before) as [e|ps0]; [by exists e|by exists ValueError].
  - by intros ps0 ->.
Qed.

(** *** What [parse] raises and what it returns *)

(** X9.  [parse] raises nothing but [StopIteration], [ValueError] and
    [IndexError]: [KeyError] never leaves it. *)
Theorem parse_raises_only fp e :
  parse float floatconv zero fp = inl e -> e ∈ parse_errors.
Proof.
  revert e.
  apply (parse_elim (fun _ r => forall e, r = inl e -> e ∈ parse_errors)).
  - done.
  - done.
  - intros line fread fp' e' Hk Hr e [= <-]. by eapply reader_error.
  - intros line fread fp' d fp'' Hk Hr IH e.
    destruct (parse float floatconv zero fp'') as [e'|ps]; [|done].
    intros [= <-]. by apply IH.
Qed.

Lemma momentum_not_excitation k : k ∈ momentum_keys -> k ∈ excitation_keys -> False.
Proof.
  unfold momentum_keys, excitation_keys. rewrite !elem_of_cons, !elem_of_nil.
  intros [->|[->|[->|[]]]] [?|[?|[]]]; done.
Qed.

Lemma momentum_not_attachment k : k ∈ momentum_keys -> k <> "ATTACHMENT".
Proof.
  unfold momentum_keys. rewrite !elem_of_cons, !elem_of_nil.
  intros [->|[->|[->|[]]]]; done.
Qed.

Lemma excitation_not_attachment k : k ∈ excitation_keys -> k <> "ATTACHMENT".
Proof.
  unfold excitation_keys. rewrite !elem_of_cons, !elem_of_nil.
  intros [->|[->|[]]]; done.
Qed.

Ltac record_ok_tac :=
  repeat split; intros;
  try (exfalso; by eapply momentum_not_excitation);
  try (exfalso; by eapply momentum_not_attachment);
  try (exfalso; by eapply excitation_not_attachment);
  simplify_map_eq; eauto.

Lemma reader_record_ok key (fread : reader F) fp d fp' :
  KEYWORDS float floatconv zero !! key = Some fread ->
  fread fp = inr (d, fp') ->
  record_ok zero key (<["kind" := VStr key]> d).
Proof.
  intros Hk Hr. unfold record_ok.
  destruct (KEYWORDS_cases _ _ Hk) as [[Hm ->]|[[He ->]|[-> ->]]].
  - destruct fp as [|tline [|aline rest]]; try done.
    rewrite _read_momentum_eq in Hr.
    apply bind_inr in Hr as (data & _ & Hr).
    apply bind_inr in Hr as (tok & _ & Hr).
    apply bind_inr in Hr as (m & _ & [= <- _]).
    record_ok_tac.
  - apply _read_excitation_inv in Hr
      as (tline & aline & rest & data & l & r & tok0 & th & _ & _ & _ & _ & _ & _ & Hd).
    destruct Hd as [((tok1 & w & _ & _ & ->) & _) | (-> & _)];
      record_ok_tac.
  - destruct fp as [|tline rest]; [done|].
    rewrite _read_attachment_eq in Hr.
    apply bind_inr in Hr as (data & _ & [= <- _]).
    destruct (RE_ARROW_split (Py.strip tline)) as [|l [|r [|? ?]]];
      record_ok_tac.
Qed.

(** X10.  Every record [parse] returns has a keyword as its kind, a string
    target and a table; a record of the momentum family has a float
    ["mass_ratio"] and neither product, threshold nor weight ratio; an
    excitation or ionization record has a string product and a float
    threshold and no mass ratio; an attachment record has threshold [0.0]
    and neither mass ratio nor weight ratio. *)
Theorem parse_records_have_their_keys fp ps :
  parse float floatconv zero fp = inr ps ->
  Forall (fun p => exists k, k ∈ keywords /\ record_ok zero k p) ps.
Proof.
  revert ps.
  apply (parse_elim (fun _ r => forall ps, r = inr ps ->
           Forall (fun p => exists k, k ∈ keywords /\ record_ok zero k p) ps)).
  - by intros ps [= <-].
  - done.
  - done.
  - intros line fread fp' d fp'' Hk Hr IH ps (ps' & Hp & [= <-])%bind_inr.
    constructor; [|by apply IH].
    exists (Py.strip line). split.
    + apply (KEYWORDS_is_Some float floatconv zero). eauto.
    + by eapply reader_record_ok.
Qed.

End MoreParserFacts.

(** *** The pieces of [RE_ARROW.split] *)

Lemma RE_ARROW_split_head s p ps :
  RE_ARROW_split s = p :: ps -> exists t, s = p +:+ t.
Proof.
  revert p ps. induction s as [|c s IH]; intros p ps.
  - intros [= <- <-]. by exists "".
  - rewrite RE_ARROW_split_cons.
    destruct (arrow_at (String c s)) as [rest|].
    + intros [= <- _]. by exists (String c s).
    + destruct (RE_ARROW_split s) as [|q qs] eqn:E; [intros [= <- _]; by exists s|].
      intros [= <- _]. destruct (IH q qs eq_refl) as [t ->]. by exists t.
Qed.

(** X11.  [RE_ARROW.split] returns one piece more than there are arrows, no
    piece holds an arrow, and a string without arrow is returned whole. *)
Theorem RE_ARROW_split_pieces s :
  length (RE_ARROW_split s) = S (RE_ARROW_count s)
  /\ Forall (fun p => RE_ARROW_count p = 0) (RE_ARROW_split s)
  /\ (RE_ARROW_count s = 0 -> RE_ARROW_split s = [s]).
Proof.
  split; [apply RE_ARROW_split_length|]. split; [|apply RE_ARROW_split_no_arrow].
  induction s as [s IH] using string_length_ind.
  destruct s as [|c s1]; [by repeat constructor|].
  rewrite RE_ARROW_split_cons.
  destruct (arrow_at (String c s1)) as [rest|] eqn:E.
  - constructor; [done|]. apply IH. by apply arrow_at_length.
  - specialize (IH s1 ltac:(simpl; lia)).
    destruct (RE_ARROW_split s1) as [|p ps] eqn:Es; [by repeat constructor|].
    apply Forall_cons in IH as [Hp Hps]. constructor; [|done].
    rewrite RE_ARROW_count_cons.
    destruct (RE_ARROW_split_head _ _ _ Es) as [t Ht]. rewrite Ht in E.
    by rewrite (arrow_at_app_None _ _ _ E).
Qed.

(** *** Tables *)

Section Tables.
Context {F : Type} (floatconv : string -> option F).

Lemma convert_row_ok vals row :
  Forall2 (fun tok x => floatconv tok = Some x) vals row ->
  convert_row floatconv vals = inr row.
Proof.
  induction 1 as [|tok x vals row Hx _ IH]; simpl; [done|]. by rewrite Hx, IH.
Qed.

Lemma read_rows_ok N lines rows :
  Forall2 (holds_row floatconv) lines rows ->
  Forall (fun row => length row = N) rows ->
  read_rows floatconv N lines = inr rows.
Proof.
  induction 1 as [|line row lines rows [Hne Hrow] _ IH]; simpl; [done|].
  intros [HN Hrows]%Forall_cons.
  pose proof (Forall2_length _ _ _ Hrow) as HL.
  assert ((length (split_line line) =? 0)%nat = false) as ->.
  { apply Nat.eqb_neq. destruct row; [done|]. simpl in HL. lia. }
  assert ((length (split_line line) =? N)%nat = true) as ->.
  { apply Nat.eqb_eq. lia. }
  cbn [negb]. by rewrite (convert_row_ok _ _ Hrow), (IH Hrows).
Qed.

Lemma first_row_width_ok line lines row :
  holds_row floatconv line row -> first_row_width (line :: lines) = length row.
Proof.
  intros [Hne Hrow]. pose proof (Forall2_length _ _ _ Hrow) as HL. simpl.
  destruct (length (split_line line) =? 0)%nat eqn:E; [|done].
  apply Nat.eqb_eq in E. destruct row; [done|]. simpl in HL. lia.
Qed.

(** X12.  A table of two rows or more, all of the same number (two at least)
    of floats, is returned as the list of its rows, in order. *)
Theorem table_of_rows lines rows N :
  Forall2 (holds_row floatconv) lines rows ->
  Forall (fun row => length row = N) rows ->
  2 <= length rows -> 2 <= N ->
  loadtxt_tolist floatconv lines
  = inr (VList ((fun row => VList (VFloat <$> row)) <$> rows)).
Proof.
  intros H2 HN Hrows HNge. unfold loadtxt_tolist.
  destruct H2 as [|line row lines rows Hrow H2]; [simpl in Hrows; lia|].
  rewrite (first_row_width_ok _ _ _ Hrow).
  pose proof (Forall_cons_1 _ _ _ HN) as [HN1 _]. rewrite HN1.
  rewrite (read_rows_ok N (line :: lines) (row :: rows)); [|by constructor|done].
  cbn [bind ret]. f_equal. unfold squeeze_tolist.
  destruct rows as [|row2 rows]; [simpl in Hrows; lia|].
  destruct row as [|x [|y row]]; [simpl in HN1; lia|simpl in HN1; lia|].
  done.
Qed.

(** X13.  A table of a single row of two numbers or more is returned as the
    flat list of these numbers. *)
Theorem table_of_one_row line row x y :
  holds_row floatconv line (x :: y :: row) ->
  loadtxt_tolist floatconv [line] = inr (VList (VFloat <$> (x :: y :: row))).
Proof.
  intros Hrow. unfold loadtxt_tolist.
  rewrite (first_row_width_ok _ _ _ Hrow).
  rewrite (read_rows_ok (length (x :: y :: row)) [line] [x :: y :: row]);
    [done|constructor; [done|constructor]|by repeat constructor].
Qed.

(** X14.  A line of a table that is blank, or holds a [#] comment only, is
    skipped: the table is the same without it. *)
Theorem blank_lines_are_no_rows lines1 blank lines2 :
  split_line blank = [] ->
  loadtxt_tolist floatconv (lines1 ++ blank :: lines2)
  = loadtxt_tolist floatconv (lines1 ++ lines2).
Proof.
  intros Hb. unfold loadtxt_tolist.
  assert (first_row_width (lines1 ++ blank :: lines2) = first_row_width (lines1 ++ lines2))
    as ->.
  { induction lines1 as [|l lines1 IH]; simpl; [by rewrite Hb|]. by rewrite IH. }
  generalize (first_row_width (lines1 ++ lines2)). intros N.
  assert (read_rows floatconv N (lines1 ++ blank :: lines2)
          = read_rows floatconv N (lines1 ++ lines2)) as ->; [|done].
  induction lines1 as [|l lines1 IH]; simpl; [by rewrite Hb|]. by rewrite IH.
Qed.

End Tables.

(** ** The depth of a tree *)

Lemma depth_comment n : String.eqb (_name n) "_comment_" = true -> depth n = 0.
Proof. destruct n as [name ? ? ? ?]. cbn. by intros ->. Qed.

Lemma depth_children n c :
  String.eqb (_name n) "_comment_" = false ->
  c ∈ _children n -> S (depth c) <= depth n.
Proof.
  destruct n as [name value attribs children childmap]. cbn [_name _children depth].
  intros ->. induction 1 as [c cs|c c' cs _ IH]; lia.
Qed.

Lemma depth_no_children n : _children n = [] -> depth n = 0.
Proof. destruct n as [name ? ? cs ?]. cbn. intros ->. by destruct (String.eqb _ _). Qed.

Lemma depth_some_child n :
  String.eqb (_name n) "_comment_" = false ->
  _children n <> [] -> exists c, c ∈ _children n /\ depth n = S (depth c).
Proof.
  destruct n as [name value attribs children childmap]. cbn [_name _children depth].
  intros ->. induction children as [|c cs IH]; [done|]. intros _.
  destruct cs as [|c' cs].
  - exists c. split; [by left|]. lia.
  - destruct (IH ltac:(done)) as (d & Hd & Hh).
    destruct (Nat.max_dec (S (depth c))
                ((fix below (cs : list XMLnode) : nat :=
                    match cs with
                    | [] => 0
                    | c :: cs' => Nat.max (S (depth c)) (below cs')
                    end) (c' :: cs))) as [E|E].
    + exists c. split; [by left|]. exact E.
    + exists d. split; [by right|]. by rewrite E.
Qed.

(** ** Serialization only appends *)

Lemma write_value_loop_app turns vv indnt s :
  write_value_loop turns vv indnt s = s ++ write_value_loop turns vv indnt [].
Proof.
  revert vv s. induction turns as [|turns IH]; intros vv s; simpl.
  - by rewrite app_nil_r.
  - destruct (Py.find Py.nl vv); [|done].
    rewrite IH, (IH _ [_; _; _]). by rewrite app_assoc.
Qed.

Lemma write_value_app n s level :
  write_value n s level = (do out <- write_value n [] level; ret (s ++ out)).
Proof.
  unfold write_value. destruct (getitem indent level); [done|]. cbn [bind].
  destruct (Py.find Py.nl (Py.lstrip (_value n))); [|done].
  cbn [bind ret]. by rewrite write_value_loop_app.
Qed.

Lemma write_comment_app n s level :
  write_comment n s level = (do out <- write_comment n [] level; ret (s ++ out)).
Proof.
  unfold write_comment. destruct (getitem indent level); [done|].
  cbn [bind ret]. by rewrite <- app_assoc.
Qed.

Lemma _write_each_app level cs s :
  Forall (fun c => forall s level,
            _write c s level = (do out <- _write c [] level; ret (s ++ out))) cs ->
  _write_each level cs s = (do out <- _write_each level cs []; ret (s ++ out)).
Proof.
  intros Hcs. revert s. induction Hcs as [|c cs Hc _ IH]; intros s.
  - cbn. by rewrite app_nil_r.
  - cbn [_write_each]. rewrite (Hc (s ++ [Py.nl])), (Hc ([] ++ [Py.nl])).
    destruct (_write c [] level) as [e|out]; [done|]. cbn [bind ret].
    rewrite (IH ((s ++ [Py.nl]) ++ out)), (IH (([] ++ [Py.nl]) ++ out)).
    destruct (_write_each level cs []) as [e|out']; [done|]. cbn [bind ret app].
    by rewrite <- !app_assoc.
Qed.

Lemma _write_app n s level :
  _write n s level = (do out <- _write n [] level; ret (s ++ out)).
Proof.
  revert s level. induction n as [name value attribs children childmap IH]
    using XMLnode_forall_ind. intros s level.
  rewrite !(_write_eq (mkXMLnode _ _ _ _ _)). cbn [_name _value _children].
  destruct (String.eqb name "_comment_"); [apply write_comment_app|].
  destruct (getitem indent level) as [e|indnt]; [done|]. cbn [bind].
  unfold write_attribs. cbn [_attribs].
  set (attrs := (fun '(a, v) => _) <$> map_to_list attribs).
  destruct (negb (nonempty value) && negb (bool_decide (children ≠ []))).
  { cbn [bind ret app]. f_equal. by rewrite <- !app_assoc. }
  assert (forall s0,
    (if nonempty value
     then write_value (mkXMLnode name value attribs children childmap) s0 level
     else ret s0)
    = (do out <- (if nonempty value
                  then write_value (mkXMLnode name value attribs children childmap)
                         [] level
                  else ret []);
       ret (s0 ++ out))) as Hv.
  { intros s0. destruct (nonempty value); [apply write_value_app|].
    cbn. by rewrite app_nil_r. }
  rewrite (Hv (((s ++ [indnt; "<"; name]) ++ attrs) ++ [">"])),
          (Hv ((([] ++ [indnt; "<"; name]) ++ attrs) ++ [">"])).
  destruct (if nonempty value then _ else _) as [e|vout]; [done|]. cbn [bind ret].
  rewrite (_write_each_app _ _ ((((s ++ [indnt; "<"; name]) ++ attrs) ++ [">"]) ++ vout) IH),
          (_write_each_app _ _ (((([] ++ [indnt; "<"; name]) ++ attrs) ++ [">"]) ++ vout) IH).
  destruct (_write_each (level + 2) children []) as [e|cout]; [done|]. cbn [bind ret].
  f_equal. destruct (bool_decide (children ≠ [])); rewrite <- ?app_assoc; cbn [app];
    rewrite <- ?app_assoc; reflexivity.
Qed.

(** ** How deep a tree may be *)

Lemma write_value_inr n s level indnt :
  indent !! level = Some indnt -> exists out, write_value n s level = inr out.
Proof.
  intros Hi. unfold write_value, getitem. rewrite Hi. cbn [bind ret].
  destruct (Py.find Py.nl (Py.lstrip (_value n))); eauto.
Qed.

Lemma indent_is_Some level : level <= 15 -> is_Some (indent !! level).
Proof.
  intros H. destruct (decide (level <= 8)).
  - rewrite indent_spaces by done. eauto.
  - rewrite indent_spaces_high by lia. eauto.
Qed.

Lemma getitem_indent_error level e : getitem indent level = inl e -> e = IndexError.
Proof. unfold getitem. destruct (indent !! level); [done|]. by intros [= <-]. Qed.

Lemma _write_each_inr level cs s :
  Forall (fun c => forall s, exists out, _write c s level = inr out) cs ->
  exists out, _write_each level cs s = inr out.
Proof.
  intros Hcs. revert s. induction Hcs as [|c cs Hc _ IH]; intros s; cbn; [eauto|].
  destruct (Hc (s ++ [Py.nl])) as [out ->]. cbn [bind]. apply IH.
Qed.

Lemma _write_each_inr_inv level cs s out :
  _write_each level cs s = inr out ->
  Forall (fun c => exists s' out', _write c s' level = inr out') cs.
Proof.
  revert s. induction cs as [|c cs IH]; intros s; [constructor|].
  cbn [_write_each]. intros (s1 & Hc & H)%bind_inr. constructor; eauto.
Qed.

Lemma _write_each_error level cs s e :
  Forall (fun c => forall s e, _write c s level = inl e -> e = IndexError) cs ->
  _write_each level cs s = inl e -> e = IndexError.
Proof.
  intros Hcs. revert s. induction Hcs as [|c cs Hc _ IH]; intros s; [done|].
  cbn [_write_each]. intros [H|(s1 & _ & H)]%bind_inl_inv; eauto.
Qed.

Lemma _write_error n s level e : _write n s level = inl e -> e = IndexError.
Proof.
  revert s level e. induction n as [name value attribs children childmap IH]
    using XMLnode_forall_ind. intros s level e.
  rewrite _write_eq. cbn [_name _value _children].
  destruct (String.eqb name "_comment_").
  { unfold write_comment. intros [H|(? & _ & H)]%bind_inl_inv; [|done].
    by apply getitem_indent_error in H. }
  intros [H|(indnt & Hi & H)]%bind_inl_inv; [by apply getitem_indent_error in H|].
  cbv zeta in H.
  destruct (negb (nonempty value) && negb (bool_decide (children ≠ []))); [done|].
  apply bind_inl_inv in H as [H|(s1 & _ & H)].
  { destruct (nonempty value); [|done].
    destruct (write_value_inr (mkXMLnode name value attribs children childmap)
                (write_attribs (mkXMLnode name value attribs children childmap)
                   (s ++ [indnt; "<"; name]) ++ [">"]) level indnt) as [out E].
    - by apply getitem_inr in Hi.
    - rewrite E in H. done. }
  apply bind_inl_inv in H as [H|(s2 & _ & H)]; [|done].
  eapply _write_each_error; [|exact H].
  eapply Forall_impl; [exact IH|]. intros c Hc s' e'. apply Hc.
Qed.

Lemma _write_inr n s level :
  level + 2 * depth n <= 15 -> exists out, _write n s level = inr out.
Proof.
  revert s level. induction n as [name value attribs children childmap IH]
    using XMLnode_forall_ind. intros s level Hd.
  rewrite _write_eq. cbn [_name _value _children].
  destruct (indent_is_Some level ltac:(lia)) as [indnt Hi].
  destruct (String.eqb name "_comment_") eqn:En.
  { unfold write_comment, getitem. rewrite Hi. cbn [bind ret]. eauto. }
  unfold getitem at 1. rewrite Hi. cbn [bind ret]. cbv zeta.
  destruct (negb (nonempty value) && negb (bool_decide (children ≠ []))); [eauto|].
  assert (exists s1,
    (if nonempty value
     then write_value (mkXMLnode name value attribs children childmap)
            (write_attribs (mkXMLnode name value attribs children childmap)
               (s ++ [indnt; "<"; name]) ++ [">"]) level
     else ret (write_attribs (mkXMLnode name value attribs children childmap)
                 (s ++ [indnt; "<"; name]) ++ [">"])) = inr s1) as [s1 ->].
  { destruct (nonempty value); [by eapply write_value_inr|eauto]. }
  cbn [bind].
  destruct (_write_each_inr (level + 2) children s1) as [s2 ->]; [|cbn [bind ret]; eauto].
  apply Forall_forall. intros c Hc s'.
  rewrite Forall_forall in IH. apply (IH c Hc).
  pose proof (depth_children (mkXMLnode name value attribs children childmap) c En Hc).
  lia.
Qed.

Lemma _write_inr_depth n s level out :
  _write n s level = inr out -> level + 2 * depth n <= 15.
Proof.
  revert s level out. induction n as [name value attribs children childmap IH]
    using XMLnode_forall_ind. intros s level out.
  rewrite _write_eq. cbn [_name _value _children].
  assert (forall x, getitem indent level = inr x -> level <= 15) as Hlevel.
  { intros x Hx. destruct (decide (level <= 15)); [done|].
    unfold getitem in Hx. by rewrite indent_None in Hx by lia. }
  destruct (String.eqb name "_comment_") eqn:En.
  { unfold write_comment. intros (indnt & Hi & _)%bind_inr.
    rewrite (depth_comment (mkXMLnode name value attribs children childmap)) by done.
    apply Hlevel in Hi. lia. }
  intros (indnt & Hi & H)%bind_inr. apply Hlevel in Hi. cbv zeta in H.
  destruct children as [|c0 cs0] eqn:Ec.
  { rewrite (depth_no_children (mkXMLnode name value attribs [] childmap)) by done. lia. }
  rewrite <- Ec in *.
  destruct (depth_some_child (mkXMLnode name value attribs children childmap) En)
    as (c & Hc & ->); [by rewrite Ec|]. cbn [_children] in Hc.
  rewrite (bool_decide_true (children ≠ [])) in H by (by rewrite Ec).
  rewrite andb_false_r in H.
  apply bind_inr in H as (s1 & _ & H). apply bind_inr in H as (s2 & Heach & _).
  apply _write_each_inr_inv in Heach.
  rewrite Forall_forall in IH, Heach.
  destruct (Heach c Hc) as (s' & out' & Hw).
  pose proof (IH c Hc _ _ _ Hw). lia.
Qed.

(** X15.  [_write] only appends: the fragments of a node are added after the
    list it is given, and they do not depend on that list. *)
Theorem serialization_appends n s level out :
  _write n s level = inr out ->
  exists tail, out = s ++ tail /\ forall s', _write n s' level = inr (s' ++ tail).
Proof.
  rewrite _write_app. intros (tail & Ht & [= <-])%bind_inr.
  exists tail. split; [done|]. intros s'. by rewrite _write_app, Ht.
Qed.

(** X16.  A node at level [level] is written when [level] plus twice the
    number of nested levels below it is at most 15, the last index of the
    indentation table, and [IndexError] is raised otherwise; so [write]
    succeeds exactly on trees of at most seven nested levels. *)
Theorem writable_iff_shallow n s level :
  (level + 2 * depth n <= 15 -> exists out, _write n s level = inr out)
  /\ (15 < level + 2 * depth n -> _write n s level = inl IndexError)
  /\ (depth n <= 7 -> exists text, write n = inr text)
  /\ (7 < depth n -> write n = inl IndexError).
Proof.
  assert (forall s level, 15 < level + 2 * depth n -> _write n s level = inl IndexError)
    as Hfail.
  { intros s0 l0 Hd. destruct (_write n s0 l0) as [e|out] eqn:E.
    - by apply _write_error in E as ->.
    - apply _write_inr_depth in E. lia. }
  split; [apply _write_inr|]. split; [apply Hfail|]. split.
  - intros Hd. unfold write.
    destruct (_write_inr n [xml_declaration] 0 ltac:(lia)) as [out E].
    unfold xml_declaration in E. rewrite E. cbn [bind ret]. eauto.
  - intros Hd. unfold write.
    pose proof (Hfail [xml_declaration] 0 ltac:(lia)) as E.
    unfold xml_declaration in E. by rewrite E.
Qed.

Lemma join_cons a l : Py.join "" (a :: l) = a +:+ Py.join "" l.
Proof.
  unfold Py.join. destruct l as [|b l]; cbn [String.concat]; [|done].
  induction a as [|c a IH]; simpl; [done|]. by rewrite <- IH.
Qed.

Lemma join_app l1 l2 : Py.join "" (l1 ++ l2) = Py.join "" l1 +:+ Py.join "" l2.
Proof.
  induction l1 as [|a l1 IH]; [done|].
  cbn [app]. by rewrite !join_cons, IH, append_assoc.
Qed.

(** X17.  The text of [write] is the XML declaration, the fragments of the
    root written at level 0, concatenated, and a final newline. *)
Theorem document_shape n text :
  write n = inr text ->
  exists frags,
    _write n [] 0 = inr frags
    /\ text = xml_declaration +:+ Py.join "" frags +:+ Py.nl.
Proof.
  unfold write. fold xml_declaration. rewrite _write_app.
  destruct (_write n [] 0) as [e|frags]; [done|]. cbn [bind ret].
  intros H. exists frags. split; [done|].
  assert (text = Py.join "" (xml_declaration :: frags ++ [Py.nl])) as ->
    by (by injection H).
  rewrite join_cons, join_app. do 2 f_equal.
Qed.

(** X18.  An element without children is written [<name attributes/>] when
    its value is empty, and on one line, [<name attributes>value</name>],
    when its value holds no newline after its leading spaces. *)
Theorem leaf_elements name value attribs childmap s level indnt :
  String.eqb name "_comment_" = false ->
  indent !! level = Some indnt ->
  let n := mkXMLnode name value attribs [] childmap in
  (value = "" ->
     _write n s level = inr (write_attribs n (s ++ [indnt; "<"; name]) ++ ["/>"]))
  /\ (value <> "" -> Py.find Py.nl (Py.lstrip value) = None ->
      _write n s level
      = inr (write_attribs n (s ++ [indnt; "<"; name])
             ++ [">"; value; "</"; name; ">"])).
Proof.
  intros Hn Hi n. split.
  - intros ->. subst n. rewrite _write_eq. cbn [_name _value _children].
    rewrite Hn. unfold getitem. rewrite Hi. reflexivity.
  - intros Hv Hnl. subst n. rewrite _write_eq. cbn [_name _value _children].
    rewrite Hn. unfold getitem at 1. rewrite Hi. cbn [bind ret]. cbv zeta.
    destruct value as [|c v]; [done|]. cbn [nonempty negb andb].
    unfold write_value, getitem. rewrite Hi. cbn [bind ret _value]. rewrite Hnl.
    cbn [bind ret _write_each]. rewrite (bool_decide_false ([] ≠ [])) by (by intros ?).
    by rewrite <- !app_assoc.
Qed.

(** ** The tree operations *)

Lemma node_at_update_at self f root n :
  node_at self root = Some n ->
  node_at self (update_at self f root) = Some (f n).
Proof.
  revert root. induction self as [|i self IH]; intros root; cbn.
  - by intros [= ->].
  - destruct root as [name value attribs children childmap]. cbn [_children].
    destruct (children !! i) as [c|] eqn:Ec; [|done]. cbn.
    intros Hn. rewrite list_lookup_alter_eq, Ec. cbn. by apply IH.
Qed.

Lemma node_at_app self i root n :
  node_at self root = Some n -> node_at (self ++ [i]) root = _children n !! i.
Proof.
  revert root. induction self as [|j self IH]; intros root; cbn.
  - intros [= ->]. by destruct (_children n !! i).
  - destruct (_children root !! j) as [c|]; [|done]. cbn. apply IH.
Qed.

Section Tree.
Context {F : Type} (repr : pyval F -> string).

(** X19.  After [addChild] on an existing node, the returned reference
    points at the new child, which is the last child of the node and the
    one [child(name)] returns; the node has one child more, and its name,
    value and attributes are unchanged. *)
Theorem addChild_then_child root self n name value :
  node_at self root = Some n ->
  exists n',
    node_at self (fst (addChild repr root self name value)) = Some n'
    /\ node_at (snd (addChild repr root self name value))
               (fst (addChild repr root self name value))
       = Some (XMLnode_init repr name value)
    /\ _children n' = _children n ++ [XMLnode_init repr name value]
    /\ child n' name = inr (XMLnode_init repr name value)
    /\ nChildren n' = S (nChildren n)
    /\ _name n' = _name n /\ _value n' = _value n /\ _attribs n' = _attribs n.
Proof.
  intros Hn. unfold addChild. rewrite Hn. cbn [fst snd].
  eexists. split; [by apply node_at_update_at|].
  split.
  { erewrite node_at_app; [|by apply node_at_update_at]. cbn [_children].
    by rewrite lookup_app_r, Nat.sub_diag. }
  split; [done|]. split.
  { unfold child, getkey. cbn [_childmap _children]. rewrite lookup_insert_eq.
    cbn [bind ret]. unfold getitem. by rewrite lookup_app_r, Nat.sub_diag. }
  split; [|done]. unfold nChildren. cbn [_children]. rewrite length_app. simpl. lia.
Qed.

End Tree.

(** X20.  After [node[key] = value], [node[key]] returns [value], the other
    attributes read as before, and name, value and children are
    unchanged. *)
Theorem setitem_then_getitem root self n key value :
  node_at self root = Some n ->
  exists n',
    node_at self (setitem root self key value) = Some n'
    /\ getitem_attr n' key = inr value
    /\ (forall k, k <> key -> getitem_attr n' k = getitem_attr n k)
    /\ _name n' = _name n /\ _value n' = _value n /\ _children n' = _children n.
Proof.
  intros Hn. unfold setitem. eexists. split; [by apply node_at_update_at|].
  unfold getitem_attr, getkey. cbn [_attribs _name _value _children].
  split; [by rewrite lookup_insert_eq|]. split; [|done].
  intros k Hk. by rewrite lookup_insert_ne.
Qed.

(** ** The loops end *)

Lemma lstrip_length s : String.length (Py.lstrip s) <= String.length s.
Proof.
  induction s as [|c s IH]; simpl; [done|]. destruct (Py.isspace c); simpl; lia.
Qed.

Lemma drop_length n s : String.length (Py.drop n s) = String.length s - n.
Proof.
  revert s. induction n as [|n IH]; intros s; destruct s; simpl; first [done|lia].
Qed.

Lemma find_nl_lt s i : Py.find Py.nl s = Some i -> i < String.length s.
Proof.
  revert i. induction s as [|c s IH]; intros i; [done|].
  cbn [Py.find]. destruct (String.prefix Py.nl (String c s)).
  - intros [= <-]. simpl. lia.
  - destruct (Py.find Py.nl s) as [j|]; [|done]. intros [= <-].
    specialize (IH j eq_refl). simpl. lia.
Qed.

Lemma prefix_nl c t :
  String.prefix Py.nl (String c t) = (if Ascii.ascii_dec "010" c then true else false).
Proof.
  unfold Py.nl. cbn [String.prefix]. destruct (Ascii.ascii_dec "010" c); [|done].
  by destruct t.
Qed.

Lemma find_nl_take s i : Py.find Py.nl s = Some i -> Py.find Py.nl (Py.take i s) = None.
Proof.
  revert i. induction s as [|c s IH]; intros i; [done|].
  cbn [Py.find]. destruct (String.prefix Py.nl (String c s)) eqn:E.
  - by intros [= <-].
  - destruct (Py.find Py.nl s) as [j|]; [|done]. intros [= <-].
    cbn [Py.take Py.find].
    assert (String.prefix Py.nl (String c (Py.take j s)) = false) as ->.
    { rewrite prefix_nl in *. by destruct (Ascii.ascii_dec "010" c). }
    by rewrite (IH j eq_refl).
Qed.

Lemma first_lstrip_not_space s c :
  Py.first (Py.lstrip s) = Some c -> Py.isspace c = false.
Proof.
  induction s as [|c' s IH]; simpl; [done|].
  destruct (Py.isspace c') eqn:E; [done|]. by intros [= <-].
Qed.

Lemma write_value_loop_turns t1 t2 vv indnt s :
  String.length vv < t1 -> String.length vv < t2 ->
  write_value_loop t1 vv indnt s = write_value_loop t2 vv indnt s.
Proof.
  revert t2 vv s. induction t1 as [|t1 IH]; intros t2 vv s H1 H2; [lia|].
  destruct t2 as [|t2]; [lia|]. cbn [write_value_loop].
  destruct (Py.find Py.nl vv) as [i|] eqn:E; [|done].
  apply find_nl_lt in E.
  pose proof (lstrip_length (Py.drop (i + 1) vv)) as HL. rewrite drop_length in HL.
  apply IH; lia.
Qed.

(** X21.  The [while True] loop of [write_value] ends within one turn more
    than the value has characters: more turns give the same fragments. *)
Theorem write_value_loop_ends turns vv indnt s :
  String.length vv < turns ->
  write_value_loop turns vv indnt s
  = write_value_loop (S (String.length vv)) vv indnt s.
Proof. intros H. apply write_value_loop_turns; lia. Qed.

(** X22.  The loop of [parse] ends within as many turns as the file has
    lines: more turns give the same result. *)
Theorem parse_loop_ends {F} (float floatconv : string -> option F) zero n fp :
  length fp <= n ->
  parse_loop float floatconv zero n fp [] = parse float floatconv zero fp.
Proof. intros H. unfold parse. by apply parse_loop_fuel. Qed.

(** ** The lines of a value *)

Lemma first_take i s c : Py.first (Py.take i s) = Some c -> Py.first s = Some c.
Proof. destruct i, s; simpl; done. Qed.

Lemma write_value_loop_lines vv indnt s :
  exists l ls,
    write_value_loop (S (String.length vv)) vv indnt s
    = s ++ value_fragments indnt (l :: ls)
    /\ (forall c, Py.first l = Some c -> Py.first vv = Some c)
    /\ Forall (fun l => Py.find Py.nl l = None) (l :: ls)
    /\ Forall (fun l => forall c, Py.first l = Some c -> Py.isspace c = false) ls.
Proof.
  revert s. induction vv as [vv IH] using string_length_ind. intros s.
  cbn [write_value_loop].
  destruct (Py.find Py.nl vv) as [i|] eqn:E.
  - pose proof (find_nl_lt _ _ E) as Hi.
    pose proof (lstrip_length (Py.drop (i + 1) vv)) as HL. rewrite drop_length in HL.
    set (vv' := Py.lstrip (Py.drop (i + 1) vv)) in *.
    rewrite (write_value_loop_turns _ (S (String.length vv')) vv') by lia.
    destruct (IH vv' ltac:(lia) (s ++ [Py.nl +:+ "  "; indnt; Py.take i vv]))
      as (l & ls & -> & Hfirst & Hnl & Hsp).
    exists (Py.take i vv), (l :: ls). split; [|split; [|split]].
    + unfold value_fragments. cbn [fmap list_fmap concat]. by rewrite <- app_assoc.
    + apply first_take.
    + constructor; [by apply find_nl_take|done].
    + constructor; [|done]. intros c Hc. apply Hfirst in Hc. subst vv'.
      by apply first_lstrip_not_space in Hc.
  - exists vv, []. split; [|split; [done|split]].
    + unfold value_fragments. cbn. done.
    + by constructor.
    + constructor.
Qed.

Lemma write_value_lines_shape n s level indnt i :
  indent !! level = Some indnt ->
  Py.find Py.nl (Py.lstrip (_value n)) = Some i ->
  exists ls,
    write_value n s level
    = inr (s ++ value_fragments indnt (Py.take i (Py.lstrip (_value n)) :: ls))
    /\ ls <> []
    /\ Forall (fun l => Py.find Py.nl l = None) (Py.take i (Py.lstrip (_value n)) :: ls)
    /\ Forall (fun l => forall c, Py.first l = Some c -> Py.isspace c = false)
          (Py.take i (Py.lstrip (_value n)) :: ls).
Proof.
  intros Hi Hf. unfold write_value, getitem. rewrite Hi, Hf. cbn [bind ret].
  set (vv := Py.lstrip (_value n)) in *.
  pose proof (find_nl_lt _ _ Hf) as Hlt.
  pose proof (lstrip_length (Py.drop (i + 1) vv)) as HL. rewrite drop_length in HL.
  cbn [write_value_loop]. rewrite Hf.
  set (vv' := Py.lstrip (Py.drop (i + 1) vv)) in *.
  rewrite (write_value_loop_turns _ (S (String.length vv')) vv') by lia.
  destruct (write_value_loop_lines vv' indnt (s ++ [Py.nl +:+ "  "; indnt; Py.take i vv]))
    as (l & ls & -> & Hfirst & Hnl & Hsp).
  exists (l :: ls). split; [|split; [done|split]].
  - unfold value_fragments. cbn [fmap list_fmap concat]. by rewrite <- app_assoc.
  - constructor; [by apply find_nl_take|done].
  - constructor.
    + intros c Hc. apply first_take in Hc. subst vv.
      by apply first_lstrip_not_space in Hc.
    + constructor; [|done]. intros c Hc. apply Hfirst in Hc. subst vv'.
      by apply first_lstrip_not_space in Hc.
Qed.

(** *** The lines, one by one *)

Lemma eqb_nl c : Ascii.eqb c "010" = (if Ascii.ascii_dec "010" c then true else false).
Proof.
  destruct (Ascii.ascii_dec "010" c) as [<-|H]; [done|].
  apply Ascii.eqb_neq. congruence.
Qed.

Lemma split_nl_ne s : split_nl s <> [].
Proof.
  destruct s as [|c s]; simpl; [done|].
  destruct (Ascii.eqb c "010"); [done|]. by destruct (split_nl s).
Qed.

Lemma split_nl_None s : Py.find Py.nl s = None -> split_nl s = [s].
Proof.
  induction s as [|c s IH]; [done|].
  cbn [Py.find split_nl]. rewrite prefix_nl, eqb_nl.
  destruct (Ascii.ascii_dec "010" c); [done|].
  destruct (Py.find Py.nl s); [done|]. intros _. by rewrite IH.
Qed.

Lemma split_nl_Some s i :
  Py.find Py.nl s = Some i ->
  split_nl s = Py.take i s :: split_nl (Py.drop (i + 1) s).
Proof.
  revert i. induction s as [|c s IH]; intros i; [done|].
  cbn [Py.find split_nl]. rewrite prefix_nl, eqb_nl.
  destruct (Ascii.ascii_dec "010" c).
  - by intros [= <-].
  - destruct (Py.find Py.nl s) as [j|]; [|done]. intros [= <-].
    rewrite (IH j eq_refl). done.
Qed.

Lemma find_nl_lstrip_None s : Py.find Py.nl s = None -> Py.find Py.nl (Py.lstrip s) = None.
Proof.
  induction s as [|c s IH]; [done|]. cbn [Py.lstrip].
  destruct (Py.isspace c); [|done].
  cbn [Py.find]. destruct (String.prefix Py.nl (String c s)); [done|].
  destruct (Py.find Py.nl s); [done|]. intros _. by apply IH.
Qed.

Lemma isspace_nl : Py.isspace "010" = true.
Proof. reflexivity. Qed.

Lemma lstrip_blank_piece s i :
  Py.find Py.nl s = Some i -> Py.lstrip (Py.take i s) = "" ->
  Py.lstrip s = Py.lstrip (Py.drop (i + 1) s).
Proof.
  revert i. induction s as [|c s IH]; intros i; [done|].
  cbn [Py.find]. rewrite prefix_nl.
  destruct (Ascii.ascii_dec "010" c) as [<-|Hc].
  - intros [= <-] _. done.
  - destruct (Py.find Py.nl s) as [j|]; [|done]. intros [= <-].
    cbn [Py.take Py.lstrip Nat.add Py.drop].
    destruct (Py.isspace c); [|done]. apply (IH j eq_refl).
Qed.

Lemma lstrip_piece s i :
  Py.find Py.nl s = Some i -> Py.lstrip (Py.take i s) <> "" ->
  exists k,
    Py.find Py.nl (Py.lstrip s) = Some k
    /\ Py.take k (Py.lstrip s) = Py.lstrip (Py.take i s)
    /\ Py.drop (k + 1) (Py.lstrip s) = Py.drop (i + 1) s.
Proof.
  revert i. induction s as [|c s IH]; intros i; [done|].
  intros Hf. pose proof Hf as Hf'. revert Hf.
  cbn [Py.find]. rewrite prefix_nl.
  destruct (Ascii.ascii_dec "010" c) as [<-|Hc].
  - by intros [= <-].
  - destruct (Py.find Py.nl s) as [j|] eqn:Ej; [|done]. intros [= <-].
    cbn [Py.take Py.lstrip Nat.add Py.drop].
    destruct (Py.isspace c).
    + apply (IH j eq_refl).
    + intros _. exists (S j). split; [exact Hf'|]. done.
Qed.

Section Loop.
Variable indnt : string.

Lemma write_value_loop_None vv :
  Py.find Py.nl vv = None ->
  write_value_loop (S (String.length vv)) vv indnt [] = value_fragments indnt [vv].
Proof. intros H. cbn [write_value_loop]. by rewrite H. Qed.

Lemma write_value_loop_Some vv i :
  Py.find Py.nl vv = Some i ->
  write_value_loop (S (String.length vv)) vv indnt []
  = value_fragments indnt [Py.take i vv]
    ++ write_value_loop (S (String.length (Py.lstrip (Py.drop (i + 1) vv))))
         (Py.lstrip (Py.drop (i + 1) vv)) indnt [].
Proof.
  intros H. cbn [write_value_loop]. rewrite H.
  pose proof (find_nl_lt _ _ H) as Hlt.
  pose proof (lstrip_length (Py.drop (i + 1) vv)) as HL. rewrite drop_length in HL.
  rewrite (write_value_loop_turns _ (S (String.length (Py.lstrip (Py.drop (i + 1) vv)))))
    by lia.
  by rewrite write_value_loop_app.
Qed.

Lemma write_value_loop_later t :
  write_value_loop (S (String.length (Py.lstrip t))) (Py.lstrip t) indnt []
  = value_fragments indnt (later_lines (split_nl t)).
Proof.
  induction t as [t IH] using string_length_ind.
  destruct (Py.find Py.nl t) as [i|] eqn:E.
  - rewrite (split_nl_Some _ _ E).
    pose proof (find_nl_lt _ _ E) as Hlt.
    assert (String.length (Py.drop (i + 1) t) < String.length t) as Hd
      by (rewrite drop_length; lia).
    cbn [later_lines].
    destruct (split_nl (Py.drop (i + 1) t)) as [|q qs] eqn:Es;
      [by destruct (split_nl_ne (Py.drop (i + 1) t))|].
    rewrite <- Es.
    destruct (Py.lstrip (Py.take i t)) as [|c p] eqn:Ep.
    + rewrite (lstrip_blank_piece _ _ E Ep). by apply IH.
    + destruct (lstrip_piece t i E) as (k & Hk & Htake & Hdrop); [by rewrite Ep|].
      rewrite (write_value_loop_Some _ _ Hk), Htake, Hdrop, Ep, (IH _ Hd). done.
  - rewrite (split_nl_None _ E). cbn [later_lines].
    by rewrite (write_value_loop_None _ (find_nl_lstrip_None _ E)).
Qed.

Lemma write_value_loop_written vv :
  write_value_loop (S (String.length vv)) vv indnt [] = value_fragments indnt (written_lines vv).
Proof.
  unfold written_lines. destruct (Py.find Py.nl vv) as [i|] eqn:E.
  - rewrite (split_nl_Some _ _ E), (write_value_loop_Some _ _ E), write_value_loop_later.
    done.
  - by rewrite (split_nl_None _ E), (write_value_loop_None _ E).
Qed.

End Loop.

Lemma value_fragments_inj indnt l1 l2 :
  value_fragments indnt l1 = value_fragments indnt l2 -> l1 = l2.
Proof.
  revert l2. induction l1 as [|a l1 IH]; intros [|b l2]; try done.
  unfold value_fragments. cbn [fmap list_fmap concat app].
  intros [= -> H]. f_equal. by apply IH.
Qed.

(** X23.  A value with a newline after its leading spaces is written line by
    line, each line after a newline, two spaces and the indentation.  The
    lines are those of the value without its leading spaces, cut at the
    newlines: the first as it is; of those after it, a line of whitespace
    only is dropped unless it is the last and the others lose their
    leading whitespace.  There are two lines at least, and no written line
    holds a newline or starts with whitespace. *)
Theorem value_lines n s level indnt i :
  indent !! level = Some indnt ->
  Py.find Py.nl (Py.lstrip (_value n)) = Some i ->
  write_value n s level
  = inr (s ++ value_fragments indnt (written_lines (Py.lstrip (_value n))))
  /\ exists ls,
       written_lines (Py.lstrip (_value n)) = Py.take i (Py.lstrip (_value n)) :: ls
       /\ ls <> []
       /\ Forall (fun l => Py.find Py.nl l = None) (written_lines (Py.lstrip (_value n)))
       /\ Forall (fun l => forall c, Py.first l = Some c -> Py.isspace c = false)
            (written_lines (Py.lstrip (_value n))).
Proof.
  intros Hi Hf.
  assert (write_value n s level
          = inr (s ++ value_fragments indnt (written_lines (Py.lstrip (_value n))))) as Hw.
  { unfold write_value, getitem. rewrite Hi, Hf. cbn [bind ret].
    by rewrite write_value_loop_app, write_value_loop_written. }
  split; [exact Hw|].
  destruct (write_value_lines_shape n s level indnt i Hi Hf) as (ls & Hw' & Hne & Hnl & Hsp).
  rewrite Hw in Hw'. injection Hw' as Hw'.
  apply app_inv_head, value_fragments_inj in Hw'. rewrite Hw'. by exists ls.
Qed.

(** ** The tree [main] builds *)

Section MainFacts.
Context {F : Type} (repr : pyval F -> string) (fmtE : F -> string).

(** *** A reference to the last child *)

Lemma addChild_root x name value :
  addChild repr x [] name value
  = (attach x name (XMLnode_init repr name value), [length (_children x)]).
Proof. reflexivity. Qed.

Lemma alter_last {A} (f : A -> A) (l : list A) (c : A) :
  alter f (length l) (l ++ [c]) = l ++ [f c].
Proof.
  rewrite <- (Nat.add_0_r (length l)). by rewrite alter_app_r.
Qed.

Lemma setitem_attached x name c key value :
  setitem (attach x name c) [length (_children x)] key value
  = attach x name (setitem c [] key value).
Proof.
  unfold setitem, attach. cbn [update_at]. by rewrite alter_last.
Qed.

Lemma addChild_attached x name c cname value :
  fst (addChild repr (attach x name c) [length (_children x)] cname value)
  = attach x name (fst (addChild repr c [] cname value)).
Proof.
  unfold addChild. cbn [fst node_at].
  unfold attach at 1. cbn [_children]. rewrite lookup_app_r, Nat.sub_diag by done.
  cbn. unfold attach. cbn [update_at _name _value _attribs _children _childmap].
  by rewrite alter_last.
Qed.

Lemma ret_inj {A} (a b : A) : ret a = inr b -> a = b.
Proof. by intros [= ->]. Qed.

Lemma as_str_inr (v : pyval F) k : as_str v = inr k -> v = VStr k.
Proof. destruct v; cbn; [by intros [= ->]|done|done]. Qed.

Lemma getkey_inr {V} (d : gmap string V) k v : getkey d k = inr v -> d !! k = Some v.
Proof. unfold getkey. destruct (d !! k); [by intros [= ->]|done]. Qed.

(** *** The element of a process *)

Lemma main_process_element x i (p : process F) x' :
  main_process repr fmtE x i p = inr x' ->
  exists c, x' = attach x "process" c /\ process_of repr i p c.
Proof.
  intros H. unfold main_process in H. rewrite addChild_root in H.
  cbv beta iota zeta in H.
  apply bind_inr in H as (kv & Hk%getkey_inr & H).
  apply bind_inr in H as (kind & ->%as_str_inr & H).
  apply bind_inr in H as (target & Ht%getkey_inr & H).
  apply bind_inr in H as (x1 & Hb & H).
  apply bind_inr in H as (table & Hd%getkey_inr & H).
  apply bind_inr in H as (js & _ & H).
  apply bind_inr in H as (data & _ & H).
  apply ret_inj in H as <-.
  rewrite !setitem_attached, addChild_attached in Hb.
  unfold process_children.
  destruct (found "EXCITATION" kind) eqn:E1.
  { apply bind_inr in Hb as (product & _ & Hb).
    apply bind_inr in Hb as (threshold & _ & Hb).
    rewrite !addChild_attached in Hb.
    destruct (p !! "weight_ratio") as [w|] eqn:Ew.
    - apply ret_inj in Hb as <-. rewrite setitem_attached, !addChild_attached.
      eexists. split; [reflexivity|]. exists kind, target. unfold process_children.
      rewrite Ew. rewrite bool_decide_true, E1 by eauto.
      repeat split; try done; try congruence; eauto. repeat constructor.
    - apply ret_inj in Hb as <-. rewrite !addChild_attached.
      eexists. split; [reflexivity|]. exists kind, target. unfold process_children.
      rewrite Ew. rewrite bool_decide_false, E1 by (by intros [? ?]).
      repeat split; try done; try (by intros [? ?]); try congruence;
        try (intros Hx; cbn in Hx; by simplify_map_eq).
      repeat constructor. }
  destruct (found "IONIZATION" kind) eqn:E2.
  { apply bind_inr in Hb as (product & _ & Hb).
    apply bind_inr in Hb as (threshold & _ & Hb).
    apply ret_inj in Hb as <-. rewrite !addChild_attached.
    eexists. split; [reflexivity|]. exists kind, target. unfold process_children. rewrite E1, E2.
    repeat split; try done; try (by intros [? ?]); try congruence;
      try (intros Hx; cbn in Hx; by simplify_map_eq).
    repeat constructor. }
  destruct (found "ATTACHMENT" kind) eqn:E3.
  { apply bind_inr in Hb as (product & _ & Hb).
    apply bind_inr in Hb as (threshold & _ & Hb).
    apply ret_inj in Hb as <-. rewrite !addChild_attached.
    eexists. split; [reflexivity|]. exists kind, target. unfold process_children. rewrite E1, E2, E3.
    repeat split; try done; try (by intros [? ?]); try congruence;
      try (intros Hx; cbn in Hx; by simplify_map_eq).
    repeat constructor. }
  apply bind_inr in Hb as (target' & Ht' & Hb).
  apply bind_inr in Hb as (mass_ratio & _ & Hb).
  apply ret_inj in Hb as <-. rewrite !addChild_attached.
  eexists. split; [reflexivity|]. exists kind, target. unfold process_children. rewrite E1, E2, E3.
  apply getkey_inr in Ht'. rewrite Ht in Ht'. injection Ht' as <-.
  repeat split; try done; try (by intros [? ?]); try congruence;
    try (intros Hx; cbn in Hx; by simplify_map_eq).
  repeat constructor.
Qed.

(** *** The document *)

Lemma main_loop_children x i (ps : list (process F)) x' :
  main_loop repr fmtE x i ps = inr x' ->
  _name x' = _name x /\ _value x' = _value x /\ _attribs x' = _attribs x
  /\ exists cs,
       _children x' = _children x ++ cs
       /\ length cs = length ps
       /\ forall j c p, cs !! j = Some c -> ps !! j = Some p -> process_of repr (i + j) p c.
Proof.
  revert x i. induction ps as [|p ps IH]; intros x i.
  - intros [= <-]. repeat split. exists []. rewrite app_nil_r. by repeat split.
  - cbn [main_loop]. intros (x1 & Hp & Hl)%bind_inr.
    apply main_process_element in Hp as (c & -> & Hc).
    destruct (IH _ _ Hl) as (-> & -> & -> & cs & Hcs & Hlen & Hall).
    repeat split. exists (c :: cs). cbn [attach _children] in Hcs.
    rewrite <- app_assoc in Hcs. split; [exact Hcs|]. split; [cbn; lia|].
    intros [|j] c' p'; cbn.
    + intros [= <-] [= <-]. by rewrite Nat.add_0_r.
    + intros Hc' Hp. replace (i + S j) with (S i + j) by lia. by apply Hall.
Qed.

(** X24.  The tree [main] builds is a [ctml] root without value or attribute
    with one [process] child per record, in order.  The child of record
    [j] has the attributes [id], the decimal [j], and [type], the kind; it
    is [reversible] exactly for an excitation with a weight ratio; its
    children are leaves, named by kind as [process_children] lists, the
    first being [reactants] with the target; for a kind of the momentum
    family [products] holds the target again. *)
Theorem document_of_records (ps : list (process F)) x :
  convert repr fmtE ps = inr x ->
  _name x = "ctml" /\ _value x = "" /\ _attribs x = ∅
  /\ length (_children x) = length ps
  /\ forall j c p, _children x !! j = Some c -> ps !! j = Some p -> process_of repr j p c.
Proof.
  unfold convert. intros (Hn & Hv & Ha & cs & Hcs & Hlen & Hall)%main_loop_children.
  cbn in Hcs. rewrite Hcs. split; [done|]. split; [done|]. split; [done|].
  split; [done|]. exact Hall.
Qed.

(** *** Tables that [main] cannot format *)

Lemma momentum_kind_tests k :
  k ∈ momentum_keys ->
  found "EXCITATION" k = false /\ found "IONIZATION" k = false
  /\ found "ATTACHMENT" k = false.
Proof.
  unfold momentum_keys. rewrite !elem_of_cons, elem_of_nil.
  intros [->|[->|[->|[]]]]; by vm_compute.
Qed.

(** X25.  A record of the momentum family whose table is a single number or
    a flat list of numbers, as a table of one row is returned, makes [main]
    raise [TypeError] at [j[0]]. *)
Theorem flat_table_is_not_rendered x i (p : process F) k target mass_ratio v js :
  p !! "kind" = Some (VStr k) ->
  k ∈ momentum_keys ->
  p !! "target" = Some target ->
  p !! "mass_ratio" = Some mass_ratio ->
  p !! "data" = Some (VFloat v) \/ p !! "data" = Some (VList (VFloat v :: js)) ->
  main_process repr fmtE x i p = inl TypeError.
Proof.
  intros Hk (E1 & E2 & E3)%momentum_kind_tests Ht Hm Hd. unfold main_process.
  rewrite addChild_root. cbv beta iota zeta. unfold getkey.
  rewrite Hk, Ht. cbn [bind ret as_str]. rewrite E1, E2, E3, Hm. cbn [bind ret].
  destruct Hd as [-> | ->]; reflexivity.
Qed.

(** *** Files that [main] renders *)

Lemma data_rows_inr js acc :
  Forall is_row js -> exists text, data_rows fmtE js acc = inr text.
Proof.
  intros Hjs. revert acc. induction Hjs as [|j js (x & y & rest & ->) _ IH]; intros acc.
  - by exists acc.
  - cbn. apply IH.
Qed.

Lemma main_process_inr x i (p : process F) :
  renderable p -> exists x', main_process repr fmtE x i p = inr x'.
Proof.
  intros (kind & js & Hk & [target Ht] & Hd & Hrows & Hkeys).
  unfold main_process. rewrite addChild_root. cbv beta iota zeta. unfold getkey.
  rewrite Hk, Ht, Hd. cbn [bind ret as_str iterate].
  destruct (data_rows_inr js "" Hrows) as [text ->].
  destruct (found "EXCITATION" kind).
  { destruct Hkeys as [[product ->] [threshold ->]]. cbn [bind ret].
    destruct (p !! "weight_ratio"); cbn [bind ret]; eauto. }
  destruct (found "IONIZATION" kind).
  { destruct Hkeys as [[product ->] [threshold ->]]. cbn [bind ret]. eauto. }
  destruct (found "ATTACHMENT" kind).
  { destruct Hkeys as [[product ->] [threshold ->]]. cbn [bind ret]. eauto. }
  destruct Hkeys as [mass_ratio ->]. cbn [bind ret]. eauto.
Qed.

Lemma main_loop_inr x i (ps : list (process F)) :
  Forall renderable ps -> exists x', main_loop repr fmtE x i ps = inr x'.
Proof.
  intros Hps. revert x i. induction Hps as [|p ps Hp _ IH]; intros x i; cbn [main_loop]; [by eexists|].
  destruct (main_process_inr x i p Hp) as [x1 ->]. cbn [bind]. apply IH.
Qed.

Lemma depth_le n d :
  (forall c, c ∈ _children n -> depth c <= d) -> depth n <= S d.
Proof.
  intros H. destruct (String.eqb (_name n) "_comment_") eqn:En.
  { rewrite depth_comment by done. lia. }
  destruct (_children n) as [|c0 cs] eqn:Ec.
  { rewrite depth_no_children by done. lia. }
  destruct (depth_some_child n En) as (c & Hc & ->); [by rewrite Ec|].
  rewrite Ec in Hc. specialize (H c Hc). lia.
Qed.

Lemma convert_inr (ps : list (process F)) :
  Forall renderable ps ->
  exists x, convert repr fmtE ps = inr x /\ depth x <= 2.
Proof.
  intros Hps. unfold convert.
  destruct (main_loop_inr (XMLnode_init repr "ctml" (VStr "")) 0 ps Hps) as [x Hx].
  exists x. split; [done|].
  destruct (main_loop_children _ _ _ _ Hx) as (_ & _ & _ & cs & Hcs & Hlen & Hall).
  cbn in Hcs. apply depth_le. intros c Hc. rewrite Hcs in Hc.
  apply list_elem_of_lookup in Hc as [j Hj].
  assert (is_Some (ps !! j)) as [p Hp].
  { apply lookup_lt_is_Some. apply lookup_lt_Some in Hj. lia. }
  destruct (Hall j c p Hj Hp) as (kind & target & Hleaf).
  do 10 apply proj2 in Hleaf.
  apply depth_le. intros k Hk. rewrite Forall_forall in Hleaf.
  rewrite depth_no_children by (by apply Hleaf). lia.
Qed.

Section WithParser.
Context (float floatconv : string -> option F) (zero : F).

(** X26.  When [parse] returns records that hold their kind, their target, a
    table of rows of two floats at least and the keys their kind needs,
    [main] succeeds: the tree has at most two nested levels and the text
    written is the XML declaration, the fragments of the tree and a
    newline. *)
Theorem main_writes_renderable_records fp ps :
  parse float floatconv zero fp = inr ps ->
  Forall renderable ps ->
  exists x frags,
    convert repr fmtE ps = inr x /\ depth x <= 2
    /\ _write x [] 0 = inr frags
    /\ main float floatconv zero repr fmtE fp
       = inr (xml_declaration +:+ Py.join "" frags +:+ Py.nl).
Proof.
  intros Hparse Hps. destruct (convert_inr ps Hps) as (x & Hx & Hd).
  destruct (_write_inr x [] 0 ltac:(lia)) as [frags Hf].
  exists x, frags. split; [done|]. split; [done|]. split; [done|].
  unfold main. rewrite Hparse. cbn [bind]. rewrite Hx. cbn [bind].
  unfold write. fold xml_declaration. rewrite _write_app, Hf. cbn [bind ret].
  f_equal. change (xml_declaration :: frags ++ [Py.nl])
    with ([xml_declaration] ++ frags ++ [Py.nl]).
  by rewrite !join_app.
Qed.

(** X27.  On a file without keyword line [main] writes the XML declaration
    and the empty element [<ctml/>]. *)
Theorem main_without_headers fp :
  Forall (fun line => Py.strip line ∉ keywords) fp ->
  main float floatconv zero repr fmtE fp
  = inr (xml_declaration +:+ "<ctml/>" +:+ Py.nl).
Proof.
  intros Hfp. unfold main.
  pose proof (parse_skip_all float floatconv zero fp [] Hfp) as E.
  rewrite app_nil_r in E. rewrite E. reflexivity.
Qed.

End WithParser.

End MainFacts.

(** ** Runs of the properties above *)

Lemma malformed_table_aborts_witness :
  Dec.parse (["LXCat"] ++ elastic_block
             ++ ["EXCITATION"; "N2 -> N2*"; "1.0"; "a comment"; "-----";
                 "0.0 1.0"; "1.0 abc"; "-----"; "trailer"])
  = inl ValueError.
Proof.
  rewrite app_assoc.
  apply (proj2 (malformed_table_aborts Dec.float Dec.float Dec.zero
           (["LXCat"] ++ elastic_block) "EXCITATION" "N2 -> N2*" ["1.0"] ["a comment"]
           "-----" ["0.0 1.0"; "1.0 abc"] ["-----"; "trailer"] "1.0 abc"
           ltac:(apply whole_blocks_free; [by_compute|];
                 apply (whole_blocks_block "ELASTIC" "Ar" [" 0.5 / mass ratio"]
                          ["a comment"] "-----" ["0.0 1.0"; "1.0 0.5"] "-----" []);
                 try by_compute; apply whole_blocks_nil)
           ltac:(by_compute) ltac:(by_compute) ltac:(by_compute) ltac:(by_compute)
           ltac:(by_compute) ltac:(by_compute)
           ltac:(left; exists "abc"; split; [by_compute|reflexivity]))
         [elastic_record]).
  vm_compute. reflexivity.
Defined.

Lemma momentum_record_witness :
  exists tline aline rest tok mass_ratio data,
    tail elastic_block = tline :: aline :: rest
    /\ Py.split (Py.strip aline) !! 0 = Some tok
    /\ Dec.float tok = Some mass_ratio
    /\ loadtxt_tolist Dec.float (block_lines rest) = inr data
    /\ elastic_record = {[ "kind" := VStr (Py.strip "ELASTIC");
                           "target" := VStr (Py.strip tline);
                           "mass_ratio" := VFloat mass_ratio;
                           "data" := data ]}
    /\ Dec.parse (block_rest rest) = inr [].
Proof.
  apply (momentum_record Dec.float Dec.float Dec.zero "ELASTIC" (tail elastic_block)
           elastic_record []); [by_compute | vm_compute; reflexivity].
Defined.

Lemma attachment_record_witness :
  exists tline rest data,
    tail attachment_block = tline :: rest
    /\ loadtxt_tolist Dec.float (block_lines rest) = inr data
    /\ Dec.parse (block_rest rest) = inr []
    /\ attachment_record_of_block !! "kind" = Some (VStr "ATTACHMENT")
    /\ attachment_record_of_block !! "threshold" = Some (VFloat Dec.zero)
    /\ attachment_record_of_block !! "data" = Some data
    /\ (is_Some (attachment_record_of_block !! "product")
        <-> RE_ARROW_count (Py.strip tline) = 1)
    /\ (forall l r, RE_ARROW_split (Py.strip tline) = [l; r] ->
          attachment_record_of_block !! "target" = Some (VStr (Py.strip l))
          /\ attachment_record_of_block !! "product" = Some (VStr (Py.strip r)))
    /\ (RE_ARROW_count (Py.strip tline) <> 1 ->
        attachment_record_of_block !! "target" = Some (VStr (Py.strip tline))).
Proof.
  apply (attachment_record Dec.float Dec.float Dec.zero "ATTACHMENT"
           (tail attachment_block) attachment_record_of_block []);
    [by_compute | vm_compute; reflexivity].
Defined.

Lemma header_at_end_of_file_witness :
  Dec.parse ["some text"; "MOMENTUM"] = inl StopIteration
  /\ Dec.parse ["some text"; "MOMENTUM"; "Ar"] = inl StopIteration.
Proof.
  split.
  - apply (proj1 (header_at_end_of_file Dec.float Dec.float Dec.zero
                    ["some text"] "MOMENTUM" ltac:(by_compute) ltac:(by_compute))).
  - apply (proj2 (header_at_end_of_file Dec.float Dec.float Dec.zero
                    ["some text"] "MOMENTUM" ltac:(by_compute) ltac:(by_compute))
             ltac:(by_compute) "Ar").
Defined.

Lemma argument_line_errors_witness :
  Dec.parse ["MOMENTUM"; "Ar"; ""; "-----"; "0 1"; "2 3"; "-----"] = inl IndexError
  /\ Dec.parse ["MOMENTUM"; "Ar"; "half"; "-----"; "0 1"; "2 3"; "-----"] = inl ValueError
  /\ Dec.parse ["EXCITATION"; "N2 <-> N2*"; "1.5"; "-----"; "0 1"; "2 3"; "-----"]
     = inl IndexError.
Proof.
  split; [|split].
  - eapply (proj1 (argument_line_errors Dec.float Dec.float Dec.zero
                     [] "MOMENTUM" "Ar" "" ["-----"; "0 1"; "2 3"; "-----"] _
                     ltac:(by_compute) ltac:(by_compute) ltac:(by_compute)
                     ltac:(by_compute) ltac:(vm_compute; reflexivity))).
    reflexivity.
  - eapply (proj1 (proj2 (argument_line_errors Dec.float Dec.float Dec.zero
                     [] "MOMENTUM" "Ar" "half" ["-----"; "0 1"; "2 3"; "-----"] _
                     ltac:(by_compute) ltac:(by_compute) ltac:(by_compute)
                     ltac:(by_compute) ltac:(vm_compute; reflexivity)))
              "half" []); reflexivity.
  - eapply (proj2 (proj2 (argument_line_errors Dec.float Dec.float Dec.zero
                     [] "EXCITATION" "N2 <-> N2*" "1.5" ["-----"; "0 1"; "2 3"; "-----"] _
                     ltac:(by_compute) ltac:(by_compute) ltac:(by_compute)
                     ltac:(by_compute) ltac:(vm_compute; reflexivity)))
              "1.5" _ ltac:(by_compute) ltac:(by_compute) eq_refl);
      vm_compute; reflexivity.
Defined.

Lemma comment_lines_are_ignored_witness :
  Dec.parse ["ELASTIC"; "Ar"; "0.5"; "one"; "two"; "-----"; "0 1"; "2 3"; "-----"]
  = Dec.parse ["ELASTIC"; "Ar"; "0.5"; "-----"; "0 1"; "2 3"; "-----"].
Proof.
  apply (comment_lines_are_ignored Dec.float Dec.float Dec.zero
           [] "ELASTIC" "Ar" ["0.5"] ["one"; "two"] [] "-----"
           ["0 1"; "2 3"; "-----"]); by_compute.
Defined.

Lemma block_without_separator_takes_all_witness :
  Dec.parse ["ELASTIC"; "Ar"; "0.5"; "a comment"; "0 1"; "ATTACHMENT"; "O2"]
  = Dec.parse ["ELASTIC"; "Ar"; "0.5"].
Proof.
  apply (block_without_separator_takes_all Dec.float Dec.float Dec.zero
           [] "ELASTIC" "Ar" ["0.5"] ["a comment"; "0 1"; "ATTACHMENT"; "O2"]);
    by_compute.
Defined.

Lemma missing_last_separator_witness :
  Dec.parse ["ELASTIC"; "Ar"; "0.5"; "a comment"; "-----"; "0 1"; "2 3"]
  = Dec.parse ["ELASTIC"; "Ar"; "0.5"; "a comment"; "-----"; "0 1"; "2 3"; "-----"].
Proof.
  apply (missing_last_separator Dec.float Dec.float Dec.zero
           [] "ELASTIC" "Ar" ["0.5"] ["a comment"] "-----" ["0 1"; "2 3"] "-----");
    by_compute.
Defined.

Lemma block_then_rest_witness :
  Dec.parse (["some text"] ++ elastic_block ++ attachment_block)
  = (do ps1 <- Dec.parse elastic_block;
     do ps <- Dec.parse attachment_block;
     ret (ps1 ++ ps)).
Proof.
  apply (block_then_rest Dec.float Dec.float Dec.zero
           ["some text"] "ELASTIC" "Ar" [" 0.5 / mass ratio"] ["a comment"] "-----"
           ["0.0 1.0"; "1.0 0.5"] "-----" attachment_block); by_compute.
Defined.

Lemma parse_raises_only_witness :
  exists e, Dec.parse ["MOMENTUM"; "Ar"] = inl e /\ e ∈ parse_errors.
Proof.
  exists StopIteration. split; [reflexivity|].
  apply (parse_raises_only Dec.float Dec.float Dec.zero ["MOMENTUM"; "Ar"]).
  reflexivity.
Defined.

Lemma parse_records_have_their_keys_witness :
  Forall (fun p => exists k, k ∈ keywords /\ record_ok Dec.zero k p)
         [elastic_record; attachment_record_of_block].
Proof.
  apply (parse_records_have_their_keys Dec.float Dec.float Dec.zero
           (elastic_block ++ attachment_block)).
  vm_compute. reflexivity.
Defined.

Lemma RE_ARROW_split_pieces_witness :
  RE_ARROW_split "N2 + e" = ["N2 + e"].
Proof. apply (proj2 (proj2 (RE_ARROW_split_pieces "N2 + e"))). reflexivity. Defined.

Lemma table_of_rows_witness :
  loadtxt_tolist Dec.float ["0 1"; "2.5 3"; "4 5"]
  = inr (VList ((fun row => VList (VFloat <$> row))
                  <$> [[0%Q; 1%Q]; [(5 # 2)%Q; 3%Q]; [4%Q; 5%Q]])).
Proof.
  apply (table_of_rows Dec.float ["0 1"; "2.5 3"; "4 5"]
           [[0%Q; 1%Q]; [(5 # 2)%Q; 3%Q]; [4%Q; 5%Q]] 2).
  - repeat constructor; by_compute.
  - repeat constructor.
  - simpl. lia.
  - lia.
Defined.

Lemma table_of_one_row_witness :
  loadtxt_tolist Dec.float ["0 1 2"] = inr (VList (VFloat <$> [0%Q; 1%Q; 2%Q])).
Proof.
  apply (table_of_one_row Dec.float "0 1 2" [2%Q] 0%Q 1%Q).
  split; [done|]. repeat constructor.
Defined.

Lemma blank_lines_are_no_rows_witness :
  loadtxt_tolist Dec.float (["0 1"] ++ "  # a note" :: ["2 3"])
  = loadtxt_tolist Dec.float (["0 1"] ++ ["2 3"]).
Proof.
  apply (blank_lines_are_no_rows Dec.float ["0 1"] "  # a note" ["2 3"]).
  reflexivity.
Defined.

Lemma serialization_appends_witness :
  exists out tail,
    _write a_b_c ["<!-- head -->"] 0 = inr out
    /\ out = ["<!-- head -->"] ++ tail
    /\ forall s', _write a_b_c s' 0 = inr (s' ++ tail).
Proof.
  eexists. 
  assert (forall (out : list string) (P : list string -> Prop),
            (exists tail, out = ["<!-- head -->"] ++ tail /\ P tail) ->
            _write a_b_c ["<!-- head -->"] 0 = inr out ->
            exists tail, _write a_b_c ["<!-- head -->"] 0 = inr out
                         /\ out = ["<!-- head -->"] ++ tail /\ P tail) as H
    by (intros out P (tail & ? & ?) ?; by exists tail).
  apply H; [|vm_compute; reflexivity].
  apply (serialization_appends a_b_c ["<!-- head -->"] 0). vm_compute. reflexivity.
Defined.

Lemma writable_iff_shallow_witness :
  (exists text, write (nest 7) = inr text) /\ write (nest 8) = inl IndexError.
Proof.
  split.
  - apply (proj1 (proj2 (proj2 (writable_iff_shallow (nest 7) [] 0)))). by_compute.
  - apply (proj2 (proj2 (proj2 (writable_iff_shallow (nest 8) [] 0)))). by_compute.
Defined.

Lemma document_shape_witness :
  exists text,
    write a_b_c = inr text
    /\ exists frags,
         _write a_b_c [] 0 = inr frags
         /\ text = xml_declaration +:+ Py.join "" frags +:+ Py.nl.
Proof.
  eexists. split; [vm_compute; reflexivity|].
  apply (document_shape a_b_c). vm_compute. reflexivity.
Defined.

Lemma leaf_elements_witness :
  _write (mkXMLnode "threshold" "" ∅ [] ∅) [] 2
  = inr ["  "; "<"; "threshold"; "/>"]
  /\ _write (mkXMLnode "threshold" "1.5" ∅ [] ∅) [] 2
     = inr ["  "; "<"; "threshold"; ">"; "1.5"; "</"; "threshold"; ">"].
Proof.
  split.
  - rewrite (proj1 (leaf_elements "threshold" "" ∅ ∅ [] 2 "  " eq_refl eq_refl) eq_refl).
    vm_compute. reflexivity.
  - rewrite (proj2 (leaf_elements "threshold" "1.5" ∅ ∅ [] 2 "  " eq_refl eq_refl)
               ltac:(by_compute) eq_refl).
    vm_compute. reflexivity.
Defined.

Lemma addChild_then_child_witness :
  exists n,
    node_at [0] a_b_c = Some n
    /\ exists n',
         node_at [0] (fst (addChild Dec.repr a_b_c [0] "d" (VStr " text"))) = Some n'
         /\ node_at (snd (addChild Dec.repr a_b_c [0] "d" (VStr " text")))
                    (fst (addChild Dec.repr a_b_c [0] "d" (VStr " text")))
            = Some (XMLnode_init Dec.repr "d" (VStr " text"))
         /\ _children n' = _children n ++ [XMLnode_init Dec.repr "d" (VStr " text")]
         /\ child n' "d" = inr (XMLnode_init Dec.repr "d" (VStr " text"))
         /\ nChildren n' = S (nChildren n)
         /\ _name n' = _name n /\ _value n' = _value n /\ _attribs n' = _attribs n.
Proof.
  eexists. split; [vm_compute; reflexivity|].
  apply (addChild_then_child Dec.repr a_b_c [0]). vm_compute. reflexivity.
Defined.

Lemma setitem_then_getitem_witness :
  exists n,
    node_at [0] a_b_c = Some n
    /\ exists n',
         node_at [0] (setitem a_b_c [0] "id" "7") = Some n'
         /\ getitem_attr n' "id" = inr "7"
         /\ (forall k, k <> "id" -> getitem_attr n' k = getitem_attr n k)
         /\ _name n' = _name n /\ _value n' = _value n /\ _children n' = _children n.
Proof.
  eexists. split; [vm_compute; reflexivity|].
  apply (setitem_then_getitem a_b_c [0]). vm_compute. reflexivity.
Defined.

Lemma write_value_loop_ends_witness :
  write_value_loop 100 ("1 2" +:+ Py.nl +:+ "3 4") "  " []
  = write_value_loop (S (String.length ("1 2" +:+ Py.nl +:+ "3 4")))
      ("1 2" +:+ Py.nl +:+ "3 4") "  " [].
Proof. apply write_value_loop_ends. by_compute. Defined.

Lemma parse_loop_ends_witness :
  parse_loop Dec.float Dec.float Dec.zero 50 two_blocks [] = Dec.parse two_blocks.
Proof. apply (parse_loop_ends Dec.float Dec.float Dec.zero 50 two_blocks). by_compute. Defined.

Lemma value_lines_witness :
  write_value two_lines ["<data>"] 2
  = inr (["<data>"] ++ value_fragments "  " ["1 2 "; "3 4 "; ""]).
Proof.
  rewrite (proj1 (value_lines two_lines ["<data>"] 2 "  " 4 eq_refl eq_refl)).
  reflexivity.
Defined.

Lemma document_of_records_witness :
  _name elastic_document = "ctml" /\ _value elastic_document = ""
  /\ _attribs elastic_document = ∅
  /\ length (_children elastic_document) = length [elastic_record]
  /\ forall j c p, _children elastic_document !! j = Some c ->
                   [elastic_record] !! j = Some p ->
                   process_of Dec.repr j p c.
Proof.
  apply (document_of_records Dec.repr Dec.show [elastic_record] elastic_document).
  vm_compute. reflexivity.
Defined.

Lemma flat_table_is_not_rendered_witness :
  Dec.parse ["MOMENTUM"; "Ar"; "0.5"; "-----"; "0 1"; "-----"] = inr [flat_record]
  /\ main_process Dec.repr Dec.show (XMLnode_init Dec.repr "ctml" (VStr "")) 0 flat_record
     = inl TypeError.
Proof.
  split; [vm_compute; reflexivity|].
  apply (flat_table_is_not_rendered Dec.repr Dec.show
           (XMLnode_init Dec.repr "ctml" (VStr "")) 0 flat_record
           "MOMENTUM" (VStr "Ar") (VFloat (1 # 2)%Q) 0%Q [VFloat 1%Q]);
    [vm_compute; reflexivity | by_compute | vm_compute; reflexivity
    | vm_compute; reflexivity | right; vm_compute; reflexivity].
Defined.

Lemma main_writes_renderable_records_witness :
  exists x frags,
    Dec.convert [elastic_record; attachment_record_of_block] = inr x /\ depth x <= 2
    /\ _write x [] 0 = inr frags
    /\ Dec.main (elastic_block ++ attachment_block)
       = inr (xml_declaration +:+ Py.join "" frags +:+ Py.nl).
Proof.
  apply (main_writes_renderable_records Dec.repr Dec.show Dec.float Dec.float Dec.zero
           (elastic_block ++ attachment_block)
           [elastic_record; attachment_record_of_block]); [vm_compute; reflexivity|].
  apply List.Forall_cons; [|apply List.Forall_cons; [|apply List.Forall_nil]].
  - eexists _, _. split; [vm_compute; reflexivity|].
    split; [vm_compute; by eexists|].
    split; [vm_compute; reflexivity|].
    split; [repeat constructor; eexists _, _, _; reflexivity|].
    vm_compute. by eexists.
  - eexists _, _. split; [vm_compute; reflexivity|].
    split; [vm_compute; by eexists|].
    split; [vm_compute; reflexivity|].
    split; [repeat constructor; eexists _, _, _; reflexivity|].
    vm_compute. split; by eexists.
Defined.

Lemma main_without_headers_witness :
  Dec.main ["LXCat, www.lxcat.net"; "-----"; "no process here"]
  = inr (xml_declaration +:+ "<ctml/>" +:+ Py.nl).
Proof.
  apply (main_without_headers Dec.repr Dec.show Dec.float Dec.float Dec.zero).
  by_compute.
Defined.
